(** * Scenario sharing (snapshot copy): the Supabase migration, embedded

    The migration [supabase_scenario_sharing] adds provenance columns to
    [react_scenarios], creates the audit table [react_scenario_shares] with
    its unique index and row-level-security policies, and defines the two
    [SECURITY DEFINER] functions [react_search_users_by_email] and
    [react_share_scenario].  This file embeds the tables as lists of rows
    (in heap order), the PL/pgSQL bodies as programs of a small
    state-and-error monad, and the PostgreSQL built-ins the bodies call
    ([lower], [trim], [length], [LIKE], [ORDER BY], [LIMIT]) as functions. *)

From Stdlib Require Import List String Ascii Bool Arith PeanoNat ZArith Lia.
From Stdlib Require Import Sorting.Sorted.
Import ListNotations.

Local Open Scope string_scope.
Local Open Scope list_scope.

(* ================================================================== *)
(** ** PostgreSQL built-ins used by the migration *)
(* ================================================================== *)

Module Pg.

Definition text := string.

(** SQL [NULL]: a nullable value is an [option]; a comparison with a
    [NULL] operand is [NULL] ([None]), and a [WHERE] or [IF] condition
    holds only when it is [TRUE]. *)
Definition sql_eq {A : Type} (eqb : A -> A -> bool) (x y : option A)
  : option bool :=
  match x, y with
  | Some a, Some b => Some (eqb a b)
  | _, _ => None
  end.

Definition sql_and (x y : option bool) : option bool :=
  match x, y with
  | Some false, _ | _, Some false => Some false
  | Some true, Some true => Some true
  | _, _ => None
  end.

Definition sql_or (x y : option bool) : option bool :=
  match x, y with
  | Some true, _ | _, Some true => Some true
  | Some false, Some false => Some false
  | _, _ => None
  end.

Definition is_true (x : option bool) : bool :=
  match x with Some true => true | _ => false end.

Definition is_null {A : Type} (x : option A) : bool :=
  match x with None => true | Some _ => false end.

Definition coalesce {A : Type} (x : option A) (d : A) : A :=
  match x with Some a => a | None => d end.

(** [lower(text)] on the ASCII range: ['A'..'Z'] go to ['a'..'z'], every
    other character is left as it is. *)
Definition lower_char (c : ascii) : ascii :=
  let n := nat_of_ascii c in
  if Nat.leb 65 n && Nat.leb n 90 then ascii_of_nat (n + 32) else c.

Fixpoint lower (s : text) : text :=
  match s with
  | EmptyString => EmptyString
  | String c r => String (lower_char c) (lower r)
  end.

Definition space : ascii := " "%char.

Definition is_space (c : ascii) : bool := Ascii.eqb c space.

(** [trim(text)] is [trim(both ' ' from text)]: it removes the longest
    run of the space character (code 32) from both ends; a tab, a line
    feed or any other white space is kept. *)
Fixpoint ltrim (s : text) : text :=
  match s with
  | EmptyString => EmptyString
  | String c r => if is_space c then ltrim r else s
  end.

Fixpoint rtrim (s : text) : text :=
  match s with
  | EmptyString => EmptyString
  | String c r =>
      match rtrim r with
      | EmptyString => if is_space c then EmptyString else String c EmptyString
      | r' => String c r'
      end
  end.

Definition trim (s : text) : text := rtrim (ltrim s).

(** [string LIKE pattern] with the default escape character: [%] matches
    any run of characters, [_] matches any one character, a backslash
    makes the next pattern character literal, anything else matches
    itself.  A pattern that ends in a lone backslash is an error in
    PostgreSQL; [like_dangling] tells those patterns apart and the rows
    of such a pattern match nothing here. *)
Fixpoint like_dangling (p : text) : bool :=
  match p with
  | EmptyString => false
  | String c r =>
      if Ascii.eqb c "\"%char then
        match r with
        | EmptyString => true
        | String _ r' => like_dangling r'
        end
      else like_dangling r
  end.

Fixpoint like (p : text) : text -> bool :=
  match p with
  | EmptyString => fun s => match s with EmptyString => true | _ => false end
  | String c r =>
      if Ascii.eqb c "%"%char then
        (fix any (s : text) : bool :=
           like r s ||
           match s with
           | EmptyString => false
           | String _ s' => any s'
           end)
      else if Ascii.eqb c "_"%char then
        fun s => match s with
                 | EmptyString => false
                 | String _ s' => like r s'
                 end
      else if Ascii.eqb c "\"%char then
        match r with
        | EmptyString => fun _ => false
        | String e r' =>
            fun s => match s with
                     | EmptyString => false
                     | String d s' => Ascii.eqb e d && like r' s'
                     end
        end
      else
        fun s => match s with
                 | EmptyString => false
                 | String d s' => Ascii.eqb c d && like r s'
                 end
  end.

(** A run of space characters, what [trim] removes. *)
Fixpoint blank (s : text) : bool :=
  match s with
  | EmptyString => true
  | String c r => is_space c && blank r
  end.

(** The horizontal tab, a white-space character that [trim] keeps. *)
Definition tab : ascii := ascii_of_nat 9.

(** The pattern characters that do not stand for themselves. *)
Definition like_special (c : ascii) : bool :=
  Ascii.eqb c "%"%char || Ascii.eqb c "_"%char || Ascii.eqb c "\"%char.

Fixpoint like_literal (p : text) : bool :=
  match p with
  | EmptyString => true
  | String c r => negb (like_special c) && like_literal r
  end.

(** The order [ORDER BY] puts a text column in is the collation of the
    database, which the migration does not choose: a collation is taken
    as the test "comes before or at the same place as". *)
Definition collation : Type := text -> text -> bool.

(** The collation ["C"]: the comparison of the character codes from left
    to right ([String.leb]). *)
Definition text_leb : collation := String.leb.

(** A collation of the linguistic kind (the kind of [en_US.UTF-8], under
    which a@example.com sorts before B@Example.com): the texts are compared
    without regard to the case of the letters first, and the character
    codes decide between texts that are equal that way. *)
Definition dictionary_leb : collation :=
  fun a b =>
    match String.compare (lower a) (lower b) with
    | Lt => true
    | Gt => false
    | Eq => String.leb a b
    end.

(** What every collation is: any two texts are comparable, and the
    comparison is transitive. *)
Definition collation_total (c : collation) : Prop :=
  forall a b, c a b = true \/ c b a = true.

Definition collation_transitive (c : collation) : Prop :=
  forall a b x, c a b = true -> c b x = true -> c a x = true.

End Pg.

(* ================================================================== *)
(** ** Schema *)
(* ================================================================== *)

(** A [UUID] is a natural number; [gen_random_uuid()] is a draw that does
    not collide with a key of the table: one more than the largest key. *)
Definition uuid := nat.
Definition timestamptz := nat.

Definition gen_random_uuid (used : list uuid) : uuid := S (list_max used).

(** [JSONB]: the override payload is copied and compared as a whole. *)
Unset Elimination Schemes.
Inductive jsonb : Type :=
| JNull
| JBool (b : bool)
| JNumber (mantissa exponent : Z)
| JString (s : string)
| JArray (items : list jsonb)
| JObject (members : list (string * jsonb)).
Set Elimination Schemes.

(** [auth.users]: the two columns the functions read. *)
Module User.
Record row := mk { id : uuid; email : option Pg.text }.
End User.

(** Modelled from the spec: the base columns of [react_scenarios] (its
    [CREATE TABLE] is not part of the migration; the spec lists id, owner,
    name, description, override payload and base currency, and the
    [INSERT] of [react_share_scenario] names them).  The four provenance
    columns are those of the [ALTER TABLE]. *)
Module Scenario.
Record row := mk {
  id : uuid;
  user_id : uuid;
  name : Pg.text;
  description : option Pg.text;
  overrides : jsonb;
  base_currency : Pg.text;
  is_shared_copy : bool;
  shared_from_scenario_id : option uuid;
  shared_by_user_id : option uuid;
  shared_by_email : option Pg.text
}.
End Scenario.

(** [react_scenario_shares]: every column is [NOT NULL]. *)
Module Share.
Record row := mk {
  id : uuid;
  source_scenario_id : uuid;
  shared_by_user_id : uuid;
  recipient_user_id : uuid;
  recipient_email : Pg.text;
  created_at : timestamptz
}.
End Share.

Record db := mkdb {
  auth_users : list User.row;
  react_scenarios : list Scenario.row;
  react_scenario_shares : list Share.row
}.

(** The key of [uniq_react_scenario_share_sender_source_recipient]. *)
Definition share_key (r : Share.row) : uuid * uuid * uuid :=
  (Share.source_scenario_id r, Share.shared_by_user_id r,
   Share.recipient_user_id r).

Definition key_eqb (k1 k2 : uuid * uuid * uuid) : bool :=
  let '(a1, b1, c1) := k1 in
  let '(a2, b2, c2) := k2 in
  Nat.eqb a1 a2 && Nat.eqb b1 b2 && Nat.eqb c1 c2.

(* ================================================================== *)
(** ** Statements: a state-and-error monad over the database *)
(* ================================================================== *)

Inductive pg_error : Type :=
| raise_exception (message : string)
| unique_violation (index : string)
| foreign_key_violation (column : string)
| not_null_violation (column : string)
| rls_violation (table : string).

Inductive result (A : Type) : Type :=
| Ok (a : A)
| Err (e : pg_error).
Arguments Ok {A} a.
Arguments Err {A} e.

Definition M (A : Type) : Type := db -> result A * db.

Definition ret {A : Type} (a : A) : M A := fun d => (Ok a, d).

Definition raise {A : Type} (e : pg_error) : M A := fun d => (Err e, d).

Definition bind {A B : Type} (m : M A) (k : A -> M B) : M B :=
  fun d => match m d with
           | (Ok a, d') => k a d'
           | (Err e, d') => (Err e, d')
           end.

Declare Scope pg_scope.
Delimit Scope pg_scope with pg.
Notation "x <- m ;; k" := (bind m (fun x => k))
  (at level 61, m at next level, right associativity) : pg_scope.
Local Open Scope pg_scope.

(** [SELECT ... FROM t WHERE w LIMIT 1 INTO v]: the first row of the scan
    for which [w] is true; [None] leaves the target variables [NULL]. *)
Definition select_into {R : Type} (t : db -> list R) (w : R -> option bool)
  : M (option R) :=
  fun d => (Ok (find (fun r => Pg.is_true (w r)) (t d)), d).

(** [EXISTS (SELECT 1 FROM t WHERE w)]. *)
Definition exists_query {R : Type} (t : db -> list R) (w : R -> option bool)
  : M bool :=
  fun d => (Ok (existsb (fun r => Pg.is_true (w r)) (t d)), d).

(** A function call is one statement of its transaction: an exception
    raised inside it undoes every write the call made. *)
Definition call {A : Type} (body : M A) : M A :=
  fun d => match body d with
           | (Ok a, d') => (Ok a, d')
           | (Err e, _) => (Err e, d)
           end.

Definition has_user (i : uuid) (d : db) : bool :=
  existsb (fun u => Nat.eqb (User.id u) i) (auth_users d).

Definition has_scenario (i : uuid) (d : db) : bool :=
  existsb (fun s => Nat.eqb (Scenario.id s) i) (react_scenarios d).

Definition has_share_key (k : uuid * uuid * uuid) (d : db) : bool :=
  existsb (fun r => key_eqb (share_key r) k) (react_scenario_shares d).

(** [INSERT INTO react_scenarios (...) VALUES (...) RETURNING id]: the id
    takes its default; the two references of the provenance columns are
    checked. *)
Definition insert_react_scenarios
  (user_id : uuid) (name : Pg.text) (description : option Pg.text)
  (overrides : jsonb) (base_currency : Pg.text) (is_shared_copy : bool)
  (shared_from_scenario_id shared_by_user_id : option uuid)
  (shared_by_email : option Pg.text) : M uuid :=
  fun d =>
    let new_id := gen_random_uuid (map Scenario.id (react_scenarios d)) in
    if match shared_from_scenario_id with
       | Some s => negb (has_scenario s d)
       | None => false
       end
    then (Err (foreign_key_violation "shared_from_scenario_id"), d)
    else if match shared_by_user_id with
            | Some u => negb (has_user u d)
            | None => false
            end
    then (Err (foreign_key_violation "shared_by_user_id"), d)
    else
      (Ok new_id,
       mkdb (auth_users d)
            (react_scenarios d ++
               [Scenario.mk new_id user_id name description overrides
                  base_currency is_shared_copy shared_from_scenario_id
                  shared_by_user_id shared_by_email])
            (react_scenario_shares d)).

(** [INSERT INTO react_scenario_shares (...) VALUES (...)]: id and
    [created_at] take their defaults; [NOT NULL], the unique index and the
    three references are checked, in this order. *)
Definition insert_react_scenario_shares (now : timestamptz)
  (source_scenario_id shared_by_user_id recipient_user_id : uuid)
  (recipient_email : option Pg.text) : M unit :=
  fun d =>
    match recipient_email with
    | None => (Err (not_null_violation "recipient_email"), d)
    | Some recipient_email =>
        if has_share_key
             (source_scenario_id, shared_by_user_id, recipient_user_id) d
        then (Err (unique_violation
                     "uniq_react_scenario_share_sender_source_recipient"), d)
        else if negb (has_scenario source_scenario_id d)
        then (Err (foreign_key_violation "source_scenario_id"), d)
        else if negb (has_user shared_by_user_id d)
        then (Err (foreign_key_violation "shared_by_user_id"), d)
        else if negb (has_user recipient_user_id d)
        then (Err (foreign_key_violation "recipient_user_id"), d)
        else
          (Ok tt,
           mkdb (auth_users d) (react_scenarios d)
                (react_scenario_shares d ++
                   [Share.mk
                      (gen_random_uuid (map Share.id (react_scenario_shares d)))
                      source_scenario_id shared_by_user_id recipient_user_id
                      recipient_email now]))
    end.

(** The messages of the [RAISE EXCEPTION] statements, under the names of
    the failure modes they are. *)
Definition AuthenticationRequired : pg_error :=
  raise_exception "Authentication required".
Definition NotFoundOrNotOwned : pg_error :=
  raise_exception "Scenario not found or not owned by user".
Definition RecipientNotFound : pg_error :=
  raise_exception "Recipient not found".
Definition SelfShareForbidden : pg_error :=
  raise_exception "Cannot share scenario to yourself".
Definition DuplicateShare : pg_error :=
  raise_exception "Scenario already shared with this recipient".

(* ================================================================== *)
(** ** [react_search_users_by_email] *)
(* ================================================================== *)

(** A row of [RETURNS TABLE (user_id UUID, email TEXT)]. *)
Module Found.
Record row := mk { user_id : uuid; email : Pg.text }.
End Found.

(** The [WHERE] clause and the select list of the search: a row with a
    [NULL] email fails [u.email IS NOT NULL]. *)
Definition search_row (caller : uuid) (normalized_query : Pg.text)
  (u : User.row) : list Found.row :=
  match User.email u with
  | None => []
  | Some e =>
      if Pg.like (normalized_query ++ "%")%string (Pg.lower e)
         && negb (Nat.eqb (User.id u) caller)
      then [Found.mk (User.id u) e]
      else []
  end.

(** [ORDER BY u.email]: a stable insertion sort on the email, in the
    collation of the database. *)
Fixpoint insert_by_email (collate : Pg.collation) (r : Found.row)
  (l : list Found.row) : list Found.row :=
  match l with
  | [] => [r]
  | h :: t =>
      if collate (Found.email r) (Found.email h) then r :: l
      else h :: insert_by_email collate r t
  end.

Fixpoint order_by_email (collate : Pg.collation) (l : list Found.row)
  : list Found.row :=
  match l with
  | [] => []
  | r :: t => insert_by_email collate r (order_by_email collate t)
  end.

(** [collate] is the collation of the database the function runs in. *)
Definition react_search_users_by_email (collate : Pg.collation)
  (auth_uid : option uuid) (query_text : option Pg.text)
  : M (list Found.row) :=
  match auth_uid with
  | None => raise AuthenticationRequired
  | Some caller =>
      let normalized_query := Pg.lower (Pg.trim (Pg.coalesce query_text "")) in
      if Nat.ltb (String.length normalized_query) 2 then ret []
      else
        fun d =>
          (Ok (firstn 10
                 (order_by_email collate
                    (flat_map (search_row caller normalized_query)
                       (auth_users d)))), d)
  end.

(* ================================================================== *)
(** ** [react_share_scenario] *)
(* ================================================================== *)

(** A row of [RETURNS TABLE (shared_scenario_id, shared_scenario_name,
    recipient_user_id, recipient_email)]; the last column is returned from
    the variable [recipient_email]. *)
Module Shared.
Record row := mk {
  shared_scenario_id : uuid;
  shared_scenario_name : Pg.text;
  recipient_user_id : uuid;
  recipient_email : option Pg.text
}.
End Shared.

(** [WHERE s.id = source_scenario_id AND s.user_id = sender_id]. *)
Definition source_where (source_scenario_id : option uuid) (sender_id : uuid)
  (s : Scenario.row) : option bool :=
  Pg.sql_and (Pg.sql_eq Nat.eqb (Some (Scenario.id s)) source_scenario_id)
             (Pg.sql_eq Nat.eqb (Some (Scenario.user_id s)) (Some sender_id)).

(** [WHERE lower(u.email::TEXT) = lower(trim(recipient_email_input))]. *)
Definition recipient_where (recipient_email_input : option Pg.text)
  (u : User.row) : option bool :=
  Pg.sql_eq String.eqb
    (option_map Pg.lower (User.email u))
    (option_map (fun i => Pg.lower (Pg.trim i)) recipient_email_input).

(** [WHERE u.id = sender_id]. *)
Definition sender_where (sender_id : uuid) (u : User.row) : option bool :=
  Pg.sql_eq Nat.eqb (Some (User.id u)) (Some sender_id).

(** The [WHERE] of the [EXISTS] over [react_scenario_shares]. *)
Definition share_where (source_id sender_id recipient_id : uuid)
  (rs : Share.row) : option bool :=
  Pg.sql_and
    (Pg.sql_and
       (Pg.sql_eq Nat.eqb (Some (Share.source_scenario_id rs)) (Some source_id))
       (Pg.sql_eq Nat.eqb (Some (Share.shared_by_user_id rs)) (Some sender_id)))
    (Pg.sql_eq Nat.eqb (Some (Share.recipient_user_id rs)) (Some recipient_id)).

(** The body between [BEGIN] and [END], statement by statement.  The
    variables keep their names; a variable tested with [IS NULL] is an
    [option] and the test is the [match]. *)
Definition react_share_scenario_body (auth_uid : option uuid)
  (now : timestamptz) (source_scenario_id : option uuid)
  (recipient_email_input : option Pg.text) : M Shared.row :=
  match auth_uid with
  | None => raise AuthenticationRequired
  | Some sender_id =>
      source_record <-
        select_into react_scenarios (source_where source_scenario_id sender_id) ;;
      match source_record with
      | None => raise NotFoundOrNotOwned
      | Some source_record =>
          recipient <-
            select_into auth_users (recipient_where recipient_email_input) ;;
          let recipient_id := option_map User.id recipient in
          let recipient_email :=
            match recipient with Some u => User.email u | None => None end in
          match recipient_id with
          | None => raise RecipientNotFound
          | Some recipient_id =>
              if Nat.eqb recipient_id sender_id then raise SelfShareForbidden
              else
                sender <- select_into auth_users (sender_where sender_id) ;;
                let sender_email :=
                  match sender with Some u => User.email u | None => None end in
                already <-
                  exists_query react_scenario_shares
                    (share_where (Scenario.id source_record) sender_id
                       recipient_id) ;;
                if already then raise DuplicateShare
                else
                  inserted_id <-
                    insert_react_scenarios
                      recipient_id
                      (Scenario.name source_record)
                      (Scenario.description source_record)
                      (Scenario.overrides source_record)
                      (Scenario.base_currency source_record)
                      true
                      (Some (Scenario.id source_record))
                      (Some sender_id)
                      sender_email ;;
                  _ <-
                    insert_react_scenario_shares now
                      (Scenario.id source_record) sender_id recipient_id
                      recipient_email ;;
                  ret (Shared.mk inserted_id (Scenario.name source_record)
                         recipient_id recipient_email)
          end
      end
  end.

Definition react_share_scenario (auth_uid : option uuid) (now : timestamptz)
  (source_scenario_id : option uuid) (recipient_email_input : option Pg.text)
  : M Shared.row :=
  call (react_share_scenario_body auth_uid now source_scenario_id
          recipient_email_input).

(* ================================================================== *)
(** ** Row-level security of [react_scenario_shares] *)
(* ================================================================== *)

(** The four policies, each as the expression it carries; [uid] is
    [auth.uid()] of the session. *)
Definition policy_select_using (uid : option uuid) (r : Share.row)
  : option bool :=
  Pg.sql_or (Pg.sql_eq Nat.eqb uid (Some (Share.shared_by_user_id r)))
            (Pg.sql_eq Nat.eqb uid (Some (Share.recipient_user_id r))).

Definition policy_insert_with_check (uid : option uuid)
  (source_scenario_id shared_by_user_id recipient_user_id : option uuid)
  (recipient_email : option Pg.text) : option bool :=
  Some false.

Definition policy_update_using (uid : option uuid) (r : Share.row)
  : option bool :=
  Some false.

Definition policy_delete_using (uid : option uuid) (r : Share.row)
  : option bool :=
  Some false.

Definition PermissionDenied : pg_error :=
  rls_violation "react_scenario_shares".

(** Statements a client session sends to the table itself.  With row-level
    security enabled, an [INSERT] whose new row fails [WITH CHECK] raises
    (before the constraints of the row are looked at); an [UPDATE] or a
    [DELETE] sees only the rows that pass [USING] (and the [SELECT]
    policy, for its [WHERE]), the other rows are skipped without an error,
    and the statement reports the number of rows it touched; the checks
    of an [UPDATE] are made on the rows it changes. *)
Definition client_select (uid : option uuid) : M (list Share.row) :=
  fun d =>
    (Ok (filter (fun r => Pg.is_true (policy_select_using uid r))
           (react_scenario_shares d)), d).

Definition client_insert (uid : option uuid) (now : timestamptz)
  (source_scenario_id shared_by_user_id recipient_user_id : option uuid)
  (recipient_email : option Pg.text) : M unit :=
  if Pg.is_true
       (policy_insert_with_check uid source_scenario_id shared_by_user_id
          recipient_user_id recipient_email)
  then
    match source_scenario_id, shared_by_user_id, recipient_user_id with
    | Some s, Some b, Some r =>
        insert_react_scenario_shares now s b r recipient_email
    | None, _, _ => raise (not_null_violation "source_scenario_id")
    | _, None, _ => raise (not_null_violation "shared_by_user_id")
    | _, _, None => raise (not_null_violation "recipient_user_id")
    end
  else raise PermissionDenied.

Fixpoint distinct_keys (l : list (uuid * uuid * uuid)) : bool :=
  match l with
  | [] => true
  | k :: t => negb (existsb (key_eqb k) t) && distinct_keys t
  end.

Definition client_update (uid : option uuid) (where_ : Share.row -> option bool)
  (set : Share.row -> Share.row) : M nat :=
  fun d =>
    let target r :=
      Pg.is_true (policy_select_using uid r)
      && Pg.is_true (policy_update_using uid r)
      && Pg.is_true (where_ r) in
    let rows := react_scenario_shares d in
    let rows' := map (fun r => if target r then set r else r) rows in
    if negb (existsb target rows) then (Ok 0, d)
    else if negb (forallb (fun r => negb (target r)
                               || Pg.is_true (policy_update_using uid (set r)))
                    rows)
    then (Err PermissionDenied, d)
    else if negb (distinct_keys (map share_key rows'))
    then (Err (unique_violation
                 "uniq_react_scenario_share_sender_source_recipient"), d)
    else
      (Ok (List.length (filter target rows)),
       mkdb (auth_users d) (react_scenarios d) rows').

Definition client_delete (uid : option uuid) (where_ : Share.row -> option bool)
  : M nat :=
  fun d =>
    let target r :=
      Pg.is_true (policy_select_using uid r)
      && Pg.is_true (policy_delete_using uid r)
      && Pg.is_true (where_ r) in
    let rows := react_scenario_shares d in
    (Ok (List.length (filter target rows)),
     mkdb (auth_users d) (react_scenarios d)
          (filter (fun r => negb (target r)) rows)).

(* ================================================================== *)
(** ** Editing a scenario *)
(* ================================================================== *)

(** Modelled from the spec: the owner's edit of a scenario ("mutated only
    by its current owner through normal scenario-editing operations"); its
    code is outside the migration.  It is
    [UPDATE react_scenarios SET ... WHERE id = scenario_id AND user_id =
    auth.uid()], a column left out of [SET] being [None]. *)
Record scenario_edit := mkedit {
  set_name : option Pg.text;
  set_description : option (option Pg.text);
  set_overrides : option jsonb;
  set_base_currency : option Pg.text
}.

Definition apply_edit (e : scenario_edit) (s : Scenario.row) : Scenario.row :=
  Scenario.mk
    (Scenario.id s)
    (Scenario.user_id s)
    (Pg.coalesce (set_name e) (Scenario.name s))
    (Pg.coalesce (set_description e) (Scenario.description s))
    (Pg.coalesce (set_overrides e) (Scenario.overrides s))
    (Pg.coalesce (set_base_currency e) (Scenario.base_currency s))
    (Scenario.is_shared_copy s)
    (Scenario.shared_from_scenario_id s)
    (Scenario.shared_by_user_id s)
    (Scenario.shared_by_email s).

Definition update_react_scenario (auth_uid : option uuid) (scenario_id : uuid)
  (e : scenario_edit) : M nat :=
  fun d =>
    let target s :=
      Nat.eqb (Scenario.id s) scenario_id
      && Pg.is_true (Pg.sql_eq Nat.eqb (Some (Scenario.user_id s)) auth_uid) in
    (Ok (List.length (filter target (react_scenarios d))),
     mkdb (auth_users d)
          (map (fun s => if target s then apply_edit e s else s)
             (react_scenarios d))
          (react_scenario_shares d)).

(** Lookup of a scenario by its key. *)
Definition scenario_by_id (i : uuid) (d : db) : option Scenario.row :=
  find (fun s => Nat.eqb (Scenario.id s) i) (react_scenarios d).

(* ================================================================== *)
(** ** Sample data *)
(* ================================================================== *)

(** The example of the spec: A owns "Base Case 2025" with the override
    [{equity_us: {target_pe: 18.5}}] and shares it with b@example.com. *)
Definition base_case_overrides : jsonb :=
  JObject [("equity_us", JObject [("target_pe", JNumber 185 (-1))])].

Definition user_a : User.row := User.mk 1 (Some "a@example.com").
Definition user_b : User.row := User.mk 2 (Some "B@Example.com").
Definition user_c : User.row := User.mk 3 None.

Definition base_case : Scenario.row :=
  Scenario.mk 10 1 "Base Case 2025" (Some "house view") base_case_overrides
    "USD" false None None None.

Definition other_case : Scenario.row :=
  Scenario.mk 11 2 "Stress" None JNull "EUR" false None None None.

Definition db0 : db := mkdb [user_a; user_b; user_c] [base_case; other_case] [].

(** Two identities registered under the same email. *)
Definition db_dup : db :=
  mkdb [User.mk 1 (Some "ann@example.com"); User.mk 2 (Some "ann@example.com")]
       [] [].

(** Two identities whose emails the collations order differently. *)
Definition db_case : db :=
  mkdb [User.mk 6 (Some "ANna@example.com"); User.mk 7 (Some "andy@example.com");
        User.mk 1 (Some "a@example.com")]
       [] [].

(** Two identities whose emails differ in letter case only. *)
Definition user_b_lower : User.row := User.mk 4 (Some "b@example.com").

Definition db_twins : db :=
  mkdb [user_a; user_b; user_b_lower] [base_case; other_case] [].

(** The state after A has shared "Base Case 2025" with B. *)
Definition db_shared : db :=
  snd (react_share_scenario (Some 1) 100 (Some 10) (Some "b@example.com") db0).

(* ================================================================== *)
(** ** Vocabulary of the properties *)
(* ================================================================== *)

(** The order of the result of the search, under a collation. *)
Definition email_le (collate : Pg.collation) (x y : Found.row) : Prop :=
  collate (Found.email x) (Found.email y) = true.

(** The three reads of [react_share_scenario], named. *)
Definition find_source (source_scenario_id : option uuid) (sender_id : uuid)
  (d : db) : option Scenario.row :=
  find (fun s => Pg.is_true (source_where source_scenario_id sender_id s))
       (react_scenarios d).

Definition resolve_recipient (recipient_email_input : option Pg.text) (d : db)
  : option User.row :=
  find (fun u => Pg.is_true (recipient_where recipient_email_input u))
       (auth_users d).

Definition email_of (i : uuid) (d : db) : option Pg.text :=
  match find (fun u => Pg.is_true (sender_where i u)) (auth_users d) with
  | Some u => User.email u
  | None => None
  end.

(** Every registered identity whose identifier matches the input. *)
Definition recipient_matches (recipient_email_input : option Pg.text) (d : db)
  : list User.row :=
  filter (fun u => Pg.is_true (recipient_where recipient_email_input u))
         (auth_users d).

(** The audit rows of one (source scenario, sender, recipient) triple. *)
Definition shares_of (k : uuid * uuid * uuid) (d : db) : list Share.row :=
  filter (fun r => key_eqb (share_key r) k) (react_scenario_shares d).

(** A history of calls of [react_share_scenario], by any sessions. *)
Record share_call := mkcall {
  call_auth_uid : option uuid;
  call_now : timestamptz;
  call_source_scenario_id : option uuid;
  call_recipient_email_input : option Pg.text
}.

Definition run_call (c : share_call) (d : db) : db :=
  snd (react_share_scenario (call_auth_uid c) (call_now c)
         (call_source_scenario_id c) (call_recipient_email_input c) d).

Definition run_calls (cs : list share_call) (d : db) : db :=
  fold_left (fun d c => run_call c d) cs d.

(** An audit row belongs to a copy when it names the copy's source, its
    sender and its owner. *)
Definition audit_of (c : Scenario.row) (a : Share.row) : Prop :=
  Scenario.shared_from_scenario_id c = Some (Share.source_scenario_id a)
  /\ Scenario.shared_by_user_id c = Some (Share.shared_by_user_id a)
  /\ Scenario.user_id c = Share.recipient_user_id a.

(** No copy without its audit row and no audit row without its copy. *)
Definition paired (d : db) : Prop :=
  (forall c, In c (react_scenarios d) -> Scenario.is_shared_copy c = true ->
             exists a, In a (react_scenario_shares d) /\ audit_of c a)
  /\ (forall a, In a (react_scenario_shares d) ->
                exists c, In c (react_scenarios d)
                          /\ Scenario.is_shared_copy c = true /\ audit_of c a).

(** A history of owner edits of one scenario. *)
Definition run_edits (scenario_id : uuid)
  (es : list (option uuid * scenario_edit)) (d : db) : db :=
  fold_left (fun d e => snd (update_react_scenario (fst e) scenario_id (snd e) d))
            es d.

(** The runs of [react_share_scenario]: six ways to raise, each with the
    state untouched, and the successful run with its two new rows. *)
Inductive share_run (auth_uid : option uuid) (now : timestamptz)
  (sid : option uuid) (input : option Pg.text) (d : db)
  : result Shared.row -> db -> Prop :=
| run_unauthenticated :
    auth_uid = None ->
    share_run auth_uid now sid input d (Err AuthenticationRequired) d
| run_no_source sender :
    auth_uid = Some sender ->
    find_source sid sender d = None ->
    share_run auth_uid now sid input d (Err NotFoundOrNotOwned) d
| run_no_recipient sender src :
    auth_uid = Some sender ->
    find_source sid sender d = Some src ->
    resolve_recipient input d = None ->
    share_run auth_uid now sid input d (Err RecipientNotFound) d
| run_self sender src rcp :
    auth_uid = Some sender ->
    find_source sid sender d = Some src ->
    resolve_recipient input d = Some rcp ->
    User.id rcp = sender ->
    share_run auth_uid now sid input d (Err SelfShareForbidden) d
| run_duplicate sender src rcp :
    auth_uid = Some sender ->
    find_source sid sender d = Some src ->
    resolve_recipient input d = Some rcp ->
    User.id rcp <> sender ->
    has_share_key (Scenario.id src, sender, User.id rcp) d = true ->
    share_run auth_uid now sid input d (Err DuplicateShare) d
| run_sender_unregistered sender src rcp :
    auth_uid = Some sender ->
    find_source sid sender d = Some src ->
    resolve_recipient input d = Some rcp ->
    User.id rcp <> sender ->
    has_share_key (Scenario.id src, sender, User.id rcp) d = false ->
    has_user sender d = false ->
    share_run auth_uid now sid input d
      (Err (foreign_key_violation "shared_by_user_id")) d
| run_shared sender src rcp e :
    auth_uid = Some sender ->
    find_source sid sender d = Some src ->
    resolve_recipient input d = Some rcp ->
    User.email rcp = Some e ->
    User.id rcp <> sender ->
    has_share_key (Scenario.id src, sender, User.id rcp) d = false ->
    has_user sender d = true ->
    share_run auth_uid now sid input d
      (Ok (Shared.mk (gen_random_uuid (map Scenario.id (react_scenarios d)))
             (Scenario.name src) (User.id rcp) (Some e)))
      (mkdb (auth_users d)
         (react_scenarios d ++
            [Scenario.mk
               (gen_random_uuid (map Scenario.id (react_scenarios d)))
               (User.id rcp) (Scenario.name src) (Scenario.description src)
               (Scenario.overrides src) (Scenario.base_currency src) true
               (Some (Scenario.id src)) (Some sender) (email_of sender d)])
         (react_scenario_shares d ++
            [Share.mk
               (gen_random_uuid (map Share.id (react_scenario_shares d)))
               (Scenario.id src) sender (User.id rcp) e now])).

(** Twelve identities under one prefix, registered in descending order,
    and a caller outside them. *)
Definition db_crowd : db :=
  mkdb [User.mk 112 (Some "qa12@x.io"); User.mk 111 (Some "qa11@x.io");
        User.mk 110 (Some "qa10@x.io"); User.mk 109 (Some "qa09@x.io");
        User.mk 108 (Some "qa08@x.io"); User.mk 107 (Some "qa07@x.io");
        User.mk 106 (Some "qa06@x.io"); User.mk 105 (Some "qa05@x.io");
        User.mk 104 (Some "qa04@x.io"); User.mk 103 (Some "qa03@x.io");
        User.mk 102 (Some "qa02@x.io"); User.mk 101 (Some "qa01@x.io");
        User.mk 1 (Some "a@example.com")]
       [] [].

(** The scenario of the id is owned by the user. *)
Definition owns (sender_id : uuid) (source_scenario_id : option uuid) (d : db)
  : Prop :=
  exists s, In s (react_scenarios d)
            /\ source_scenario_id = Some (Scenario.id s)
            /\ Scenario.user_id s = sender_id.

(** A third identity, for shares with more than one recipient. *)
Definition user_carol : User.row := User.mk 5 (Some "carol@example.com").

Definition db_three : db :=
  mkdb [user_a; user_b; user_carol] [base_case; other_case] [].

(** The rows of [react_scenario_shares] a session reads. *)
Definition visible_shares (uid : option uuid) (d : db) : list Share.row :=
  match fst (client_select uid d) with
  | Ok rows => rows
  | Err _ => []
  end.

(** The reference [source_scenario_id REFERENCES react_scenarios(id)]
    holds in the state. *)
Definition shares_reference_scenarios (d : db) : Prop :=
  forall a, In a (react_scenario_shares d) ->
            has_scenario (Share.source_scenario_id a) d = true.

(* ================================================================== *)
(** ** The quarterly-refresh migration: [default_assumptions] and
       [assumption_refresh_log] *)
(* ================================================================== *)

Module Defaults.

(** The roles of a session.  [anon] and [authenticated] are the roles the
    policies name; [service_role] is the role the migration's comment
    leaves the writes of [default_assumptions] to: it is not subject to
    row-level security. *)
Inductive role : Type := anon | authenticated | service_role.

Inductive command : Type := SELECT | INSERT | UPDATE | DELETE.

Definition role_eqb (a b : role) : bool :=
  match a, b with
  | anon, anon | authenticated, authenticated
  | service_role, service_role => true
  | _, _ => false
  end.

Definition command_eqb (a b : command) : bool :=
  match a, b with
  | SELECT, SELECT | INSERT, INSERT | UPDATE, UPDATE | DELETE, DELETE => true
  | _, _ => false
  end.

(** [CREATE POLICY name ON t FOR command TO role USING/WITH CHECK (expr)];
    every expression of this migration is the constant [true]. *)
Record policy := mkpolicy {
  policy_name : string;
  policy_for : command;
  policy_to : role;
  policy_expr : bool
}.

Definition default_assumptions_policies : list policy :=
  [mkpolicy "default_assumptions_read" SELECT authenticated true;
   mkpolicy "default_assumptions_anon_read" SELECT anon true].

Definition assumption_refresh_log_policies : list policy :=
  [mkpolicy "refresh_log_read" SELECT authenticated true;
   mkpolicy "refresh_log_insert" INSERT authenticated true;
   mkpolicy "refresh_log_update" UPDATE authenticated true].

(** With row-level security enabled a command passes for a role when one
    policy for that command and role has a true expression; with no such
    policy it is denied.  An [UPDATE] policy without [WITH CHECK] checks
    the new row with its [USING] expression. *)
Definition permitted (ps : list policy) (c : command) (r : role) : bool :=
  match r with
  | service_role => true
  | _ =>
      existsb (fun p => command_eqb (policy_for p) c
                        && role_eqb (policy_to p) r && policy_expr p) ps
  end.

Record assumptions_row := mkassumptions {
  id : Z;
  defaults_json : jsonb;
  updated_at : timestamptz;
  updated_by : Pg.text
}.

Record log_row := mklog {
  log_id : uuid;
  initiated_at : timestamptz;
  initiated_by : Pg.text;
  suggestions_json : option jsonb;
  applied_changes_json : option jsonb;
  status : Pg.text
}.

Record store := mkstore {
  default_assumptions : list assumptions_row;
  assumption_refresh_log : list log_row
}.

Inductive error : Type :=
| row_security (table : string)
| not_null (column : string)
| check_violation (constraint : string)
| unique (index : string).

Inductive outcome (A : Type) : Type :=
| Done (a : A)
| Failed (e : error).
Arguments Done {A} a.
Arguments Failed {A} e.

(** [CHECK (status IN ('pending', 'applied', 'dismissed', 'test'))]. *)
Definition status_check (s : Pg.text) : bool :=
  String.eqb s "pending" || String.eqb s "applied"
  || String.eqb s "dismissed" || String.eqb s "test".

Fixpoint distinct_ids (l : list Z) : bool :=
  match l with
  | [] => true
  | i :: t => negb (existsb (Z.eqb i) t) && distinct_ids t
  end.

Fixpoint distinct_uuids (l : list uuid) : bool :=
  match l with
  | [] => true
  | i :: t => negb (existsb (Nat.eqb i) t) && distinct_uuids t
  end.

(** [INSERT INTO default_assumptions]: a column left out is [None] and
    takes its default (id 1, [NOW()]); the policy is checked first, then
    [NOT NULL], the [CHECK (id = 1)] and the primary key. *)
Definition insert_default_assumptions (r : role) (now : timestamptz)
  (id_ : option Z) (defaults_json_ : option jsonb)
  (updated_at_ : option timestamptz) (updated_by_ : option Pg.text)
  (s : store) : outcome unit * store :=
  if negb (permitted default_assumptions_policies INSERT r)
  then (Failed (row_security "default_assumptions"), s)
  else
    match defaults_json_, updated_by_ with
    | None, _ => (Failed (not_null "defaults_json"), s)
    | _, None => (Failed (not_null "updated_by"), s)
    | Some j, Some by_ =>
        let i := Pg.coalesce id_ 1%Z in
        if negb (Z.eqb i 1)
        then (Failed (check_violation "default_assumptions_id_check"), s)
        else if existsb (fun x => Z.eqb (id x) i) (default_assumptions s)
        then (Failed (unique "default_assumptions_pkey"), s)
        else
          (Done tt,
           mkstore (default_assumptions s ++
                      [mkassumptions i j (Pg.coalesce updated_at_ now) by_])
                   (assumption_refresh_log s))
    end.

(** [UPDATE default_assumptions SET ... WHERE ...]: the rows the role may
    read and update and that satisfy [WHERE] are replaced; the new rows
    are checked against the policy, the [CHECK] and the primary key. *)
Definition update_default_assumptions (r : role)
  (where_ : assumptions_row -> bool) (set : assumptions_row -> assumptions_row)
  (s : store) : outcome nat * store :=
  let target x :=
    permitted default_assumptions_policies SELECT r
    && permitted default_assumptions_policies UPDATE r && where_ x in
  let rows := default_assumptions s in
  let rows' := map (fun x => if target x then set x else x) rows in
  if negb (existsb target rows) then (Done 0, s)
  else if negb (forallb (fun x => negb (target x) || Z.eqb (id (set x)) 1) rows)
  then (Failed (check_violation "default_assumptions_id_check"), s)
  else if negb (distinct_ids (map id rows'))
  then (Failed (unique "default_assumptions_pkey"), s)
  else (Done (List.length (filter target rows)),
        mkstore rows' (assumption_refresh_log s)).

Definition delete_default_assumptions (r : role)
  (where_ : assumptions_row -> bool) (s : store) : outcome nat * store :=
  let target x :=
    permitted default_assumptions_policies SELECT r
    && permitted default_assumptions_policies DELETE r && where_ x in
  (Done (List.length (filter target (default_assumptions s))),
   mkstore (filter (fun x => negb (target x)) (default_assumptions s))
           (assumption_refresh_log s)).

Definition select_default_assumptions (r : role) (s : store)
  : list assumptions_row :=
  if permitted default_assumptions_policies SELECT r
  then default_assumptions s else [].

(** [INSERT INTO assumption_refresh_log]: id and [initiated_at] take
    their defaults. *)
Definition insert_assumption_refresh_log (r : role) (now : timestamptz)
  (initiated_by_ : option Pg.text)
  (suggestions_json_ applied_changes_json_ : option jsonb)
  (status_ : option Pg.text) (s : store) : outcome uuid * store :=
  if negb (permitted assumption_refresh_log_policies INSERT r)
  then (Failed (row_security "assumption_refresh_log"), s)
  else
    match initiated_by_, status_ with
    | None, _ => (Failed (not_null "initiated_by"), s)
    | _, None => (Failed (not_null "status"), s)
    | Some by_, Some st =>
        if negb (status_check st)
        then (Failed (check_violation "assumption_refresh_log_status_check"),
              s)
        else
          let i := gen_random_uuid (map log_id (assumption_refresh_log s)) in
          (Done i,
           mkstore (default_assumptions s)
                   (assumption_refresh_log s ++
                      [mklog i now by_ suggestions_json_
                         applied_changes_json_ st]))
    end.

Definition update_assumption_refresh_log (r : role)
  (where_ : log_row -> bool) (set : log_row -> log_row) (s : store)
  : outcome nat * store :=
  let target x :=
    permitted assumption_refresh_log_policies SELECT r
    && permitted assumption_refresh_log_policies UPDATE r && where_ x in
  let rows := assumption_refresh_log s in
  let rows' := map (fun x => if target x then set x else x) rows in
  if negb (existsb target rows) then (Done 0, s)
  else if negb (forallb (fun x => negb (target x)
                                  || status_check (status (set x))) rows)
  then (Failed (check_violation "assumption_refresh_log_status_check"), s)
  else if negb (distinct_uuids (map log_id rows'))
  then (Failed (unique "assumption_refresh_log_pkey"), s)
  else (Done (List.length (filter target rows)),
        mkstore (default_assumptions s) rows').

Definition delete_assumption_refresh_log (r : role) (where_ : log_row -> bool)
  (s : store) : outcome nat * store :=
  let target x :=
    permitted assumption_refresh_log_policies SELECT r
    && permitted assumption_refresh_log_policies DELETE r && where_ x in
  (Done (List.length (filter target (assumption_refresh_log s))),
   mkstore (default_assumptions s)
           (filter (fun x => negb (target x)) (assumption_refresh_log s))).

Definition select_assumption_refresh_log (r : role) (s : store)
  : list log_row :=
  if permitted assumption_refresh_log_policies SELECT r
  then assumption_refresh_log s else [].

(** A statement on one of the two tables, by a session of some role. *)
Inductive statement : Type :=
| InsertAssumptions (r : role) (now : timestamptz) (id_ : option Z)
    (defaults_json_ : option jsonb) (updated_at_ : option timestamptz)
    (updated_by_ : option Pg.text)
| UpdateAssumptions (r : role) (where_ : assumptions_row -> bool)
    (set : assumptions_row -> assumptions_row)
| DeleteAssumptions (r : role) (where_ : assumptions_row -> bool)
| InsertLog (r : role) (now : timestamptz) (initiated_by_ : option Pg.text)
    (suggestions_json_ applied_changes_json_ : option jsonb)
    (status_ : option Pg.text)
| UpdateLog (r : role) (where_ : log_row -> bool) (set : log_row -> log_row)
| DeleteLog (r : role) (where_ : log_row -> bool).

Definition statement_role (st : statement) : role :=
  match st with
  | InsertAssumptions r _ _ _ _ _ | UpdateAssumptions r _ _
  | DeleteAssumptions r _ | InsertLog r _ _ _ _ _ | UpdateLog r _ _
  | DeleteLog r _ => r
  end.

Definition execute (st : statement) (s : store) : store :=
  match st with
  | InsertAssumptions r now i j u b =>
      snd (insert_default_assumptions r now i j u b s)
  | UpdateAssumptions r w f => snd (update_default_assumptions r w f s)
  | DeleteAssumptions r w => snd (delete_default_assumptions r w s)
  | InsertLog r now b sj aj st' =>
      snd (insert_assumption_refresh_log r now b sj aj st' s)
  | UpdateLog r w f => snd (update_assumption_refresh_log r w f s)
  | DeleteLog r w => snd (delete_assumption_refresh_log r w s)
  end.

Definition execute_all (sts : list statement) (s : store) : store :=
  fold_left (fun s st => execute st s) sts s.

(** The state right after the migration. *)
Definition empty : store := mkstore [] [].

(** The constraints of the two tables, as a property of a state. *)
Definition constraints_hold (s : store) : Prop :=
  (forall x, In x (default_assumptions s) -> id x = 1%Z)
  /\ distinct_ids (map id (default_assumptions s)) = true
  /\ (forall x, In x (assumption_refresh_log s) ->
                status_check (status x) = true).

End Defaults.

(** A refresh history: the service role writes the defaults twice (the
    second insert meets the primary key) and tries an id other than 1; an
    authenticated user logs two refreshes. *)
Definition refresh_history : list Defaults.statement :=
  [Defaults.InsertAssumptions Defaults.service_role 5 None (Some JNull) None
     (Some "admin@example.com");
   Defaults.InsertAssumptions Defaults.service_role 6 None
     (Some base_case_overrides) None (Some "admin@example.com");
   Defaults.InsertAssumptions Defaults.service_role 7 (Some 2%Z) (Some JNull)
     None (Some "admin@example.com");
   Defaults.InsertLog Defaults.authenticated 8 (Some "a@example.com") None None
     (Some "pending");
   Defaults.InsertLog Defaults.authenticated 9 (Some "b@example.com") None None
     (Some "applied")].

Definition refreshed : Defaults.store :=
  Defaults.execute_all refresh_history Defaults.empty.

(** [SET status = st]. *)
Definition set_status (st : Pg.text) (x : Defaults.log_row) : Defaults.log_row :=
  Defaults.mklog (Defaults.log_id x) (Defaults.initiated_at x)
    (Defaults.initiated_by x) (Defaults.suggestions_json x)
    (Defaults.applied_changes_json x) st.

(** [WHERE id = i]. *)
Definition log_id_is (i : uuid) (x : Defaults.log_row) : bool :=
  Nat.eqb (Defaults.log_id x) i.

(* ================================================================== *)
(** ** The authentication store *)
(* ================================================================== *)

Module Auth.

(** The fields of supabase-js [User] and [Session] the store reads
    ([email?: string], [session.user]). *)
Record User := mkuser { user_id : string; email : option string }.

Record Session := mksession { session_user : User; access_token : string }.

Record AuthState := mkstate {
  user : option User;
  session : option Session;
  isLoading : bool;
  isConfigured : bool;
  error : option string;
  isSuperUser : bool
}.

(** [String.prototype.toLowerCase], on the ASCII range. *)
Definition toLowerCase (s : string) : string := Pg.lower s.

(** [checkIsSuperUser]; [SUPER_USER_EMAIL] is the value of the
    environment variable, or the empty string. *)
Definition checkIsSuperUser (SUPER_USER_EMAIL : string) (u : option User)
  : bool :=
  match u with
  | None => false
  | Some u =>
      if String.eqb SUPER_USER_EMAIL "" then false
      else
        match email u with
        | None => false
        | Some e => String.eqb (toLowerCase e) (toLowerCase SUPER_USER_EMAIL)
        end
  end.

(** The state [create] starts from. *)
Definition initial : AuthState := mkstate None None true false None false.

(** Each [set({...})] of the store, with the values it writes. *)
Inductive patch : Type :=
| init_unconfigured
| init_configured
| init_error (message : string)
| init_session (s : option Session)
| init_thrown
| auth_state_change (s : option Session)
| sign_start
| sign_error (message : string)
| sign_ok (s : option Session) (u : option User)
| sign_out_start
| sign_out_done
| sign_out_thrown
| clear_error.

Definition set (SUPER_USER_EMAIL : string) (p : patch) (st : AuthState)
  : AuthState :=
  match p with
  | init_unconfigured =>
      mkstate (user st) (session st) false false (error st) (isSuperUser st)
  | init_configured =>
      mkstate (user st) (session st) (isLoading st) true (error st)
        (isSuperUser st)
  | init_error m =>
      mkstate (user st) (session st) false (isConfigured st) (Some m)
        (isSuperUser st)
  | init_session s =>
      mkstate (option_map session_user s) s false (isConfigured st) (error st)
        (checkIsSuperUser SUPER_USER_EMAIL (option_map session_user s))
  | init_thrown =>
      mkstate (user st) (session st) false (isConfigured st) (error st)
        (isSuperUser st)
  | auth_state_change s =>
      mkstate (option_map session_user s) s (isLoading st) (isConfigured st)
        (error st)
        (checkIsSuperUser SUPER_USER_EMAIL (option_map session_user s))
  | sign_start =>
      mkstate (user st) (session st) true (isConfigured st) None
        (isSuperUser st)
  | sign_error m =>
      mkstate (user st) (session st) false (isConfigured st) (Some m)
        (isSuperUser st)
  | sign_ok s u =>
      mkstate u s false (isConfigured st) (error st)
        (checkIsSuperUser SUPER_USER_EMAIL u)
  | sign_out_start =>
      mkstate (user st) (session st) true (isConfigured st) (error st)
        (isSuperUser st)
  | sign_out_done =>
      mkstate None None false (isConfigured st) (error st) false
  | sign_out_thrown =>
      mkstate (user st) (session st) false (isConfigured st) (error st)
        (isSuperUser st)
  | clear_error =>
      mkstate (user st) (session st) (isLoading st) (isConfigured st) None
        (isSuperUser st)
  end.

Definition sets (SUPER_USER_EMAIL : string) (ps : list patch) (st : AuthState)
  : AuthState :=
  fold_left (fun st p => set SUPER_USER_EMAIL p st) ps st.

(** What an awaited call of the client comes back with: [{ data, error }]
    with an error, [{ data }] without, or a thrown exception, whose
    [message] may be missing. *)
Inductive response (A : Type) : Type :=
| with_error (message : string)
| with_data (data : A)
| thrown (message : option string).
Arguments with_error {A} message.
Arguments with_data {A} data.
Arguments thrown {A} message.

(** [err.message || fallback]. *)
Definition message_or (m : option string) (fallback : string) : string :=
  match m with
  | Some s => if String.eqb s "" then fallback else s
  | None => fallback
  end.

Record SignResult := mkresult { success : bool; result_error : option string }.

(** [signIn] and [signUp] differ in the client call and in the fallback
    message; [client] tells whether [getSupabaseClient()] gave a client. *)
Definition sign (fallback : string) (SUPER_USER_EMAIL : string) (client : bool)
  (r : response (option Session * option User)) (st : AuthState)
  : AuthState * SignResult :=
  if negb client then (st, mkresult false (Some "Supabase not configured"))
  else
    let st1 := set SUPER_USER_EMAIL sign_start st in
    match r with
    | with_error m =>
        (set SUPER_USER_EMAIL (sign_error m) st1, mkresult false (Some m))
    | with_data (s, u) =>
        (set SUPER_USER_EMAIL (sign_ok s u) st1, mkresult true None)
    | thrown m =>
        let message := message_or m fallback in
        (set SUPER_USER_EMAIL (sign_error message) st1,
         mkresult false (Some message))
    end.

Definition signIn := sign "Sign in failed".
Definition signUp := sign "Sign up failed".

(** [signOut]: the answer of the client is not looked at; only a thrown
    exception keeps the user. *)
Definition signOut (SUPER_USER_EMAIL : string) (client : bool)
  (r : response unit) (st : AuthState) : AuthState :=
  if negb client then st
  else
    let st1 := set SUPER_USER_EMAIL sign_out_start st in
    match r with
    | thrown _ => set SUPER_USER_EMAIL sign_out_thrown st1
    | _ => set SUPER_USER_EMAIL sign_out_done st1
    end.

(** [initialize], up to the registration of the listener. *)
Definition initialize (SUPER_USER_EMAIL : string) (client : bool)
  (r : response (option Session)) (st : AuthState) : AuthState :=
  if negb client then set SUPER_USER_EMAIL init_unconfigured st
  else
    let st1 := set SUPER_USER_EMAIL init_configured st in
    match r with
    | with_error m => set SUPER_USER_EMAIL (init_error m) st1
    | with_data s => set SUPER_USER_EMAIL (init_session s) st1
    | thrown _ => set SUPER_USER_EMAIL init_thrown st1
    end.

End Auth.

(* ================================================================== *)
(** ** The summary of active input changes *)
(* ================================================================== *)

Module Summary.

(** A value of an override object: a number, or anything else
    ([typeof value !== 'number']). *)
Inductive value (number : Type) : Type :=
| Num (n : number)
| NotNum.
Arguments Num {number} n.
Arguments NotNum {number}.

(** An object of overrides, as [Object.entries] lists it. *)
Definition group (number : Type) : Type := list (string * value number).

(** Modelled from the spec: the type [Overrides] (declared outside the
    component), a mapping of asset-class and region keys to numeric field
    overrides, with the optional members [buildSections] reads. *)
Record MacroOverrides (number : Type) := mkmacro {
  us : option (group number);
  eurozone : option (group number);
  japan : option (group number);
  em : option (group number)
}.
Arguments mkmacro {number}.
Arguments us {number}.
Arguments eurozone {number}.
Arguments japan {number}.
Arguments em {number}.

Record InflationLinked (number : Type) := mkinflation {
  usd : option (group number);
  eur : option (group number)
}.
Arguments mkinflation {number}.
Arguments usd {number}.
Arguments eur {number}.

Record Overrides (number : Type) := mkoverrides {
  macro : option (MacroOverrides number);
  bonds_global : option (group number);
  bonds_hy : option (group number);
  bonds_em : option (group number);
  inflation_linked : option (InflationLinked number);
  equity_us : option (group number);
  equity_europe : option (group number);
  equity_japan : option (group number);
  equity_em : option (group number);
  absolute_return : option (group number)
}.
Arguments mkoverrides {number}.
Arguments macro {number}.
Arguments bonds_global {number}.
Arguments bonds_hy {number}.
Arguments bonds_em {number}.
Arguments inflation_linked {number}.
Arguments equity_us {number}.
Arguments equity_europe {number}.
Arguments equity_japan {number}.
Arguments equity_em {number}.
Arguments absolute_return {number}.

Definition SECTION_NAMES : list (string * string) :=
  [("macro.us", "Macro - US");
   ("macro.eurozone", "Macro - Eurozone");
   ("macro.japan", "Macro - Japan");
   ("macro.em", "Macro - EM");
   ("bonds_global", "Bonds Global");
   ("bonds_hy", "Bonds HY");
   ("bonds_em", "Bonds EM");
   ("inflation_linked.usd", "Bonds Inflation Linked (USD)");
   ("inflation_linked.eur", "Bonds Inflation Linked (EUR)");
   ("equity_us", "Equity US");
   ("equity_europe", "Equity Europe");
   ("equity_japan", "Equity Japan");
   ("equity_em", "Equity EM");
   ("absolute_return", "Absolute Return")].

(** [SECTION_NAMES[key]]; [None] is [undefined]. *)
Fixpoint lookup (t : list (string * string)) (key : string) : option string :=
  match t with
  | [] => None
  | (k, v) :: r => if String.eqb k key then Some v else lookup r key
  end.

(** [a || b] on a looked-up string: [undefined] and the empty string
    give way to [b]. *)
Definition or_else (a : option string) (b : string) : string :=
  match a with
  | Some s => if String.eqb s "" then b else s
  | None => b
  end.

Definition SECTION_COLORS_macro : string :=
  "bg-violet-100 text-violet-700 border-violet-300".
Definition SECTION_COLORS_bonds : string :=
  "bg-blue-100 text-blue-700 border-blue-300".
Definition SECTION_COLORS_inflation : string :=
  "bg-teal-100 text-teal-700 border-teal-300".
Definition SECTION_COLORS_equity : string :=
  "bg-emerald-100 text-emerald-700 border-emerald-300".
Definition SECTION_COLORS_absolute : string :=
  "bg-amber-100 text-amber-700 border-amber-300".
Definition default_color : string :=
  "bg-slate-100 text-slate-700 border-slate-300".

(** [sectionKey.startsWith(p)]. *)
Definition startsWith (s p : string) : bool := String.prefix p s.

Definition sectionColor (sectionKey : string) : string :=
  if startsWith sectionKey "macro" then SECTION_COLORS_macro
  else if startsWith sectionKey "inflation" then SECTION_COLORS_inflation
  else if startsWith sectionKey "bonds" then SECTION_COLORS_bonds
  else if startsWith sectionKey "equity" then SECTION_COLORS_equity
  else if startsWith sectionKey "absolute" then SECTION_COLORS_absolute
  else default_color.

Record OverrideEntry := mkentry {
  key : string;
  displayName : string;
  formattedValue : string
}.

Record Section := mksection {
  sectionKey : string;
  label : option string;
  entries : list OverrideEntry
}.

(** The loop over [Object.entries(...)], the same in the five blocks:
    the values that are not numbers are skipped.  [displayName] depends
    on tables declared elsewhere and [formatValue] on the formatting of
    floating-point numbers; both are taken as given. *)
Definition entriesOf {number : Type} (displayName_ : string -> string)
  (formatValue_ : string -> number -> string) (g : group number)
  : list OverrideEntry :=
  flat_map (fun kv =>
              match snd kv with
              | Num n => [mkentry (fst kv) (displayName_ (fst kv))
                            (formatValue_ (fst kv) n)]
              | NotNum => []
              end) g.

(** [if (entries.length > 0) sections.push({...})]. *)
Definition pushSection (sectionKey_ : string) (label_ : option string)
  (es : list OverrideEntry) : list Section :=
  match es with
  | [] => []
  | _ => [mksection sectionKey_ label_ es]
  end.

(** One turn of a loop over the members of an object: a missing member
    is skipped ([continue]). *)
Definition sectionOf {number : Type} (displayName_ : string -> string)
  (formatValue_ : string -> number -> string) (sectionKey_ : string)
  (label_ : option string) (g : option (group number)) : list Section :=
  match g with
  | None => []
  | Some g => pushSection sectionKey_ label_
                (entriesOf displayName_ formatValue_ g)
  end.

Definition buildSections {number : Type} (displayName_ : string -> string)
  (formatValue_ : string -> number -> string) (overrides : Overrides number)
  : list Section :=
  let sec := sectionOf displayName_ formatValue_ in
  (match macro overrides with
   | None => []
   | Some m =>
       flat_map (fun rg =>
                   sec ("macro." ++ fst rg)%string
                     (Some (or_else (lookup SECTION_NAMES
                                       ("macro." ++ fst rg)%string)
                              ("Macro - " ++ fst rg)%string))
                     (snd rg))
         [("us", us m); ("eurozone", eurozone m); ("japan", japan m);
          ("em", em m)]
   end)
  ++ flat_map (fun tg => sec (fst tg) (lookup SECTION_NAMES (fst tg)) (snd tg))
       [("bonds_global", bonds_global overrides);
        ("bonds_hy", bonds_hy overrides);
        ("bonds_em", bonds_em overrides)]
  ++ (match inflation_linked overrides with
      | None => []
      | Some il =>
          flat_map (fun rg =>
                      sec ("inflation_linked." ++ fst rg)%string
                        (lookup SECTION_NAMES
                           ("inflation_linked." ++ fst rg)%string)
                        (snd rg))
            [("usd", usd il); ("eur", eur il)]
      end)
  ++ flat_map (fun tg => sec (fst tg) (lookup SECTION_NAMES (fst tg)) (snd tg))
       [("equity_us", equity_us overrides);
        ("equity_europe", equity_europe overrides);
        ("equity_japan", equity_japan overrides);
        ("equity_em", equity_em overrides)]
  ++ sec "absolute_return" (lookup SECTION_NAMES "absolute_return")
       (absolute_return overrides).

(** [sections.reduce((sum, s) => sum + s.entries.length, 0)]. *)
Definition totalCount (sections : list Section) : nat :=
  fold_left (fun sum s => sum + List.length (entries s)) sections 0.

(** [InputChangeSummary] renders nothing when the count is zero. *)
Definition renders {number : Type} (displayName_ : string -> string)
  (formatValue_ : string -> number -> string) (overrides : Overrides number)
  : bool :=
  negb (Nat.eqb (totalCount (buildSections displayName_ formatValue_ overrides))
          0).

(** The numbers of an object, and the fourteen objects of an
    [Overrides] under their section keys, in the order of
    [SECTION_NAMES]. *)
Definition numbers {number : Type} (g : option (group number)) : list number :=
  match g with
  | None => []
  | Some g => flat_map (fun kv => match snd kv with
                                  | Num n => [n]
                                  | NotNum => []
                                  end) g
  end.

Definition member {number A : Type} (o : option A)
  (f : A -> option (group number)) : option (group number) :=
  match o with
  | None => None
  | Some a => f a
  end.

Definition groups {number : Type} (o : Overrides number)
  : list (string * option (group number)) :=
  [("macro.us", member (macro o) us);
   ("macro.eurozone", member (macro o) eurozone);
   ("macro.japan", member (macro o) japan);
   ("macro.em", member (macro o) em);
   ("bonds_global", bonds_global o);
   ("bonds_hy", bonds_hy o);
   ("bonds_em", bonds_em o);
   ("inflation_linked.usd", member (inflation_linked o) usd);
   ("inflation_linked.eur", member (inflation_linked o) eur);
   ("equity_us", equity_us o);
   ("equity_europe", equity_europe o);
   ("equity_japan", equity_japan o);
   ("equity_em", equity_em o);
   ("absolute_return", absolute_return o)].

End Summary.

(** The section key of an object that holds a number, else nothing. *)
Definition key_if_numbers {number : Type}
  (kg : string * option (Summary.group number)) : list string :=
  match Summary.numbers (snd kg) with
  | [] => []
  | _ => [fst kg]
  end.

(** The colour of each family of section keys. *)
Definition family_colors : list (string * string) :=
  [("macro", Summary.SECTION_COLORS_macro);
   ("bonds", Summary.SECTION_COLORS_bonds);
   ("inflation", Summary.SECTION_COLORS_inflation);
   ("equity", Summary.SECTION_COLORS_equity);
   ("absolute", Summary.SECTION_COLORS_absolute)].

(** An [Overrides] with numbers under two keys, an empty object and a
    value that is not a number. *)
Definition sample_overrides : Summary.Overrides Z :=
  Summary.mkoverrides
    (Some (Summary.mkmacro None (Some [("rgdp_growth", Summary.Num 2%Z)])
             None (Some [])))
    None None None None
    (Some [("target_pe", Summary.Num 18%Z); ("note", Summary.NotNum);
           ("current_pe", Summary.Num 21%Z)])
    None None (Some [("note", Summary.NotNum)]) None.

(* ================================================================== *)
(** ** Deleting a scenario *)
(* ================================================================== *)

(** [shared_from_scenario_id ... ON DELETE SET NULL] on a row that
    refers to the deleted scenario. *)
Definition set_null_shared_from (scenario_id : uuid) (s : Scenario.row)
  : Scenario.row :=
  if Pg.is_true (Pg.sql_eq Nat.eqb (Scenario.shared_from_scenario_id s)
                   (Some scenario_id))
  then Scenario.mk (Scenario.id s) (Scenario.user_id s) (Scenario.name s)
         (Scenario.description s) (Scenario.overrides s)
         (Scenario.base_currency s) (Scenario.is_shared_copy s) None
         (Scenario.shared_by_user_id s) (Scenario.shared_by_email s)
  else s.

(** [DELETE FROM react_scenarios WHERE id = scenario_id], with the two
    referential actions of the migration: the audit rows whose
    [source_scenario_id] is the scenario go with it ([ON DELETE CASCADE]),
    the scenarios copied from it lose their back-reference
    ([ON DELETE SET NULL]). *)
Definition delete_react_scenario (scenario_id : uuid) : M nat :=
  fun d =>
    (Ok (List.length
           (filter (fun s => Nat.eqb (Scenario.id s) scenario_id)
              (react_scenarios d))),
     mkdb (auth_users d)
          (map (set_null_shared_from scenario_id)
             (filter (fun s => negb (Nat.eqb (Scenario.id s) scenario_id))
                (react_scenarios d)))
          (filter (fun a => negb (Nat.eqb (Share.source_scenario_id a)
                                    scenario_id))
             (react_scenario_shares d))).

(* ================================================================== *)
(** ** Facts about the built-ins and the [WHERE] clauses *)
(* ================================================================== *)

Lemma source_where_true (sid : option uuid) (sender : uuid) (s : Scenario.row) :
  Pg.is_true (source_where sid sender s) = true <->
  sid = Some (Scenario.id s) /\ Scenario.user_id s = sender.
Proof.
  unfold source_where, Pg.sql_eq, Pg.sql_and, Pg.is_true.
  destruct sid as [i|]; simpl.
  - destruct (Nat.eqb_spec (Scenario.id s) i) as [Hi|Hi];
      destruct (Nat.eqb_spec (Scenario.user_id s) sender) as [Hu|Hu];
      split; intros H; try discriminate; try (destruct H; congruence).
    split; congruence.
  - destruct (Nat.eqb (Scenario.user_id s) sender);
      (split; [intros H; discriminate H | intros [H _]; discriminate H]).
Qed.

Lemma recipient_where_true (input : option Pg.text) (u : User.row) :
  Pg.is_true (recipient_where input u) = true <->
  exists e i, User.email u = Some e /\ input = Some i /\
              Pg.lower e = Pg.lower (Pg.trim i).
Proof.
  unfold recipient_where, Pg.sql_eq, Pg.is_true.
  destruct (User.email u) as [e|], input as [i|]; simpl.
  - destruct (String.eqb_spec (Pg.lower e) (Pg.lower (Pg.trim i))) as [H|H].
    + split; [intros _; exists e, i; auto | reflexivity].
    + split; [discriminate |].
      intros (e' & i' & He & Hi & Hl). congruence.
  - split; [discriminate | intros (e' & i' & _ & Hi & _); discriminate].
  - split; [discriminate | intros (e' & i' & He & _); discriminate].
  - split; [discriminate | intros (e' & i' & He & _); discriminate].
Qed.

Lemma share_where_key (a b c : uuid) (r : Share.row) :
  Pg.is_true (share_where a b c r) = key_eqb (share_key r) (a, b, c).
Proof.
  unfold share_where, share_key, key_eqb, Pg.sql_eq, Pg.sql_and, Pg.is_true.
  destruct (Nat.eqb (Share.source_scenario_id r) a),
           (Nat.eqb (Share.shared_by_user_id r) b),
           (Nat.eqb (Share.recipient_user_id r) c); reflexivity.
Qed.

Lemma key_eqb_eq (k1 k2 : uuid * uuid * uuid) :
  key_eqb k1 k2 = true <-> k1 = k2.
Proof.
  destruct k1 as [[a1 b1] c1], k2 as [[a2 b2] c2]. unfold key_eqb.
  rewrite !andb_true_iff, !Nat.eqb_eq.
  split; [intros [[-> ->] ->]; reflexivity | intros H; inversion H; auto].
Qed.

Lemma exists_share_where (a b c : uuid) (d : db) :
  existsb (fun r => Pg.is_true (share_where a b c r)) (react_scenario_shares d)
  = has_share_key (a, b, c) d.
Proof.
  unfold has_share_key.
  induction (react_scenario_shares d) as [|r l IH]; simpl.
  - reflexivity.
  - now rewrite share_where_key, IH.
Qed.

Lemma has_user_In (u : User.row) (d : db) :
  In u (auth_users d) -> has_user (User.id u) d = true.
Proof.
  intros H. unfold has_user. apply existsb_exists.
  exists u. split; [assumption | apply Nat.eqb_refl].
Qed.

Lemma has_scenario_In (s : Scenario.row) (l : list Scenario.row)
  (us : list User.row) (sh : list Share.row) :
  In s l -> has_scenario (Scenario.id s) (mkdb us l sh) = true.
Proof.
  intros H. unfold has_scenario. apply existsb_exists.
  exists s. split; [assumption | apply Nat.eqb_refl].
Qed.

(* ================================================================== *)
(** ** The runs of [react_share_scenario_body] *)
(* ================================================================== *)

Lemma find_source_some (sid : option uuid) (sender : uuid) (d : db)
  (src : Scenario.row) :
  find_source sid sender d = Some src ->
  In src (react_scenarios d) /\ sid = Some (Scenario.id src)
  /\ Scenario.user_id src = sender.
Proof.
  unfold find_source. intros H. apply find_some in H. destruct H as [Hin Hw].
  apply source_where_true in Hw. tauto.
Qed.

Lemma resolve_recipient_some (input : option Pg.text) (d : db) (u : User.row) :
  resolve_recipient input d = Some u ->
  In u (auth_users d) /\
  exists e i, User.email u = Some e /\ input = Some i /\
              Pg.lower e = Pg.lower (Pg.trim i).
Proof.
  unfold resolve_recipient. intros H. apply find_some in H.
  destruct H as [Hin Hw]. apply recipient_where_true in Hw. tauto.
Qed.

(** The successful run: the five checks pass, the sender is registered,
    and the two rows are appended. *)
Lemma body_ok (sender : uuid) (now : timestamptz) (sid : option uuid)
  (input : option Pg.text) (d : db) (src : Scenario.row) (rcp : User.row) :
  find_source sid sender d = Some src ->
  resolve_recipient input d = Some rcp ->
  User.id rcp <> sender ->
  has_share_key (Scenario.id src, sender, User.id rcp) d = false ->
  has_user sender d = true ->
  react_share_scenario_body (Some sender) now sid input d =
  (Ok (Shared.mk (gen_random_uuid (map Scenario.id (react_scenarios d)))
         (Scenario.name src) (User.id rcp) (User.email rcp)),
   mkdb (auth_users d)
        (react_scenarios d ++
           [Scenario.mk (gen_random_uuid (map Scenario.id (react_scenarios d)))
              (User.id rcp) (Scenario.name src) (Scenario.description src)
              (Scenario.overrides src) (Scenario.base_currency src) true
              (Some (Scenario.id src)) (Some sender) (email_of sender d)])
        (react_scenario_shares d ++
           [Share.mk (gen_random_uuid (map Share.id (react_scenario_shares d)))
              (Scenario.id src) sender (User.id rcp)
              (Pg.coalesce (User.email rcp) "") now])).
Proof.
  intros Hsrc Hrcp Hne Hkey Husr.
  destruct (find_source_some _ _ _ _ Hsrc) as (Hin & _ & _).
  destruct (resolve_recipient_some _ _ _ Hrcp) as (Hrin & e & i & He & _ & _).
  unfold react_share_scenario_body, bind, select_into, exists_query.
  unfold find_source in Hsrc. rewrite Hsrc.
  unfold resolve_recipient in Hrcp. rewrite Hrcp. cbn [option_map].
  apply Nat.eqb_neq in Hne. rewrite Hne.
  rewrite exists_share_where, Hkey.
  unfold insert_react_scenarios.
  replace (has_scenario (Scenario.id src) d) with true
    by (symmetry; destruct d; now apply has_scenario_In).
  rewrite Husr. cbn [negb].
  unfold insert_react_scenario_shares. rewrite He.
  replace (has_share_key (Scenario.id src, sender, User.id rcp) _) with false
    by (symmetry; exact Hkey).
  rewrite has_scenario_In by (apply in_or_app; now left).
  unfold has_user in *. cbn [auth_users]. rewrite Husr.
  replace (existsb (fun u => Nat.eqb (User.id u) (User.id rcp)) (auth_users d))
    with true by (symmetry; now apply (has_user_In rcp d)).
  simpl. unfold email_of, ret. reflexivity.
Qed.

Lemma body_unauthenticated (now : timestamptz) (sid : option uuid)
  (input : option Pg.text) (d : db) :
  react_share_scenario_body None now sid input d = (Err AuthenticationRequired, d).
Proof. reflexivity. Qed.

Lemma body_no_source (sender : uuid) (now : timestamptz) (sid : option uuid)
  (input : option Pg.text) (d : db) :
  find_source sid sender d = None ->
  react_share_scenario_body (Some sender) now sid input d =
  (Err NotFoundOrNotOwned, d).
Proof.
  intros H. unfold react_share_scenario_body, bind, select_into.
  unfold find_source in H. now rewrite H.
Qed.

Lemma body_no_recipient (sender : uuid) (now : timestamptz) (sid : option uuid)
  (input : option Pg.text) (d : db) (src : Scenario.row) :
  find_source sid sender d = Some src ->
  resolve_recipient input d = None ->
  react_share_scenario_body (Some sender) now sid input d =
  (Err RecipientNotFound, d).
Proof.
  intros Hs Hr. unfold react_share_scenario_body, bind, select_into.
  unfold find_source in Hs. unfold resolve_recipient in Hr.
  now rewrite Hs, Hr.
Qed.

Lemma body_self (sender : uuid) (now : timestamptz) (sid : option uuid)
  (input : option Pg.text) (d : db) (src : Scenario.row) (rcp : User.row) :
  find_source sid sender d = Some src ->
  resolve_recipient input d = Some rcp ->
  User.id rcp = sender ->
  react_share_scenario_body (Some sender) now sid input d =
  (Err SelfShareForbidden, d).
Proof.
  intros Hs Hr He. unfold react_share_scenario_body, bind, select_into.
  unfold find_source in Hs. unfold resolve_recipient in Hr.
  rewrite Hs, Hr. cbn [option_map]. apply Nat.eqb_eq in He. now rewrite He.
Qed.

Lemma body_duplicate (sender : uuid) (now : timestamptz) (sid : option uuid)
  (input : option Pg.text) (d : db) (src : Scenario.row) (rcp : User.row) :
  find_source sid sender d = Some src ->
  resolve_recipient input d = Some rcp ->
  User.id rcp <> sender ->
  has_share_key (Scenario.id src, sender, User.id rcp) d = true ->
  react_share_scenario_body (Some sender) now sid input d =
  (Err DuplicateShare, d).
Proof.
  intros Hs Hr Hne Hk.
  unfold react_share_scenario_body, bind, select_into, exists_query.
  unfold find_source in Hs. unfold resolve_recipient in Hr.
  rewrite Hs, Hr. cbn [option_map]. apply Nat.eqb_neq in Hne. rewrite Hne.
  now rewrite exists_share_where, Hk.
Qed.

Lemma body_sender_unregistered (sender : uuid) (now : timestamptz)
  (sid : option uuid) (input : option Pg.text) (d : db) (src : Scenario.row)
  (rcp : User.row) :
  find_source sid sender d = Some src ->
  resolve_recipient input d = Some rcp ->
  User.id rcp <> sender ->
  has_share_key (Scenario.id src, sender, User.id rcp) d = false ->
  has_user sender d = false ->
  react_share_scenario_body (Some sender) now sid input d =
  (Err (foreign_key_violation "shared_by_user_id"), d).
Proof.
  intros Hs Hr Hne Hk Hu.
  destruct (find_source_some _ _ _ _ Hs) as (Hin & _ & _).
  unfold react_share_scenario_body, bind, select_into, exists_query.
  unfold find_source in Hs. unfold resolve_recipient in Hr.
  rewrite Hs, Hr. cbn [option_map]. apply Nat.eqb_neq in Hne. rewrite Hne.
  rewrite exists_share_where, Hk.
  unfold insert_react_scenarios.
  replace (has_scenario (Scenario.id src) d) with true
    by (symmetry; destruct d; now apply has_scenario_In).
  now rewrite Hu.
Qed.

(** Every run of the body is one of the seven of [share_run], and the body itself leaves
    the tables as they were whenever it raises: no write precedes a
    [RAISE], and the second [INSERT] cannot fail once the first is done. *)
Lemma body_run (auth_uid : option uuid) (now : timestamptz)
  (sid : option uuid) (input : option Pg.text) (d : db) :
  share_run auth_uid now sid input d
    (fst (react_share_scenario_body auth_uid now sid input d))
    (snd (react_share_scenario_body auth_uid now sid input d)).
Proof.
  destruct auth_uid as [sender|].
  2:{ rewrite body_unauthenticated. now constructor. }
  destruct (find_source sid sender d) as [src|] eqn:Hs.
  2:{ rewrite body_no_source by assumption. now apply run_no_source with sender. }
  destruct (resolve_recipient input d) as [rcp|] eqn:Hr.
  2:{ rewrite (body_no_recipient _ _ _ _ _ src) by assumption.
      now apply run_no_recipient with sender src. }
  destruct (Nat.eq_dec (User.id rcp) sender) as [He|Hne].
  { rewrite (body_self _ _ _ _ _ src rcp) by assumption.
    now apply run_self with sender src rcp. }
  destruct (has_share_key (Scenario.id src, sender, User.id rcp) d) eqn:Hk.
  { rewrite (body_duplicate _ _ _ _ _ src rcp) by assumption.
    now apply run_duplicate with sender src rcp. }
  destruct (has_user sender d) eqn:Hu.
  2:{ rewrite (body_sender_unregistered _ _ _ _ _ src rcp) by assumption.
      now apply run_sender_unregistered with sender src rcp. }
  rewrite (body_ok _ _ _ _ _ src rcp) by assumption.
  destruct (resolve_recipient_some _ _ _ Hr) as (_ & e & i & He & _ & _).
  cbn [fst snd]. rewrite He. cbn [Pg.coalesce].
  now apply run_shared with (sender := sender).
Qed.

Lemma call_body (auth_uid : option uuid) (now : timestamptz)
  (sid : option uuid) (input : option Pg.text) (d : db) :
  react_share_scenario auth_uid now sid input d =
  react_share_scenario_body auth_uid now sid input d.
Proof.
  unfold react_share_scenario, call.
  pose proof (body_run auth_uid now sid input d) as H.
  destruct (react_share_scenario_body auth_uid now sid input d) as [r d'].
  cbn [fst snd] in H. destruct r as [a|e]; [reflexivity|].
  inversion H; subst; reflexivity.
Qed.

Lemma share_scenario_run (auth_uid : option uuid) (now : timestamptz)
  (sid : option uuid) (input : option Pg.text) (d : db) :
  share_run auth_uid now sid input d
    (fst (react_share_scenario auth_uid now sid input d))
    (snd (react_share_scenario auth_uid now sid input d)).
Proof. rewrite call_body. apply body_run. Qed.

(* ================================================================== *)
(** ** The unique index is kept by every call *)
(* ================================================================== *)

Lemma has_share_key_shares_of (k : uuid * uuid * uuid) (d : db) :
  has_share_key k d = false <-> shares_of k d = [].
Proof.
  unfold has_share_key, shares_of.
  induction (react_scenario_shares d) as [|r l IH]; cbn [existsb filter].
  - tauto.
  - destruct (key_eqb (share_key r) k); cbn [orb].
    + split; intros H; discriminate H.
    + exact IH.
Qed.

Lemma shares_of_run (auth_uid : option uuid) (now : timestamptz)
  (sid : option uuid) (input : option Pg.text) (d : db)
  (r : result Shared.row) (d' : db) (k : uuid * uuid * uuid) :
  share_run auth_uid now sid input d r d' ->
  shares_of k d' = shares_of k d
  \/ (shares_of k d = [] /\ exists row, shares_of k d' = [row]).
Proof.
  intros H. inversion H; subst; try (now left).
  match goal with Hf : has_share_key _ d = false |- _ =>
    apply has_share_key_shares_of in Hf; rename Hf into Hnone end.
  unfold shares_of in *. cbn [react_scenario_shares].
  rewrite filter_app. cbn [filter].
  match goal with |- context [if ?b then _ else _] => destruct b eqn:Hk end.
  - right. apply key_eqb_eq in Hk. subst k.
    unfold share_key at 2 4. cbn [Share.source_scenario_id
      Share.shared_by_user_id Share.recipient_user_id]. rewrite Hnone.
    split; [reflexivity | eexists; reflexivity].
  - left. now rewrite app_nil_r.
Qed.

Lemma shares_of_call (c : share_call) (d : db) (k : uuid * uuid * uuid) :
  shares_of k (run_call c d) = shares_of k d
  \/ (shares_of k d = [] /\ exists row, shares_of k (run_call c d) = [row]).
Proof.
  unfold run_call. eapply shares_of_run. apply share_scenario_run.
Qed.

Lemma shares_of_calls_le (cs : list share_call) (d : db)
  (k : uuid * uuid * uuid) :
  List.length (shares_of k d) <= 1 ->
  List.length (shares_of k (run_calls cs d)) <= 1.
Proof.
  revert d. induction cs as [|c cs IH]; intros d Hd; simpl.
  - exact Hd.
  - apply IH.
    destruct (shares_of_call c d k) as [E | (_ & row & E)]; rewrite E;
      simpl; lia.
Qed.

Lemma shares_of_calls_one (cs : list share_call) (d : db)
  (k : uuid * uuid * uuid) :
  List.length (shares_of k d) = 1 ->
  List.length (shares_of k (run_calls cs d)) = 1.
Proof.
  revert d. induction cs as [|c cs IH]; intros d Hd; simpl.
  - exact Hd.
  - apply IH.
    destruct (shares_of_call c d k) as [E | (E0 & _)].
    + now rewrite E.
    + rewrite E0 in Hd. discriminate.
Qed.

Lemma find_app_some {A : Type} (f : A -> bool) (l l' : list A) (x : A) :
  find f l = Some x -> find f (l ++ l') = Some x.
Proof.
  induction l as [|a l IH]; simpl; [discriminate|].
  destruct (f a); auto.
Qed.

Lemma share_run_extends (auth_uid : option uuid) (now : timestamptz)
  (sid : option uuid) (input : option Pg.text) (d : db)
  (r : result Shared.row) (d' : db) :
  share_run auth_uid now sid input d r d' ->
  auth_users d' = auth_users d
  /\ exists l, react_scenarios d' = react_scenarios d ++ l.
Proof.
  intros H. inversion H; subst;
    try (split; [reflexivity | exists []; now rewrite app_nil_r]).
  split; [reflexivity | eexists; reflexivity].
Qed.

Lemma run_call_extends (c : share_call) (d : db) :
  auth_users (run_call c d) = auth_users d
  /\ exists l, react_scenarios (run_call c d) = react_scenarios d ++ l.
Proof.
  unfold run_call. eapply share_run_extends. apply share_scenario_run.
Qed.

Lemma run_calls_extends (cs : list share_call) (d : db) :
  auth_users (run_calls cs d) = auth_users d
  /\ exists l, react_scenarios (run_calls cs d) = react_scenarios d ++ l.
Proof.
  revert d. induction cs as [|c cs IH]; intros d; simpl.
  - split; [reflexivity | exists []; now rewrite app_nil_r].
  - destruct (IH (run_call c d)) as (Hu & l & Hl).
    destruct (run_call_extends c d) as (Hu' & l' & Hl').
    split; [congruence |].
    exists (l' ++ l). now rewrite Hl, Hl', app_assoc.
Qed.

Lemma find_source_exists (S A : uuid) (d : db) (src : Scenario.row) :
  In src (react_scenarios d) ->
  Scenario.id src = S ->
  Scenario.user_id src = A ->
  exists src', find_source (Some S) A d = Some src' /\ Scenario.id src' = S.
Proof.
  intros Hin Hid Hu. unfold find_source.
  destruct (find (fun s => Pg.is_true (source_where (Some S) A s))
              (react_scenarios d)) as [src'|] eqn:Hf.
  - exists src'. split; [reflexivity |].
    apply find_some in Hf. destruct Hf as [_ Hw].
    apply source_where_true in Hw. destruct Hw as [Hs _]. congruence.
  - exfalso. apply (find_none _ _ Hf) in Hin.
    assert (Pg.is_true (source_where (Some S) A src) = true) as Ht
        by (apply source_where_true; split; congruence).
    congruence.
Qed.

(** C1. For every scenario S owned by a registered user A and every input
    that resolves to a recipient B other than A, with no audit row for
    (S, A, B) yet: the first call of [react_share_scenario] succeeds; any
    later call for the same triple, whatever happened in between, fails
    with DuplicateShare and leaves every table as it was; the triple has
    exactly one audit row from then on; and for every triple, a history of
    calls never takes it from at most one audit row to more than one. *)
Theorem share_exactly_once (A S B : uuid) (now : timestamptz)
  (input : option Pg.text) (d : db) (src : Scenario.row) (rcp : User.row) :
  In src (react_scenarios d) ->
  Scenario.id src = S ->
  Scenario.user_id src = A ->
  has_user A d = true ->
  resolve_recipient input d = Some rcp ->
  User.id rcp = B ->
  B <> A ->
  shares_of (S, A, B) d = [] ->
  exists r d1,
    react_share_scenario (Some A) now (Some S) input d = (Ok r, d1)
    /\ (forall cs now' input' rcp',
          resolve_recipient input' (run_calls cs d1) = Some rcp' ->
          User.id rcp' = B ->
          react_share_scenario (Some A) now' (Some S) input' (run_calls cs d1)
          = (Err DuplicateShare, run_calls cs d1))
    /\ (forall cs, List.length (shares_of (S, A, B) (run_calls cs d1)) = 1)
    /\ (forall k cs d0,
          List.length (shares_of k d0) <= 1 ->
          List.length (shares_of k (run_calls cs d0)) <= 1).
Proof.
  intros Hin Hid Hown Hreg Hres HB Hne Hnone.
  destruct (find_source_exists S A d src Hin Hid Hown) as (src' & Hsrc & Hid').
  assert (has_share_key (Scenario.id src', A, User.id rcp) d = false) as Hk
      by (apply has_share_key_shares_of; now rewrite Hid', HB).
  assert (User.id rcp <> A) as Hne' by congruence.
  pose proof (body_ok A now (Some S) input d src' rcp Hsrc Hres Hne' Hk Hreg)
    as Hrun.
  rewrite <- call_body in Hrun.
  eexists; eexists. split; [exact Hrun |].
  match type of Hrun with _ = (_, ?x) => set (d1 := x) in * end.
  assert (List.length (shares_of (S, A, B) d1) = 1) as Hone.
  { unfold shares_of, d1. cbn [react_scenario_shares]. rewrite filter_app.
    unfold shares_of in Hnone. rewrite Hnone.
    cbn [filter app]. unfold share_key.
    cbn [Share.source_scenario_id Share.shared_by_user_id
           Share.recipient_user_id].
    rewrite Hid', HB. rewrite (proj2 (key_eqb_eq _ _) eq_refl).
    reflexivity. }
  split; [| split].
  - intros cs now' input' rcp' Hres' HB'.
    destruct (run_calls_extends cs d1) as (_ & l & Hl).
    assert (find_source (Some S) A (run_calls cs d1) = Some src') as Hsrc'.
    { unfold find_source. rewrite Hl. apply find_app_some.
      unfold d1. cbn [react_scenarios]. now apply find_app_some. }
    rewrite call_body.
    apply (body_duplicate A now' (Some S) input' _ src' rcp' Hsrc' Hres').
    + congruence.
    + rewrite Hid', HB'.
      destruct (has_share_key (S, A, B) (run_calls cs d1)) eqn:Hh;
        [reflexivity |].
      apply has_share_key_shares_of in Hh.
      pose proof (shares_of_calls_one cs d1 (S, A, B) Hone) as H1.
      rewrite Hh in H1. discriminate.
  - intros cs. now apply shares_of_calls_one.
  - intros k cs d0. apply shares_of_calls_le.
Qed.

Lemma share_exactly_once_witness :
  exists r d1,
    react_share_scenario (Some 1) 100 (Some 10) (Some " b@EXAMPLE.com ") db0
    = (Ok r, d1)
    /\ (forall cs now' input' rcp',
          resolve_recipient input' (run_calls cs d1) = Some rcp' ->
          User.id rcp' = 2 ->
          react_share_scenario (Some 1) now' (Some 10) input' (run_calls cs d1)
          = (Err DuplicateShare, run_calls cs d1))
    /\ (forall cs, List.length (shares_of (10, 1, 2) (run_calls cs d1)) = 1)
    /\ (forall k cs d0,
          List.length (shares_of k d0) <= 1 ->
          List.length (shares_of k (run_calls cs d0)) <= 1).
Proof.
  apply (share_exactly_once 1 10 2 100 (Some " b@EXAMPLE.com ") db0
           base_case user_b).
  - simpl. auto.
  - reflexivity.
  - reflexivity.
  - reflexivity.
  - reflexivity.
  - reflexivity.
  - lia.
  - reflexivity.
Defined.

(** The example of the spec: the share returns a new scenario named
    "Base Case 2025" for B, the state holds one audit row, and the
    repeated call is a DuplicateShare. *)
Example base_case_shared_once :
  fst (react_share_scenario (Some 1) 100 (Some 10) (Some "b@example.com") db0)
  = Ok (Shared.mk 12 "Base Case 2025" 2 (Some "B@Example.com"))
  /\ scenario_by_id 12 db_shared
     = Some (Scenario.mk 12 2 "Base Case 2025" (Some "house view")
               base_case_overrides "USD" true (Some 10) (Some 1)
               (Some "a@example.com"))
  /\ react_scenario_shares db_shared = [Share.mk 1 10 1 2 "B@Example.com" 100]
  /\ react_share_scenario (Some 1) 101 (Some 10) (Some "b@example.com")
       db_shared
     = (Err DuplicateShare, db_shared).
Proof. repeat split. Qed.

Example share_to_self :
  fst (react_share_scenario (Some 1) 100 (Some 10) (Some "A@example.com") db0)
  = Err SelfShareForbidden.
Proof. reflexivity. Qed.

(* ================================================================== *)
(** ** Atomicity *)
(* ================================================================== *)

Lemma paired_run (auth_uid : option uuid) (now : timestamptz)
  (sid : option uuid) (input : option Pg.text) (d : db)
  (r : result Shared.row) (d' : db) :
  share_run auth_uid now sid input d r d' -> paired d -> paired d'.
Proof.
  intros H [Hc Ha]. inversion H; subst; try (split; assumption).
  split; cbn [react_scenarios react_scenario_shares].
  - intros c Hin Hcopy. apply in_app_or in Hin. destruct Hin as [Hin|Hin].
    + destruct (Hc c Hin Hcopy) as (a & Hain & Hof).
      exists a. split; [apply in_or_app; now left | exact Hof].
    + destruct Hin as [<-|[]].
      eexists. split; [apply in_or_app; right; left; reflexivity |].
      repeat split.
  - intros a Hin. apply in_app_or in Hin. destruct Hin as [Hin|Hin].
    + destruct (Ha a Hin) as (c & Hcin & Hcopy & Hof).
      exists c. split; [apply in_or_app; now left | split; assumption].
    + destruct Hin as [<-|[]].
      eexists. split; [apply in_or_app; right; left; reflexivity |].
      repeat split.
Qed.

Lemma paired_calls (cs : list share_call) (d : db) :
  paired d -> paired (run_calls cs d).
Proof.
  revert d. induction cs as [|c cs IH]; intros d Hd; simpl; [exact Hd|].
  apply IH. unfold run_call. eapply paired_run; [|exact Hd].
  apply share_scenario_run.
Qed.

(** C2. [react_share_scenario] is all-or-nothing: for every session,
    input and starting state, either it returns a row and the state gains
    exactly one scenario, a shared copy carrying the returned id, and
    exactly one audit row, the one of that copy, the users being
    untouched; or it raises and every table is as it was.  The body
    alone already behaves so (no write precedes a [RAISE] and the second
    [INSERT] cannot fail after the first), so the undoing of the
    transaction is never called on.  Hence a state
    reached by calls from a state where copies and audit rows are paired
    has no copy without its audit row and no audit row without its copy. *)
Theorem share_scenario_atomic :
  (forall auth_uid now sid input d,
      match react_share_scenario auth_uid now sid input d with
      | (Ok row, d') =>
          exists copy audit,
            auth_users d' = auth_users d
            /\ react_scenarios d' = react_scenarios d ++ [copy]
            /\ react_scenario_shares d' = react_scenario_shares d ++ [audit]
            /\ Scenario.id copy = Shared.shared_scenario_id row
            /\ Scenario.is_shared_copy copy = true
            /\ audit_of copy audit
      | (Err _, d') => d' = d
      end)
  /\ (forall auth_uid now sid input d,
        react_share_scenario_body auth_uid now sid input d
        = react_share_scenario auth_uid now sid input d)
  /\ (forall cs d0, paired d0 -> paired (run_calls cs d0)).
Proof.
  split; [| split; [intros; symmetry; apply call_body | exact paired_calls]].
  intros auth_uid now sid input d.
  pose proof (share_scenario_run auth_uid now sid input d) as H.
  destruct (react_share_scenario auth_uid now sid input d) as [r d'].
  cbn [fst snd] in H. inversion H; subst; try reflexivity.
  eexists; eexists. cbn [auth_users react_scenarios react_scenario_shares].
  repeat split.
Qed.

Lemma share_scenario_atomic_witness :
  paired db0
  /\ paired (run_calls [mkcall (Some 1) 100 (Some 10) (Some "b@example.com")]
               db0).
Proof.
  assert (paired db0) as H0.
  { split.
    - intros c [<-|[<-|[]]] Hc; discriminate Hc.
    - intros a []. }
  split; [exact H0 |].
  apply (proj2 (proj2 share_scenario_atomic)). exact H0.
Defined.

(* ================================================================== *)
(** ** Not found and not owned look the same *)
(* ================================================================== *)

Lemma find_source_none (sid : option uuid) (sender : uuid) (d : db) :
  (forall s, In s (react_scenarios d) -> sid = Some (Scenario.id s) ->
             Scenario.user_id s <> sender) ->
  find_source sid sender d = None.
Proof.
  intros H. unfold find_source.
  destruct (find _ (react_scenarios d)) as [s|] eqn:Hf; [| reflexivity].
  apply find_some in Hf. destruct Hf as [Hin Hw].
  apply source_where_true in Hw. destruct Hw as [Hs Hu].
  exfalso. exact (H s Hin Hs Hu).
Qed.

(** C4. For every acting user A, scenario id S and recipient input: on a
    state where no scenario has id S, and on a state where a scenario
    with id S exists but every such scenario is owned by someone other
    than A, [react_share_scenario] raises the same
    NotFoundOrNotOwned, the caller gets equal results from the two runs,
    and neither run changes its state. *)
Theorem not_found_or_not_owned_same (A S : uuid) (now1 now2 : timestamptz)
  (input : option Pg.text) (d1 d2 : db) :
  (forall s, In s (react_scenarios d1) -> Scenario.id s <> S) ->
  (exists s, In s (react_scenarios d2) /\ Scenario.id s = S) ->
  (forall s, In s (react_scenarios d2) -> Scenario.id s = S ->
             Scenario.user_id s <> A) ->
  react_share_scenario (Some A) now1 (Some S) input d1
  = (Err NotFoundOrNotOwned, d1)
  /\ react_share_scenario (Some A) now2 (Some S) input d2
     = (Err NotFoundOrNotOwned, d2)
  /\ fst (react_share_scenario (Some A) now1 (Some S) input d1)
     = fst (react_share_scenario (Some A) now2 (Some S) input d2).
Proof.
  intros Habsent _ Hother.
  assert (react_share_scenario (Some A) now1 (Some S) input d1
          = (Err NotFoundOrNotOwned, d1)) as E1.
  { rewrite call_body. apply body_no_source. apply find_source_none.
    intros s Hin Hs. exfalso. apply (Habsent s Hin). congruence. }
  assert (react_share_scenario (Some A) now2 (Some S) input d2
          = (Err NotFoundOrNotOwned, d2)) as E2.
  { rewrite call_body. apply body_no_source. apply find_source_none.
    intros s Hin Hs. apply (Hother s Hin). congruence. }
  rewrite E1, E2. auto.
Qed.

Lemma not_found_or_not_owned_same_witness :
  react_share_scenario (Some 1) 100 (Some 11) (Some "b@example.com")
    (mkdb [user_a; user_b] [base_case] [])
  = (Err NotFoundOrNotOwned, mkdb [user_a; user_b] [base_case] [])
  /\ react_share_scenario (Some 1) 200 (Some 11) (Some "b@example.com") db0
     = (Err NotFoundOrNotOwned, db0)
  /\ fst (react_share_scenario (Some 1) 100 (Some 11) (Some "b@example.com")
            (mkdb [user_a; user_b] [base_case] []))
     = fst (react_share_scenario (Some 1) 200 (Some 11) (Some "b@example.com")
              db0).
Proof.
  apply (not_found_or_not_owned_same 1 11 100 200 (Some "b@example.com")
           (mkdb [user_a; user_b] [base_case] []) db0).
  - intros s [<-|[]]. simpl. lia.
  - exists other_case. split; [simpl; auto | reflexivity].
  - intros s [<-|[<-|[]]]; simpl; lia.
Defined.

(* ================================================================== *)
(** ** The snapshot copy *)
(* ================================================================== *)

Lemma gen_random_uuid_fresh (used : list uuid) (i : uuid) :
  In i used -> i <> gen_random_uuid used.
Proof.
  intros Hin. unfold gen_random_uuid.
  assert (i <= list_max used) as Hle.
  { pose proof (proj1 (list_max_le used (list_max used)) (Nat.le_refl _)) as Hall.
    rewrite Forall_forall in Hall. now apply Hall. }
  lia.
Qed.

Lemma find_app_last {A : Type} (f : A -> bool) (l : list A) (c : A) :
  (forall s, In s l -> f s = false) -> f c = true ->
  find f (l ++ [c]) = Some c.
Proof.
  intros Hl Hc. induction l as [|s l IH]; simpl.
  - now rewrite Hc.
  - rewrite (Hl s) by now left. apply IH. intros s' Hs'. apply Hl. now right.
Qed.

Lemma scenario_by_id_fresh (us : list User.row) (l : list Scenario.row)
  (sh : list Share.row) (c : Scenario.row) :
  Scenario.id c = gen_random_uuid (map Scenario.id l) ->
  scenario_by_id (Scenario.id c) (mkdb us (l ++ [c]) sh) = Some c.
Proof.
  intros Hc. unfold scenario_by_id. cbn [react_scenarios].
  apply find_app_last.
  - intros s Hs. apply Nat.eqb_neq. rewrite Hc.
    apply gen_random_uuid_fresh. now apply in_map.
  - apply Nat.eqb_refl.
Qed.

Lemma share_ok_copy_found (auth_uid : option uuid) (now : timestamptz)
  (sid : option uuid) (input : option Pg.text) (d d' : db) (row : Shared.row) :
  react_share_scenario auth_uid now sid input d = (Ok row, d') ->
  exists src copy,
    In src (react_scenarios d)
    /\ sid = Some (Scenario.id src)
    /\ scenario_by_id (Shared.shared_scenario_id row) d' = Some copy
    /\ Shared.shared_scenario_id row
       = gen_random_uuid (map Scenario.id (react_scenarios d)).
Proof.
  intros Hcall.
  pose proof (share_scenario_run auth_uid now sid input d) as H.
  rewrite Hcall in H. cbn [fst snd] in H. inversion H; subst.
  match goal with Hs : find_source _ _ _ = Some _ |- _ =>
    destruct (find_source_some _ _ _ _ Hs) as (Hin & Hsid & Hown) end.
  exists src. eexists. cbn [Shared.shared_scenario_id].
  split; [exact Hin |]. split; [exact Hsid |].
  split; [apply (scenario_by_id_fresh _ _ _ (Scenario.mk _ _ _ _ _ _ _ _ _ _));
          reflexivity | reflexivity].
Qed.

Lemma sender_where_true (sender : uuid) (u : User.row) :
  Pg.is_true (sender_where sender u) = Nat.eqb (User.id u) sender.
Proof.
  unfold sender_where, Pg.sql_eq, Pg.is_true.
  now destruct (Nat.eqb (User.id u) sender).
Qed.

(** The email the call reads for a registered sender is the email of the
    first row of [auth.users] that carries the sender's id. *)
Lemma email_of_registered (sender : uuid) (d : db) :
  has_user sender d = true ->
  exists su,
    find (fun u => Nat.eqb (User.id u) sender) (auth_users d) = Some su
    /\ In su (auth_users d)
    /\ User.id su = sender
    /\ email_of sender d = User.email su.
Proof.
  unfold has_user, email_of.
  induction (auth_users d) as [|u l IH]; cbn [existsb find]; [discriminate |].
  rewrite sender_where_true.
  destruct (Nat.eqb (User.id u) sender) eqn:Hu; cbn [orb].
  - intros _. exists u. split; [reflexivity |]. split; [now left |].
    split; [now apply Nat.eqb_eq | reflexivity].
  - intros H. destruct (IH H) as (su & Hf & Hin & Hid & He).
    exists su. split; [exact Hf |]. split; [now right |]. now split.
Qed.

(** C5. For every successful call, the inserted scenario (the one row
    added, found under the returned id) is owned by the resolved
    recipient, a registered identity whose lowercased email is the
    trimmed and lowercased input; its name, description, override payload
    and base currency are those of the source scenario in the state of
    the call; it has is_shared_copy = true, shared_from_scenario_id = the
    source id, shared_by_user_id = the sender and shared_by_email = the
    sender's registered email in the state of the call: the email of the
    row of [auth.users] whose id is the sender's. *)
Theorem shared_copy_fields (auth_uid : option uuid) (now : timestamptz)
  (sid : option uuid) (input : option Pg.text) (d d' : db) (row : Shared.row) :
  react_share_scenario auth_uid now sid input d = (Ok row, d') ->
  exists sender src rcp copy,
    auth_uid = Some sender
    /\ In src (react_scenarios d)
    /\ sid = Some (Scenario.id src)
    /\ Scenario.user_id src = sender
    /\ resolve_recipient input d = Some rcp
    /\ react_scenarios d' = react_scenarios d ++ [copy]
    /\ scenario_by_id (Shared.shared_scenario_id row) d' = Some copy
    /\ Scenario.user_id copy = User.id rcp
    /\ Scenario.name copy = Scenario.name src
    /\ Scenario.description copy = Scenario.description src
    /\ Scenario.overrides copy = Scenario.overrides src
    /\ Scenario.base_currency copy = Scenario.base_currency src
    /\ Scenario.is_shared_copy copy = true
    /\ Scenario.shared_from_scenario_id copy = Some (Scenario.id src)
    /\ Scenario.shared_by_user_id copy = Some sender
    /\ Scenario.shared_by_email copy = email_of sender d
    /\ In rcp (auth_users d)
    /\ (exists e i, User.email rcp = Some e /\ input = Some i
                    /\ Pg.lower e = Pg.lower (Pg.trim i))
    /\ (exists su,
          find (fun u => Nat.eqb (User.id u) sender) (auth_users d) = Some su
          /\ In su (auth_users d)
          /\ User.id su = sender
          /\ Scenario.shared_by_email copy = User.email su).
Proof.
  intros Hcall.
  pose proof (share_scenario_run auth_uid now sid input d) as H.
  rewrite Hcall in H. cbn [fst snd] in H. inversion H; subst.
  match goal with Hs : find_source _ _ _ = Some _ |- _ =>
    destruct (find_source_some _ _ _ _ Hs) as (Hin & Hsid & Hown) end.
  match goal with Hr : resolve_recipient _ _ = Some _ |- _ =>
    destruct (resolve_recipient_some _ _ _ Hr) as (Hrin & Hrmatch) end.
  match goal with Hu : has_user _ _ = true |- _ =>
    destruct (email_of_registered _ _ Hu) as (su & Hf & Hsin & Hsid' & Hse) end.
  exists sender, src, rcp. eexists.
  cbn [react_scenarios Shared.shared_scenario_id].
  repeat (split; [first [reflexivity | assumption] |]).
  split; [apply (scenario_by_id_fresh _ _ _ (Scenario.mk _ _ _ _ _ _ _ _ _ _));
          reflexivity |].
  cbn [Scenario.user_id Scenario.name Scenario.description Scenario.overrides
       Scenario.base_currency Scenario.is_shared_copy
       Scenario.shared_from_scenario_id Scenario.shared_by_user_id
       Scenario.shared_by_email].
  repeat (split; [reflexivity |]).
  split; [exact Hrin |]. split; [exact Hrmatch |].
  exists su. auto.
Qed.

Lemma shared_copy_fields_witness :
  exists sender src rcp copy,
    Some 1 = Some sender
    /\ In src (react_scenarios db0)
    /\ Some 10 = Some (Scenario.id src)
    /\ Scenario.user_id src = sender
    /\ resolve_recipient (Some "b@example.com") db0 = Some rcp
    /\ react_scenarios
         (snd (react_share_scenario (Some 1) 100 (Some 10)
                 (Some "b@example.com") db0))
       = react_scenarios db0 ++ [copy]
    /\ scenario_by_id 12
         (snd (react_share_scenario (Some 1) 100 (Some 10)
                 (Some "b@example.com") db0))
       = Some copy
    /\ Scenario.user_id copy = User.id rcp
    /\ Scenario.name copy = Scenario.name src
    /\ Scenario.description copy = Scenario.description src
    /\ Scenario.overrides copy = Scenario.overrides src
    /\ Scenario.base_currency copy = Scenario.base_currency src
    /\ Scenario.is_shared_copy copy = true
    /\ Scenario.shared_from_scenario_id copy = Some (Scenario.id src)
    /\ Scenario.shared_by_user_id copy = Some sender
    /\ Scenario.shared_by_email copy = email_of sender db0
    /\ In rcp (auth_users db0)
    /\ (exists e i, User.email rcp = Some e /\ Some "b@example.com" = Some i
                    /\ Pg.lower e = Pg.lower (Pg.trim i))
    /\ (exists su,
          find (fun u => Nat.eqb (User.id u) sender) (auth_users db0) = Some su
          /\ In su (auth_users db0)
          /\ User.id su = sender
          /\ Scenario.shared_by_email copy = User.email su).
Proof.
  apply (shared_copy_fields (Some 1) 100 (Some 10) (Some "b@example.com") db0
           (snd (react_share_scenario (Some 1) 100 (Some 10)
                   (Some "b@example.com") db0))
           (Shared.mk 12 "Base Case 2025" 2 (Some "B@Example.com"))).
  reflexivity.
Defined.

(* ================================================================== *)
(** ** Snapshot independence *)
(* ================================================================== *)

Lemma apply_edit_id (e : scenario_edit) (s : Scenario.row) :
  Scenario.id (apply_edit e s) = Scenario.id s.
Proof. reflexivity. Qed.

Lemma update_other_scenario (auth_uid : option uuid) (target i : uuid)
  (e : scenario_edit) (d : db) :
  target <> i ->
  scenario_by_id i (snd (update_react_scenario auth_uid target e d))
  = scenario_by_id i d.
Proof.
  intros Hne. unfold scenario_by_id, update_react_scenario.
  cbn [snd react_scenarios].
  induction (react_scenarios d) as [|s l IH]; cbn [map find]; [reflexivity|].
  destruct (Nat.eqb_spec (Scenario.id s) target) as [Ht|Ht]; cbn [andb].
  - assert (Nat.eqb (Scenario.id s) i = false) as Hi
        by (apply Nat.eqb_neq; congruence).
    destruct (Pg.is_true _); [rewrite apply_edit_id |]; rewrite Hi; exact IH.
  - destruct (Nat.eqb (Scenario.id s) i); [reflexivity | exact IH].
Qed.

Lemma edits_other_scenario (target i : uuid)
  (es : list (option uuid * scenario_edit)) (d : db) :
  target <> i ->
  scenario_by_id i (run_edits target es d) = scenario_by_id i d.
Proof.
  intros Hne. unfold run_edits. revert d.
  induction es as [|e es IH]; intros d; cbn [fold_left].
  - reflexivity.
  - rewrite IH. now apply update_other_scenario.
Qed.

(** C6. For every successful share and every later history of edits of
    the source scenario (name, description, override payload, base
    currency, by any session), the copy found under the returned id is
    the row the share inserted, field for field. *)
Theorem snapshot_independence (auth_uid : option uuid) (now : timestamptz)
  (source_id : uuid) (input : option Pg.text) (d d' : db) (row : Shared.row)
  (es : list (option uuid * scenario_edit)) :
  react_share_scenario auth_uid now (Some source_id) input d = (Ok row, d') ->
  exists copy,
    scenario_by_id (Shared.shared_scenario_id row) d' = Some copy
    /\ scenario_by_id (Shared.shared_scenario_id row)
         (run_edits source_id es d') = Some copy.
Proof.
  intros Hcall.
  destruct (share_ok_copy_found auth_uid now (Some source_id) input d d' row
              Hcall) as (src & copy & Hin & Hsid & Hfound & Hfresh).
  exists copy. split; [exact Hfound |].
  rewrite edits_other_scenario; [exact Hfound |].
  injection Hsid as ->. rewrite Hfresh.
  apply gen_random_uuid_fresh. now apply in_map.
Qed.

Lemma snapshot_independence_witness :
  exists copy,
    scenario_by_id 12
      (snd (react_share_scenario (Some 1) 100 (Some 10) (Some "b@example.com")
              db0)) = Some copy
    /\ scenario_by_id 12
         (run_edits 10
            [(Some 1, mkedit (Some "Base Case 2026") None (Some JNull) None)]
            (snd (react_share_scenario (Some 1) 100 (Some 10)
                    (Some "b@example.com") db0))) = Some copy.
Proof.
  apply (snapshot_independence (Some 1) 100 10 (Some "b@example.com") db0
           (snd (react_share_scenario (Some 1) 100 (Some 10)
                   (Some "b@example.com") db0))
           (Shared.mk 12 "Base Case 2025" 2 (Some "B@Example.com"))
           [(Some 1, mkedit (Some "Base Case 2026") None (Some JNull) None)]).
  reflexivity.
Defined.

(* ================================================================== *)
(** ** Resolving the recipient *)
(* ================================================================== *)

Lemma find_filter {A : Type} (f : A -> bool) (l : list A) :
  find f l = hd_error (filter f l).
Proof.
  induction l as [|a l IH]; simpl; [reflexivity|].
  destruct (f a); [reflexivity | exact IH].
Qed.

Lemma resolve_first_match (input : option Pg.text) (d : db) :
  resolve_recipient input d = hd_error (recipient_matches input d).
Proof. apply find_filter. Qed.

(** The input b@example.com matches two registered identities, and the
    call goes on with the first of them instead of raising. *)
Lemma ambiguous_recipient_proceeds :
  List.length (recipient_matches (Some "b@example.com") db_twins) = 2
  /\ fst (react_share_scenario (Some 1) 100 (Some 10) (Some "b@example.com")
            db_twins)
     = Ok (Shared.mk 12 "Base Case 2025" 2 (Some "B@Example.com"))
  /\ fst (react_share_scenario (Some 1) 100 (Some 10) (Some "b@example.com")
            db_twins)
     <> Err RecipientNotFound.
Proof.
  split; [reflexivity |]. split; [reflexivity |].
  intros H. vm_compute in H. discriminate H.
Qed.

(** C7 (amended). Once the caller is authenticated and owns the source
    scenario, the call fails with RecipientNotFound exactly when no
    registered email equals the input after lower(trim(.)); when one or
    more identities match, the recipient is the first match of the scan
    and the call goes on with it: a returned row names that identity. *)
Theorem recipient_resolution (sender : uuid) (now : timestamptz)
  (sid : option uuid) (input : option Pg.text) (d : db) (src : Scenario.row) :
  find_source sid sender d = Some src ->
  (recipient_matches input d = [] <->
   fst (react_share_scenario (Some sender) now sid input d)
   = Err RecipientNotFound)
  /\ (forall u rest,
        recipient_matches input d = u :: rest ->
        resolve_recipient input d = Some u
        /\ fst (react_share_scenario (Some sender) now sid input d)
           <> Err RecipientNotFound
        /\ forall row,
             fst (react_share_scenario (Some sender) now sid input d) = Ok row ->
             Shared.recipient_user_id row = User.id u
             /\ Shared.recipient_email row = User.email u).
Proof.
  intros Hsrc. rewrite call_body.
  pose proof (resolve_first_match input d) as Hfirst.
  destruct (resolve_recipient input d) as [rcp|] eqn:Hr.
  - destruct (recipient_matches input d) as [|u0 rest0] eqn:Hm;
      cbn [hd_error] in Hfirst; [discriminate Hfirst |].
    injection Hfirst as <-.
    assert (fst (react_share_scenario_body (Some sender) now sid input d)
            <> Err RecipientNotFound
            /\ forall row,
                fst (react_share_scenario_body (Some sender) now sid input d)
                = Ok row ->
                Shared.recipient_user_id row = User.id rcp
                /\ Shared.recipient_email row = User.email rcp) as [Hno Hrow].
    { destruct (Nat.eq_dec (User.id rcp) sender) as [He|Hne].
      { rewrite (body_self _ _ _ _ _ src rcp) by assumption.
        split; [discriminate | intros row E; discriminate E]. }
      destruct (has_share_key (Scenario.id src, sender, User.id rcp) d) eqn:Hk.
      { rewrite (body_duplicate _ _ _ _ _ src rcp) by assumption.
        split; [discriminate | intros row E; discriminate E]. }
      destruct (has_user sender d) eqn:Hu.
      2:{ rewrite (body_sender_unregistered _ _ _ _ _ src rcp) by assumption.
          split; [discriminate | intros row E; discriminate E]. }
      rewrite (body_ok _ _ _ _ _ src rcp) by assumption. cbn [fst].
      split; [discriminate |].
      intros row E. injection E as <-. split; reflexivity. }
    split.
    + split; [intros E; discriminate E | intros E; contradiction].
    + intros u rest E. injection E as <- <-. auto.
  - rewrite (body_no_recipient _ _ _ _ _ src) by assumption. cbn [fst].
    destruct (recipient_matches input d) as [|u0 rest0] eqn:Hm;
      cbn [hd_error] in Hfirst; [| discriminate Hfirst].
    split; [tauto |]. intros u rest E. discriminate E.
Qed.

Lemma recipient_resolution_witness :
  (recipient_matches (Some "b@example.com") db_twins = [] <->
   fst (react_share_scenario (Some 1) 100 (Some 10) (Some "b@example.com")
          db_twins)
   = Err RecipientNotFound)
  /\ (forall u rest,
        recipient_matches (Some "b@example.com") db_twins = u :: rest ->
        resolve_recipient (Some "b@example.com") db_twins = Some u
        /\ fst (react_share_scenario (Some 1) 100 (Some 10)
                  (Some "b@example.com") db_twins)
           <> Err RecipientNotFound
        /\ forall row,
             fst (react_share_scenario (Some 1) 100 (Some 10)
                    (Some "b@example.com") db_twins) = Ok row ->
             Shared.recipient_user_id row = User.id u
             /\ Shared.recipient_email row = User.email u).
Proof.
  apply (recipient_resolution 1 100 (Some 10) (Some "b@example.com") db_twins
           base_case).
  reflexivity.
Defined.

(* ================================================================== *)
(** ** The search *)
(* ================================================================== *)

Lemma like_percent (s : Pg.text) : Pg.like "%" s = true.
Proof.
  induction s as [|c s IH]; [reflexivity |].
  cbn in *. exact IH.
Qed.

(** On a query without [%], [_] and backslash, the pattern of the search
    is the prefix test. *)
Lemma like_literal_prefix (q s : Pg.text) :
  Pg.like_literal q = true ->
  Pg.like (q ++ "%")%string s = String.prefix q s.
Proof.
  revert s. induction q as [|c q IH]; intros s Hq.
  - rewrite like_percent. now destruct s.
  - cbn [Pg.like_literal] in Hq. apply andb_true_iff in Hq.
    destruct Hq as [Hc Hq]. unfold Pg.like_special in Hc.
    apply negb_true_iff in Hc. apply orb_false_iff in Hc.
    destruct Hc as [Hc Hc3]. apply orb_false_iff in Hc.
    destruct Hc as [Hc1 Hc2].
    cbn [String.append Pg.like]. rewrite Hc1, Hc2, Hc3.
    destruct s as [|e s]; [reflexivity |].
    cbn [String.prefix]. rewrite IH by assumption.
    destruct (Ascii.eqb_spec c e) as [->|Hne].
    + destruct (ascii_dec e e); [reflexivity | contradiction].
    + destruct (ascii_dec c e); [contradiction | reflexivity].
Qed.

(** The pattern of the search ends in [%], never in a lone backslash:
    the error case of [LIKE] is not met. *)
Lemma search_pattern_well_formed (q : Pg.text) :
  Pg.like_dangling (q ++ "%")%string = false.
Proof.
  enough (Pg.like_dangling (q ++ "%")%string = false
          /\ forall c, Pg.like_dangling (String c (q ++ "%")%string) = false)
    as [H _] by exact H.
  induction q as [|a q [IH1 IH2]].
  - split; [reflexivity |].
    intros c. cbn. now destruct (Ascii.eqb c "\"%char).
  - split; [apply IH2 |].
    intros c. cbn [String.append].
    change (Pg.like_dangling (String c (String a (q ++ "%")%string)))
      with (if Ascii.eqb c "\"%char
            then Pg.like_dangling (q ++ "%")%string
            else Pg.like_dangling (String a (q ++ "%")%string)).
    destruct (Ascii.eqb c "\"%char); [exact IH1 | apply IH2].
Qed.

Example lower_example : Pg.lower "Bob@Example.COM" = "bob@example.com".
Proof. reflexivity. Qed.

Example trim_example : Pg.trim "  a b  " = "a b".
Proof. reflexivity. Qed.

Example trim_keeps_tab :
  Pg.trim (String Pg.tab "a ") = String Pg.tab "a".
Proof. reflexivity. Qed.

Example like_prefix_example : Pg.like "ab%" "abc" = true.
Proof. reflexivity. Qed.

Example like_underscore_example : Pg.like "a_%" "abc" = true.
Proof. reflexivity. Qed.

Example like_escape_example : Pg.like "a\_%" "abc" = false.
Proof. reflexivity. Qed.

Example search_short_query :
  fst (react_search_users_by_email Pg.text_leb (Some 1) (Some " b ") db0)
  = Ok [].
Proof. reflexivity. Qed.

Example search_unauthenticated :
  fst (react_search_users_by_email Pg.text_leb None (Some "b@") db0)
  = Err AuthenticationRequired.
Proof. reflexivity. Qed.

(** C8 (the code at the failing inputs). The search for [b_] returns
    B@Example.com, whose lowercased value does not start with [b_]: the
    underscore of the query is read as the one-character wildcard of
    [LIKE]; the search for [%e] returns it as well, by a match inside the
    identifier. *)
Theorem search_reads_query_as_pattern (collate : Pg.collation) :
  fst (react_search_users_by_email collate (Some 1) (Some "b_") db0)
  = Ok [Found.mk 2 "B@Example.com"]
  /\ String.prefix (Pg.lower (Pg.trim "b_")) (Pg.lower "B@Example.com") = false
  /\ fst (react_search_users_by_email collate (Some 1) (Some "%e") db0)
     = Ok [Found.mk 2 "B@Example.com"]
  /\ String.prefix (Pg.lower (Pg.trim "%e")) (Pg.lower "B@Example.com") = false.
Proof. repeat split. Qed.

Lemma search_row_In (caller : uuid) (q : Pg.text) (u : User.row)
  (r : Found.row) :
  In r (search_row caller q u) ->
  Found.user_id r = User.id u
  /\ User.email u = Some (Found.email r)
  /\ User.id u <> caller
  /\ Pg.like (q ++ "%")%string (Pg.lower (Found.email r)) = true.
Proof.
  unfold search_row. destruct (User.email u) as [e|]; [| intros []].
  destruct (Pg.like (q ++ "%")%string (Pg.lower e)) eqn:Hl; cbn [andb];
    [| intros []].
  destruct (Nat.eqb_spec (User.id u) caller) as [He|Hne]; cbn [negb];
    [intros [] |].
  intros [<-|[]]. cbn. auto.
Qed.

Lemma insert_by_email_In (collate : Pg.collation) (r x : Found.row)
  (l : list Found.row) :
  In x (insert_by_email collate r l) <-> x = r \/ In x l.
Proof.
  induction l as [|h t IH]; cbn [insert_by_email].
  - cbn. intuition.
  - destruct (collate (Found.email r) (Found.email h)); cbn [In].
    + intuition.
    + rewrite IH. intuition.
Qed.

Lemma order_by_email_In (collate : Pg.collation) (x : Found.row)
  (l : list Found.row) :
  In x (order_by_email collate l) <-> In x l.
Proof.
  induction l as [|r t IH]; cbn [order_by_email]; [tauto |].
  rewrite insert_by_email_In, IH. cbn. intuition.
Qed.

Lemma insert_by_email_sorted (collate : Pg.collation) (r : Found.row)
  (l : list Found.row) :
  Pg.collation_total collate ->
  Sorted (email_le collate) l ->
  Sorted (email_le collate) (insert_by_email collate r l).
Proof.
  intros Htotal.
  induction 1 as [|h t Ht IH Hh]; cbn [insert_by_email].
  - repeat constructor.
  - destruct (collate (Found.email r) (Found.email h)) eqn:Hle.
    + constructor; [now constructor | now constructor].
    + assert (email_le collate h r) as Hhr.
      { destruct (Htotal (Found.email r) (Found.email h)) as [E|E];
          [congruence | exact E]. }
      constructor; [exact IH |].
      destruct t as [|h' t']; cbn [insert_by_email].
      * now constructor.
      * destruct (collate (Found.email r) (Found.email h'));
          constructor; [exact Hhr | now inversion Hh].
Qed.

Lemma order_by_email_sorted (collate : Pg.collation) (l : list Found.row) :
  Pg.collation_total collate ->
  Sorted (email_le collate) (order_by_email collate l).
Proof.
  intros Htotal. induction l as [|r t IH]; cbn [order_by_email];
    [constructor | now apply insert_by_email_sorted].
Qed.

Lemma sorted_firstn {A : Type} (R : A -> A -> Prop) (n : nat) (l : list A) :
  Sorted R l -> Sorted R (firstn n l).
Proof.
  intros H. revert n. induction H as [|a l Hl IH Ha]; intros n.
  - rewrite firstn_nil. constructor.
  - destruct n as [|n]; cbn [firstn]; [constructor |].
    constructor; [apply IH |].
    destruct Ha as [|b l' Hab]; [rewrite firstn_nil; constructor |].
    destruct n; cbn [firstn]; now constructor.
Qed.

Lemma In_firstn {A : Type} (n : nat) (l : list A) (x : A) :
  In x (firstn n l) -> In x l.
Proof.
  revert n. induction l as [|a l IH]; intros n H.
  - now rewrite firstn_nil in H.
  - destruct n; cbn [firstn] in H; [contradiction |].
    destruct H as [<-|H]; [now left | right; eauto].
Qed.

(** On [db_dup] the search by user 1 returns user 2, who is registered
    under the caller's own identifier, whatever the collation; on [db0],
    under a collation of the linguistic kind, the search by user 3 returns
    a@example.com before B@Example.com, which is not the order of the
    character codes. *)
Lemma search_returns_shared_identifier :
  email_of 1 db_dup = Some "ann@example.com"
  /\ (forall collate,
        fst (react_search_users_by_email collate (Some 1) (Some "ann") db_dup)
        = Ok [Found.mk 2 "ann@example.com"])
  /\ In "ann@example.com"
       (map Found.email [Found.mk 2 "ann@example.com"])
  /\ fst (react_search_users_by_email Pg.dictionary_leb (Some 3) (Some "_@")
            db0)
     = Ok [Found.mk 1 "a@example.com"; Found.mk 2 "B@Example.com"]
  /\ String.leb "a@example.com" "B@Example.com" = false.
Proof.
  split; [reflexivity |]. split; [reflexivity |].
  split; [now left |]. split; reflexivity.
Qed.

(** C9 (amended). For every query by an authenticated user, the search
    returns, leaving the state as it was, a sequence in which no entry is
    the acting user's (each entry is a registered identity other than the
    caller, so an identifier held by the caller alone is not in it), of
    at most 10 entries, in ascending order of the identifier under the
    collation of the database. *)
Theorem search_excludes_caller_bounded_sorted (collate : Pg.collation)
  (caller : uuid) (query_text : option Pg.text) (d : db) :
  Pg.collation_total collate ->
  exists rows,
    react_search_users_by_email collate (Some caller) query_text d
    = (Ok rows, d)
    /\ (forall r, In r rows ->
          Found.user_id r <> caller
          /\ exists u, In u (auth_users d) /\ User.id u = Found.user_id r
                       /\ User.email u = Some (Found.email r))
    /\ (forall e,
          (forall u, In u (auth_users d) -> User.email u = Some e ->
                     User.id u = caller) ->
          ~ In e (map Found.email rows))
    /\ List.length rows <= 10
    /\ Sorted (email_le collate) rows.
Proof.
  intros Htotal. unfold react_search_users_by_email.
  destruct (Nat.ltb _ 2).
  { exists []. cbn. repeat split; try contradiction; auto with arith. }
  set (q := Pg.lower (Pg.trim (Pg.coalesce query_text ""))).
  eexists. split; [reflexivity |].
  assert (forall r,
            In r (firstn 10 (order_by_email collate
                               (flat_map (search_row caller q) (auth_users d)))) ->
            Found.user_id r <> caller
            /\ exists u, In u (auth_users d) /\ User.id u = Found.user_id r
                         /\ User.email u = Some (Found.email r)) as Hrows.
  { intros r Hr. apply In_firstn in Hr.
    apply (proj1 (order_by_email_In _ _ _)) in Hr.
    apply in_flat_map in Hr. destruct Hr as (u & Hu & Hr).
    apply search_row_In in Hr. destruct Hr as (Hid & He & Hne & _).
    split; [congruence |]. exists u. auto. }
  split; [exact Hrows |]. split; [| split].
  - intros e Honly Hin. apply in_map_iff in Hin.
    destruct Hin as (r & <- & Hr).
    destruct (Hrows r Hr) as (Hne & u & Hu & Hid & He).
    apply Hne. rewrite <- Hid. now apply Honly.
  - apply firstn_le_length.
  - apply sorted_firstn. now apply order_by_email_sorted.
Qed.

Lemma search_excludes_caller_witness :
  exists rows,
    react_search_users_by_email Pg.dictionary_leb (Some 1) (Some "an") db_case
    = (Ok rows, db_case)
    /\ (forall r, In r rows ->
          Found.user_id r <> 1
          /\ exists u, In u (auth_users db_case) /\ User.id u = Found.user_id r
                       /\ User.email u = Some (Found.email r))
    /\ (forall e,
          (forall u, In u (auth_users db_case) -> User.email u = Some e ->
                     User.id u = 1) ->
          ~ In e (map Found.email rows))
    /\ List.length rows <= 10
    /\ Sorted (email_le Pg.dictionary_leb) rows.
Proof.
  apply (search_excludes_caller_bounded_sorted Pg.dictionary_leb 1 (Some "an")
           db_case).
  intros a b. unfold Pg.dictionary_leb.
  rewrite (String.compare_antisym (Pg.lower a) (Pg.lower b)).
  destruct (String.compare (Pg.lower b) (Pg.lower a)); cbn; auto.
  apply String.leb_total.
Defined.

(* ================================================================== *)
(** ** Normalisation of the recipient input *)
(* ================================================================== *)

Lemma lower_char_space (c : ascii) :
  Pg.is_space (Pg.lower_char c) = Pg.is_space c.
Proof.
  destruct c as [[] [] [] [] [] [] [] []]; reflexivity.
Qed.

Lemma ltrim_lower (s : Pg.text) : Pg.ltrim (Pg.lower s) = Pg.lower (Pg.ltrim s).
Proof.
  induction s as [|c s IH]; [reflexivity |].
  cbn [Pg.lower Pg.ltrim]. rewrite lower_char_space.
  destruct (Pg.is_space c); [exact IH | reflexivity].
Qed.

Lemma rtrim_lower (s : Pg.text) : Pg.rtrim (Pg.lower s) = Pg.lower (Pg.rtrim s).
Proof.
  induction s as [|c s IH]; [reflexivity |].
  cbn [Pg.lower Pg.rtrim]. rewrite IH, lower_char_space.
  destruct (Pg.rtrim s); cbn [Pg.lower];
    [destruct (Pg.is_space c) |]; reflexivity.
Qed.

Lemma trim_lower (s : Pg.text) : Pg.trim (Pg.lower s) = Pg.lower (Pg.trim s).
Proof. unfold Pg.trim. now rewrite ltrim_lower, rtrim_lower. Qed.

Lemma ltrim_blank (s : Pg.text) : Pg.blank s = true -> Pg.ltrim s = "".
Proof.
  induction s as [|c s IH]; [reflexivity |].
  cbn [Pg.blank Pg.ltrim]. intros H. apply andb_true_iff in H.
  destruct H as [Hc Hs]. rewrite Hc. auto.
Qed.

Lemma rtrim_blank (s : Pg.text) : Pg.blank s = true -> Pg.rtrim s = "".
Proof.
  induction s as [|c s IH]; [reflexivity |].
  cbn [Pg.blank Pg.rtrim]. intros H. apply andb_true_iff in H.
  destruct H as [Hc Hs]. now rewrite IH, Hc.
Qed.

Lemma ltrim_app_blank (pre s : Pg.text) :
  Pg.blank pre = true -> Pg.ltrim (pre ++ s)%string = Pg.ltrim s.
Proof.
  induction pre as [|c pre IH]; [reflexivity |].
  cbn [Pg.blank String.append Pg.ltrim]. intros H.
  apply andb_true_iff in H. destruct H as [Hc Hp]. rewrite Hc. auto.
Qed.

Lemma rtrim_app_blank (s post : Pg.text) :
  Pg.blank post = true -> Pg.rtrim (s ++ post)%string = Pg.rtrim s.
Proof.
  intros Hp. induction s as [|c s IH].
  - cbn [String.append]. now rewrite rtrim_blank.
  - cbn [String.append Pg.rtrim]. now rewrite IH.
Qed.

Lemma trim_app_blank (s post : Pg.text) :
  Pg.blank post = true -> Pg.trim (s ++ post)%string = Pg.trim s.
Proof.
  intros Hp. unfold Pg.trim. induction s as [|c s IH].
  - cbn [String.append Pg.ltrim]. now rewrite ltrim_blank.
  - cbn [String.append Pg.ltrim]. destruct (Pg.is_space c); [exact IH |].
    now apply (rtrim_app_blank (String c s)).
Qed.

Lemma trim_padded (pre core post : Pg.text) :
  Pg.blank pre = true -> Pg.blank post = true ->
  Pg.trim (pre ++ core ++ post)%string = Pg.trim core.
Proof.
  intros Hpre Hpost. unfold Pg.trim at 1. rewrite ltrim_app_blank by assumption.
  now apply trim_app_blank.
Qed.

Lemma normalised_same (pre1 core1 post1 pre2 core2 post2 : Pg.text) :
  Pg.blank pre1 = true -> Pg.blank post1 = true ->
  Pg.blank pre2 = true -> Pg.blank post2 = true ->
  Pg.lower core1 = Pg.lower core2 ->
  Pg.lower (Pg.trim (pre1 ++ core1 ++ post1)%string)
  = Pg.lower (Pg.trim (pre2 ++ core2 ++ post2)%string).
Proof.
  intros H1 H2 H3 H4 Hc. rewrite !trim_padded by assumption.
  rewrite <- !trim_lower. now rewrite Hc.
Qed.

Lemma find_same {A : Type} (f g : A -> bool) (l : list A) :
  (forall a, f a = g a) -> find f l = find g l.
Proof.
  intros H. induction l as [|a l IH]; simpl; [reflexivity |].
  rewrite H, IH. reflexivity.
Qed.

Lemma resolve_recipient_normalised (i1 i2 : Pg.text) (d : db) :
  Pg.lower (Pg.trim i1) = Pg.lower (Pg.trim i2) ->
  resolve_recipient (Some i1) d = resolve_recipient (Some i2) d.
Proof.
  intros H. unfold resolve_recipient. apply find_same. intros u.
  unfold recipient_where. cbn [option_map]. now rewrite H.
Qed.

Lemma body_same_recipient (auth_uid : option uuid) (now : timestamptz)
  (sid : option uuid) (i1 i2 : option Pg.text) (d : db) :
  resolve_recipient i1 d = resolve_recipient i2 d ->
  react_share_scenario_body auth_uid now sid i1 d
  = react_share_scenario_body auth_uid now sid i2 d.
Proof.
  intros H. destruct auth_uid as [sender|]; [| reflexivity].
  destruct (find_source sid sender d) as [src|] eqn:Hs.
  2:{ now rewrite !body_no_source. }
  destruct (resolve_recipient i2 d) as [rcp|] eqn:Hr.
  2:{ now rewrite !(body_no_recipient _ _ _ _ _ src). }
  destruct (Nat.eq_dec (User.id rcp) sender) as [He|Hne].
  { now rewrite !(body_self _ _ _ _ _ src rcp). }
  destruct (has_share_key (Scenario.id src, sender, User.id rcp) d) eqn:Hk.
  { now rewrite !(body_duplicate _ _ _ _ _ src rcp). }
  destruct (has_user sender d) eqn:Hu.
  2:{ now rewrite !(body_sender_unregistered _ _ _ _ _ src rcp). }
  now rewrite !(body_ok _ _ _ _ _ src rcp).
Qed.

(** The two inputs differ by a leading tab only; the first resolves to
    user 2, the second to nobody. *)
Lemma tab_padding_changes_recipient :
  fst (react_share_scenario (Some 1) 100 (Some 10) (Some "b@example.com") db0)
  = Ok (Shared.mk 12 "Base Case 2025" 2 (Some "B@Example.com"))
  /\ fst (react_share_scenario (Some 1) 100 (Some 10)
            (Some (String Pg.tab "b@example.com")) db0)
     = Err RecipientNotFound
  /\ fst (react_share_scenario (Some 1) 100 (Some 10) (Some "b@example.com")
            db0)
     <> fst (react_share_scenario (Some 1) 100 (Some 10)
               (Some (String Pg.tab "b@example.com")) db0).
Proof.
  split; [reflexivity |]. split; [reflexivity |].
  intros H. vm_compute in H. discriminate H.
Qed.

(** C10 (amended). For every successful call, the identifier returned
    to the caller and the identifier stored in the audit row are the
    email of the resolved recipient as registered, whatever the casing
    and padding of the input; and two inputs that differ only in
    surrounding space characters (code 32, the only character the
    normalisation strips) or in letter case give the same run: the same
    recipient, the same returned row, the same stored rows. *)
Theorem recipient_identifier_as_registered :
  (forall auth_uid now sid input d row d',
      react_share_scenario auth_uid now sid input d = (Ok row, d') ->
      exists rcp e audit,
        resolve_recipient input d = Some rcp
        /\ In rcp (auth_users d)
        /\ User.email rcp = Some e
        /\ Shared.recipient_user_id row = User.id rcp
        /\ Shared.recipient_email row = Some e
        /\ react_scenario_shares d' = react_scenario_shares d ++ [audit]
        /\ Share.recipient_user_id audit = User.id rcp
        /\ Share.recipient_email audit = e)
  /\ (forall auth_uid now sid d pre1 core1 post1 pre2 core2 post2,
        Pg.blank pre1 = true -> Pg.blank post1 = true ->
        Pg.blank pre2 = true -> Pg.blank post2 = true ->
        Pg.lower core1 = Pg.lower core2 ->
        resolve_recipient (Some (pre1 ++ core1 ++ post1)%string) d
        = resolve_recipient (Some (pre2 ++ core2 ++ post2)%string) d
        /\ react_share_scenario auth_uid now sid
             (Some (pre1 ++ core1 ++ post1)%string) d
           = react_share_scenario auth_uid now sid
               (Some (pre2 ++ core2 ++ post2)%string) d).
Proof.
  split.
  - intros auth_uid now sid input d row d' Hcall.
    pose proof (share_scenario_run auth_uid now sid input d) as H.
    rewrite Hcall in H. cbn [fst snd] in H. inversion H; subst.
    match goal with Hr : resolve_recipient _ _ = Some _ |- _ =>
      destruct (resolve_recipient_some _ _ _ Hr) as (Hin & _) end.
    exists rcp, e. eexists.
    cbn [react_scenario_shares Shared.recipient_user_id Shared.recipient_email].
    repeat (split; [first [reflexivity | assumption] |]). reflexivity.
  - intros auth_uid now sid d pre1 core1 post1 pre2 core2 post2 H1 H2 H3 H4 Hc.
    assert (resolve_recipient (Some (pre1 ++ core1 ++ post1)%string) d
            = resolve_recipient (Some (pre2 ++ core2 ++ post2)%string) d) as Hr.
    { apply resolve_recipient_normalised. now apply normalised_same. }
    split; [exact Hr |].
    rewrite !call_body. now apply body_same_recipient.
Qed.

Lemma recipient_identifier_as_registered_witness :
  resolve_recipient (Some ("  " ++ "B@example.COM" ++ " ")%string) db0
  = resolve_recipient (Some ("" ++ "b@Example.com" ++ "   ")%string) db0
  /\ react_share_scenario (Some 1) 100 (Some 10)
       (Some ("  " ++ "B@example.COM" ++ " ")%string) db0
     = react_share_scenario (Some 1) 100 (Some 10)
         (Some ("" ++ "b@Example.com" ++ "   ")%string) db0.
Proof.
  apply (proj2 recipient_identifier_as_registered (Some 1) 100 (Some 10) db0
           "  " "B@example.COM" " " "" "b@Example.com" "   ");
    reflexivity.
Defined.

(* ================================================================== *)
(** ** Direct writes to the audit table *)
(* ================================================================== *)


Lemma db_eta (d : db) :
  mkdb (auth_users d) (react_scenarios d) (react_scenario_shares d) = d.
Proof. now destruct d. Qed.

(** A direct [DELETE] and a direct [UPDATE] of the audit row of
    [db_shared], by its sender, raise nothing: they report zero rows. *)
Lemma direct_update_delete_raise_nothing :
  react_scenario_shares db_shared <> []
  /\ fst (client_delete (Some 1) (fun _ => Some true) db_shared) = Ok 0
  /\ fst (client_update (Some 1) (fun _ => Some true) (fun r => r) db_shared)
     = Ok 0
  /\ fst (client_delete (Some 1) (fun _ => Some true) db_shared)
     <> Err PermissionDenied.
Proof.
  split; [intros H; vm_compute in H; discriminate H |].
  split; [reflexivity |]. split; [reflexivity |].
  intros H. vm_compute in H. discriminate H.
Qed.

(** C3 (amended). For every session and every state: a direct insert
    into the audit table is rejected with PermissionDenied, whatever the
    row; a direct update or delete, whatever its [WHERE] and [SET],
    touches no row and reports zero rows without raising; in the three
    cases every table is left as it was, so the rows of the audit table
    are written by [react_share_scenario] alone. *)
Theorem direct_writes_change_nothing (uid : option uuid) (d : db) :
  (forall now source_scenario_id shared_by_user_id recipient_user_id
          recipient_email,
      client_insert uid now source_scenario_id shared_by_user_id
        recipient_user_id recipient_email d
      = (Err PermissionDenied, d))
  /\ (forall where_ set, client_update uid where_ set d = (Ok 0, d))
  /\ (forall where_, client_delete uid where_ d = (Ok 0, d)).
Proof.
  split; [| split].
  - intros. reflexivity.
  - intros where_ set. unfold client_update, policy_update_using.
    cbn [Pg.is_true]. 
    replace (existsb _ (react_scenario_shares d)) with false; [reflexivity |].
    symmetry. induction (react_scenario_shares d) as [|r l IH];
      cbn [existsb]; [reflexivity |].
    rewrite IH. now rewrite andb_false_r.
  - intros where_. unfold client_delete, policy_delete_using.
    cbn [Pg.is_true].
    assert (forall l : list Share.row,
              filter (fun r => Pg.is_true (policy_select_using uid r) && false
                               && Pg.is_true (where_ r)) l = []) as H0.
    { induction l as [|r l IH]; cbn [filter]; [reflexivity |].
      now rewrite andb_false_r. }
    assert (forall l : list Share.row,
              filter (fun r => negb (Pg.is_true (policy_select_using uid r)
                                     && false && Pg.is_true (where_ r))) l = l)
      as H1.
    { induction l as [|r l IH]; cbn [filter]; [reflexivity |].
      rewrite andb_false_r. cbn. now rewrite IH. }
    rewrite H0, H1. cbn [List.length]. now rewrite db_eta.
Qed.

(* ================================================================== *)
(** ** More on the search *)
(* ================================================================== *)

Lemma lower_length (s : Pg.text) :
  String.length (Pg.lower s) = String.length s.
Proof. induction s as [|c s IH]; cbn; [reflexivity | now rewrite IH]. Qed.

Lemma trim_blank (s : Pg.text) : Pg.blank s = true -> Pg.trim s = "".
Proof. intros H. unfold Pg.trim. now rewrite ltrim_blank. Qed.

Lemma rtrim_length (s : Pg.text) :
  String.length (Pg.rtrim s) <= String.length s.
Proof.
  induction s as [|c s IH]; [apply Nat.le_refl |].
  cbn [Pg.rtrim]. destruct (Pg.rtrim s) as [|c' r'].
  - destruct (Pg.is_space c); cbn; lia.
  - cbn in *. lia.
Qed.

Lemma ltrim_length (s : Pg.text) :
  String.length (Pg.ltrim s) <= String.length s.
Proof.
  induction s as [|c s IH]; [apply Nat.le_refl |].
  cbn [Pg.ltrim]. destruct (Pg.is_space c); cbn in *; lia.
Qed.

Lemma trim_length (s : Pg.text) :
  String.length (Pg.trim s) <= String.length s.
Proof.
  unfold Pg.trim. pose proof (rtrim_length (Pg.ltrim s)).
  pose proof (ltrim_length s). lia.
Qed.

Lemma search_short (collate : Pg.collation) (caller : uuid)
  (query_text : option Pg.text) (d : db) :
  String.length (Pg.trim (Pg.coalesce query_text "")) < 2 ->
  react_search_users_by_email collate (Some caller) query_text d = (Ok [], d).
Proof.
  intros H. unfold react_search_users_by_email. rewrite lower_length.
  apply Nat.ltb_lt in H. now rewrite H.
Qed.

(** X1. A query that is [NULL], made of spaces only, or a single
    character between spaces is answered with the empty sequence, for
    every authenticated caller and whatever the registered users: the
    users are not scanned below two characters. *)
Theorem search_blank_or_short_query_empty (collate : Pg.collation)
  (caller : uuid) (d : db) :
  react_search_users_by_email collate (Some caller) None d = (Ok [], d)
  /\ (forall s, Pg.blank s = true ->
        react_search_users_by_email collate (Some caller) (Some s) d
        = (Ok [], d))
  /\ (forall pre c post, Pg.blank pre = true -> Pg.blank post = true ->
        react_search_users_by_email collate (Some caller)
          (Some (pre ++ String c "" ++ post)%string) d = (Ok [], d)).
Proof.
  split; [reflexivity |]. split.
  - intros s Hs. apply search_short. cbn [Pg.coalesce].
    rewrite trim_blank by assumption. cbn. lia.
  - intros pre c post Hpre Hpost. apply search_short. cbn [Pg.coalesce].
    rewrite trim_padded by assumption.
    pose proof (trim_length (String c "")) as H. cbn in H. cbn. lia.
Qed.

Lemma search_blank_or_short_query_empty_witness :
  react_search_users_by_email Pg.text_leb (Some 1) (Some "    ") db0
  = (Ok [], db0)
  /\ react_search_users_by_email Pg.text_leb (Some 1)
       (Some ("  " ++ "b" ++ " ")%string) db0
     = (Ok [], db0).
Proof.
  destruct (search_blank_or_short_query_empty Pg.text_leb 1 db0)
    as (_ & Hb & Hs).
  split; [apply Hb; reflexivity | apply Hs; reflexivity].
Defined.

(** X2. Two queries that differ only in surrounding spaces or in letter
    case give the same answer. *)
Theorem search_query_case_and_padding (collate : Pg.collation)
  (auth_uid : option uuid) (d : db)
  (pre1 core1 post1 pre2 core2 post2 : Pg.text) :
  Pg.blank pre1 = true -> Pg.blank post1 = true ->
  Pg.blank pre2 = true -> Pg.blank post2 = true ->
  Pg.lower core1 = Pg.lower core2 ->
  react_search_users_by_email collate auth_uid
    (Some (pre1 ++ core1 ++ post1)%string) d
  = react_search_users_by_email collate auth_uid
      (Some (pre2 ++ core2 ++ post2)%string) d.
Proof.
  intros H1 H2 H3 H4 Hc. unfold react_search_users_by_email.
  destruct auth_uid as [caller|]; [| reflexivity].
  cbn [Pg.coalesce].
  now rewrite (normalised_same pre1 core1 post1 pre2 core2 post2).
Qed.

Lemma search_query_case_and_padding_witness :
  react_search_users_by_email Pg.text_leb (Some 1)
    (Some (" " ++ "B@EX" ++ "  ")%string) db0
  = react_search_users_by_email Pg.text_leb (Some 1)
      (Some ("" ++ "b@ex" ++ "")%string) db0.
Proof.
  apply (search_query_case_and_padding Pg.text_leb (Some 1) db0
           " " "B@EX" "  " "" "b@ex" "");
    reflexivity.
Defined.

Lemma insert_by_email_length (collate : Pg.collation) (r : Found.row)
  (l : list Found.row) :
  List.length (insert_by_email collate r l) = S (List.length l).
Proof.
  induction l as [|h t IH]; cbn [insert_by_email]; [reflexivity |].
  destruct (collate _ _); cbn [List.length]; [reflexivity | now rewrite IH].
Qed.

Lemma order_by_email_length (collate : Pg.collation) (l : list Found.row) :
  List.length (order_by_email collate l) = List.length l.
Proof.
  induction l as [|r t IH]; cbn [order_by_email]; [reflexivity |].
  now rewrite insert_by_email_length, IH.
Qed.

Lemma firstn_short {A : Type} (n : nat) (l : list A) :
  List.length (firstn n l) < n -> firstn n l = l.
Proof.
  intros H. rewrite length_firstn in H. apply firstn_all2. lia.
Qed.

(** X3. When the normalised query holds none of [%], [_] and the
    backslash, the search is the prefix search: every returned
    identifier, lowercased, starts with the normalised query; and when
    fewer than 10 entries come back, every registered identity other than
    the caller whose lowercased email starts with the normalised query
    (of two characters or more) is among them. *)
Theorem search_literal_query_is_prefix_search (collate : Pg.collation)
  (caller : uuid) (query_text : option Pg.text) (d : db)
  (rows : list Found.row) :
  Pg.like_literal (Pg.lower (Pg.trim (Pg.coalesce query_text ""))) = true ->
  fst (react_search_users_by_email collate (Some caller) query_text d)
  = Ok rows ->
  (forall r, In r rows ->
     String.prefix (Pg.lower (Pg.trim (Pg.coalesce query_text "")))
       (Pg.lower (Found.email r)) = true)
  /\ (List.length rows < 10 ->
      forall u e,
        In u (auth_users d) -> User.email u = Some e -> User.id u <> caller ->
        2 <= String.length (Pg.lower (Pg.trim (Pg.coalesce query_text ""))) ->
        String.prefix (Pg.lower (Pg.trim (Pg.coalesce query_text "")))
          (Pg.lower e) = true ->
        In (Found.mk (User.id u) e) rows).
Proof.
  set (q := Pg.lower (Pg.trim (Pg.coalesce query_text ""))).
  intros Hlit Hrows. unfold react_search_users_by_email in Hrows.
  fold q in Hrows.
  destruct (Nat.ltb (String.length q) 2) eqn:Hlen.
  - cbn in Hrows. injection Hrows as <-. split; [intros r [] |].
    intros _ u e _ _ _ H2 _. apply Nat.ltb_lt in Hlen. lia.
  - cbn [fst] in Hrows.
    assert (rows = firstn 10 (order_by_email collate
                                (flat_map (search_row caller q) (auth_users d))))
      as -> by congruence.
    clear Hrows. split.
    + intros r Hr. apply In_firstn in Hr.
      apply (proj1 (order_by_email_In _ _ _)) in Hr.
      apply in_flat_map in Hr. destruct Hr as (u & _ & Hr).
      apply search_row_In in Hr. destruct Hr as (_ & _ & _ & Hl).
      now rewrite like_literal_prefix in Hl.
    + intros Hshort u e Hu He Hne _ Hp.
      rewrite (firstn_short _ _ Hshort).
      apply order_by_email_In. apply in_flat_map. exists u.
      split; [exact Hu |]. unfold search_row. rewrite He.
      rewrite like_literal_prefix by assumption. rewrite Hp.
      apply Nat.eqb_neq in Hne. rewrite Hne. now left.
Qed.

Lemma search_literal_query_is_prefix_search_witness :
  (forall r, In r [Found.mk 2 "B@Example.com"] ->
     String.prefix (Pg.lower (Pg.trim (Pg.coalesce (Some " B@") "")))
       (Pg.lower (Found.email r)) = true)
  /\ (List.length [Found.mk 2 "B@Example.com"] < 10 ->
      forall u e,
        In u (auth_users db0) -> User.email u = Some e -> User.id u <> 1 ->
        2 <= String.length (Pg.lower (Pg.trim (Pg.coalesce (Some " B@") ""))) ->
        String.prefix (Pg.lower (Pg.trim (Pg.coalesce (Some " B@") "")))
          (Pg.lower e) = true ->
        In (Found.mk (User.id u) e) [Found.mk 2 "B@Example.com"]).
Proof.
  apply (search_literal_query_is_prefix_search Pg.text_leb 1 (Some " B@") db0
           [Found.mk 2 "B@Example.com"]); reflexivity.
Defined.

Lemma text_compare_trans_le (a b c : Pg.text) :
  String.compare a b <> Gt -> String.compare b c <> Gt ->
  String.compare a c <> Gt.
Proof.
  revert b c. induction a as [|x a IH]; intros b c Hab Hbc.
  - destruct c; cbn; discriminate.
  - destruct b as [|y b]; [cbn in Hab; congruence |].
    destruct c as [|z c]; [cbn in Hbc; congruence |].
    cbn [String.compare] in *. unfold Ascii.compare in *.
    destruct (N.compare_spec (N_of_ascii x) (N_of_ascii y)) as [Exy|Lxy|Gxy];
      try congruence;
      destruct (N.compare_spec (N_of_ascii y) (N_of_ascii z)) as [Eyz|Lyz|Gyz];
      try congruence.
    + rewrite Exy, Eyz, N.compare_refl. now apply (IH b c).
    + rewrite Exy. now rewrite (proj2 (N.compare_lt_iff _ _) Lyz).
    + rewrite <- Eyz. now rewrite (proj2 (N.compare_lt_iff _ _) Lxy).
    + assert (N_of_ascii x < N_of_ascii z)%N as H by lia.
      now rewrite (proj2 (N.compare_lt_iff _ _) H).
Qed.

Lemma text_leb_not_gt (a b : Pg.text) :
  Pg.text_leb a b = true <-> String.compare a b <> Gt.
Proof.
  unfold Pg.text_leb, String.leb.
  destruct (String.compare a b); split; intros H;
    first [reflexivity | discriminate | congruence].
Qed.

Lemma text_leb_total : Pg.collation_total Pg.text_leb.
Proof.
  intros a b. apply String.leb_total.
Qed.

Lemma text_leb_transitive : Pg.collation_transitive Pg.text_leb.
Proof.
  intros a b x. rewrite !text_leb_not_gt. apply text_compare_trans_le.
Qed.

Lemma email_le_trans (collate : Pg.collation) (x y z : Found.row) :
  Pg.collation_transitive collate ->
  email_le collate x y -> email_le collate y z -> email_le collate x z.
Proof.
  intros Htrans. unfold email_le. apply Htrans.
Qed.

Lemma strongly_sorted_app {A : Type} (R : A -> A -> Prop) (l1 l2 : list A) :
  StronglySorted R (l1 ++ l2) ->
  forall x y, In x l1 -> In y l2 -> R x y.
Proof.
  induction l1 as [|a l1 IH]; intros H x y Hx Hy; [contradiction |].
  cbn [app] in H. apply StronglySorted_inv in H. destruct H as [Hs Hall].
  destruct Hx as [<-|Hx].
  - rewrite Forall_forall in Hall. apply Hall. apply in_or_app. now right.
  - now apply IH.
Qed.

(** X4. The cut at 10 keeps the first identifiers of the order the
    database's collation gives: a registered identity that matches the
    pattern of the query and is not the caller, but is left out of the
    answer, has an email that every returned email comes before, or at the
    same place as, in that collation. *)
Theorem search_limit_keeps_first (collate : Pg.collation) (caller : uuid)
  (query_text : option Pg.text) (d : db) (rows : list Found.row)
  (u : User.row) (e : Pg.text) :
  Pg.collation_total collate ->
  Pg.collation_transitive collate ->
  fst (react_search_users_by_email collate (Some caller) query_text d)
  = Ok rows ->
  2 <= String.length (Pg.lower (Pg.trim (Pg.coalesce query_text ""))) ->
  In u (auth_users d) ->
  User.email u = Some e ->
  User.id u <> caller ->
  Pg.like (Pg.lower (Pg.trim (Pg.coalesce query_text "")) ++ "%")%string
    (Pg.lower e) = true ->
  ~ In (Found.mk (User.id u) e) rows ->
  List.length rows = 10
  /\ forall r, In r rows -> collate (Found.email r) e = true.
Proof.
  set (q := Pg.lower (Pg.trim (Pg.coalesce query_text ""))).
  intros Htotal Htrans Hrows Hlen Hu He Hne Hlike Hout.
  unfold react_search_users_by_email in Hrows. fold q in Hrows.
  apply Nat.ltb_ge in Hlen. rewrite Hlen in Hrows. cbn [fst] in Hrows.
  set (L := order_by_email collate
              (flat_map (search_row caller q) (auth_users d))) in *.
  assert (rows = firstn 10 L) as -> by congruence. clear Hrows.
  assert (In (Found.mk (User.id u) e) L) as HinL.
  { apply order_by_email_In. apply in_flat_map. exists u.
    split; [exact Hu |]. unfold search_row. rewrite He, Hlike.
    apply Nat.eqb_neq in Hne. rewrite Hne. now left. }
  assert (In (Found.mk (User.id u) e) (skipn 10 L)) as Hskip.
  { rewrite <- (firstn_skipn 10 L) in HinL. apply in_app_or in HinL.
    destruct HinL; [contradiction | assumption]. }
  split.
  - destruct (Nat.lt_ge_cases (List.length (firstn 10 L)) 10) as [Hlt|Hge].
    + exfalso. apply Hout. rewrite (firstn_short _ _ Hlt). exact HinL.
    + pose proof (firstn_le_length 10 L). lia.
  - intros r Hr.
    assert (StronglySorted (email_le collate) L) as Hs.
    { apply Sorted_StronglySorted.
      - intros x y z. now apply email_le_trans.
      - now apply order_by_email_sorted. }
    rewrite <- (firstn_skipn 10 L) in Hs.
    exact (strongly_sorted_app (email_le collate) _ _ Hs r _ Hr Hskip).
Qed.

Lemma search_limit_keeps_first_witness :
  List.length
    [Found.mk 101 "qa01@x.io"; Found.mk 102 "qa02@x.io";
     Found.mk 103 "qa03@x.io"; Found.mk 104 "qa04@x.io";
     Found.mk 105 "qa05@x.io"; Found.mk 106 "qa06@x.io";
     Found.mk 107 "qa07@x.io"; Found.mk 108 "qa08@x.io";
     Found.mk 109 "qa09@x.io"; Found.mk 110 "qa10@x.io"] = 10
  /\ forall r,
       In r [Found.mk 101 "qa01@x.io"; Found.mk 102 "qa02@x.io";
             Found.mk 103 "qa03@x.io"; Found.mk 104 "qa04@x.io";
             Found.mk 105 "qa05@x.io"; Found.mk 106 "qa06@x.io";
             Found.mk 107 "qa07@x.io"; Found.mk 108 "qa08@x.io";
             Found.mk 109 "qa09@x.io"; Found.mk 110 "qa10@x.io"] ->
       Pg.text_leb (Found.email r) "qa12@x.io" = true.
Proof.
  apply (search_limit_keeps_first Pg.text_leb 1 (Some "QA") db_crowd _
           (User.mk 112 (Some "qa12@x.io")) "qa12@x.io").
  - exact text_leb_total.
  - exact text_leb_transitive.
  - reflexivity.
  - cbn. lia.
  - cbn. auto.
  - reflexivity.
  - cbn. lia.
  - reflexivity.
  - intros H. cbn in H.
    repeat (destruct H as [H|H]; [discriminate H |]). exact H.
Defined.

(* ================================================================== *)
(** ** More on the share *)
(* ================================================================== *)

Lemma find_source_owns (sid : option uuid) (sender : uuid) (d : db) :
  owns sender sid d <-> find_source sid sender d <> None.
Proof.
  split.
  - intros (s & Hin & Hs & Hu) Hnone. unfold find_source in Hnone.
    apply (find_none _ _ Hnone) in Hin.
    assert (Pg.is_true (source_where sid sender s) = true) as Ht
        by (apply source_where_true; auto).
    congruence.
  - intros H. destruct (find_source sid sender d) as [s|] eqn:Hf;
      [| contradiction].
    destruct (find_source_some _ _ _ _ Hf) as (Hin & Hs & Hu).
    exists s. auto.
Qed.

(** X5. Sharing to oneself is refused: for every scenario owned by the
    caller and every input that resolves to the caller, the call raises
    SelfShareForbidden and changes nothing, whether or not the scenario
    was shared before. *)
Theorem share_to_self_forbidden (A S : uuid) (now : timestamptz)
  (input : option Pg.text) (d : db) (src : Scenario.row) (rcp : User.row) :
  In src (react_scenarios d) ->
  Scenario.id src = S ->
  Scenario.user_id src = A ->
  resolve_recipient input d = Some rcp ->
  User.id rcp = A ->
  react_share_scenario (Some A) now (Some S) input d
  = (Err SelfShareForbidden, d).
Proof.
  intros Hin Hid Hown Hres HA.
  destruct (find_source_exists S A d src Hin Hid Hown) as (src' & Hsrc & _).
  rewrite call_body. now apply (body_self A now (Some S) input d src' rcp).
Qed.

Lemma share_to_self_forbidden_witness :
  react_share_scenario (Some 1) 100 (Some 10) (Some " A@Example.COM") db0
  = (Err SelfShareForbidden, db0).
Proof.
  apply (share_to_self_forbidden 1 10 100 (Some " A@Example.COM") db0
           base_case user_a).
  - cbn. auto.
  - reflexivity.
  - reflexivity.
  - reflexivity.
  - reflexivity.
Defined.

(** X6. Each failure of the share is reported exactly when the checks
    before it pass and its own check fails: AuthenticationRequired when
    there is no session; NotFoundOrNotOwned when the caller owns no
    scenario of the id; RecipientNotFound when, the scenario being owned,
    the input resolves to nobody; SelfShareForbidden when it resolves to
    the caller; DuplicateShare when it resolves to someone else for whom
    an audit row of the triple exists. *)
Theorem share_failure_modes (auth_uid : option uuid) (now : timestamptz)
  (sid : option uuid) (input : option Pg.text) (d : db) :
  (fst (react_share_scenario auth_uid now sid input d)
   = Err AuthenticationRequired
   <-> auth_uid = None)
  /\ (fst (react_share_scenario auth_uid now sid input d)
      = Err NotFoundOrNotOwned
      <-> exists sender, auth_uid = Some sender /\ ~ owns sender sid d)
  /\ (fst (react_share_scenario auth_uid now sid input d)
      = Err RecipientNotFound
      <-> exists sender,
            auth_uid = Some sender /\ owns sender sid d
            /\ resolve_recipient input d = None)
  /\ (fst (react_share_scenario auth_uid now sid input d)
      = Err SelfShareForbidden
      <-> exists sender rcp,
            auth_uid = Some sender /\ owns sender sid d
            /\ resolve_recipient input d = Some rcp
            /\ User.id rcp = sender)
  /\ (fst (react_share_scenario auth_uid now sid input d)
      = Err DuplicateShare
      <-> exists sender src rcp,
            auth_uid = Some sender
            /\ find_source sid sender d = Some src
            /\ resolve_recipient input d = Some rcp
            /\ User.id rcp <> sender
            /\ shares_of (Scenario.id src, sender, User.id rcp) d <> []).
Proof.
  rewrite call_body.
  unfold AuthenticationRequired, NotFoundOrNotOwned, RecipientNotFound,
    SelfShareForbidden, DuplicateShare.
  pose proof (find_source_owns sid) as Hown.
  pose proof (has_share_key_shares_of) as Hkey.
  destruct auth_uid as [sender|].
  2:{ rewrite body_unauthenticated. cbn [fst].
      unfold AuthenticationRequired.
      repeat split; intros H; try reflexivity; try discriminate H;
        repeat match goal with
               | H : exists _, _ |- _ => destruct H
               | H : _ /\ _ |- _ => destruct H
               end; discriminate. }
  specialize (Hown sender d).
  destruct (find_source sid sender d) as [src|] eqn:Hs.
  2:{ rewrite body_no_source by assumption. cbn [fst].
      unfold NotFoundOrNotOwned.
      assert (~ owns sender sid d) as Hno by tauto.
      repeat split; intros H; try reflexivity; try discriminate H;
        try (exists sender; split; [reflexivity | assumption]);
        repeat match goal with
               | H : exists _, _ |- _ => destruct H
               | H : _ /\ _ |- _ => destruct H
               | E : Some _ = Some _ |- _ => injection E as E; subst
               end; try contradiction; try congruence. }
  assert (owns sender sid d) as Hyes by (apply Hown; discriminate).
  destruct (resolve_recipient input d) as [rcp|] eqn:Hr.
  2:{ rewrite (body_no_recipient _ _ _ _ _ src) by assumption. cbn [fst].
      unfold RecipientNotFound.
      repeat split; intros H; try reflexivity; try discriminate H;
        try (exists sender; repeat split; assumption);
        repeat match goal with
               | H : exists _, _ |- _ => destruct H
               | H : _ /\ _ |- _ => destruct H
               | E : Some _ = Some _ |- _ => injection E as E; subst
               end; try contradiction; try congruence. }
  destruct (Nat.eq_dec (User.id rcp) sender) as [He|Hne].
  { rewrite (body_self _ _ _ _ _ src rcp) by assumption. cbn [fst].
    unfold SelfShareForbidden.
    repeat split; intros H; try reflexivity; try discriminate H;
      try (exists sender, rcp; repeat split; assumption);
      repeat match goal with
             | H : exists _, _ |- _ => destruct H
             | H : _ /\ _ |- _ => destruct H
             | E : Some _ = Some _ |- _ => injection E as E; subst
             end; try contradiction; try congruence. }
  specialize (Hkey (Scenario.id src, sender, User.id rcp) d).
  destruct (has_share_key (Scenario.id src, sender, User.id rcp) d) eqn:Hk.
  { rewrite (body_duplicate _ _ _ _ _ src rcp) by assumption. cbn [fst].
    unfold DuplicateShare.
    assert (shares_of (Scenario.id src, sender, User.id rcp) d <> []) as Hsh
        by (intros E; apply Hkey in E; discriminate E).
    repeat split; intros H; try reflexivity; try discriminate H;
      try (exists sender, src, rcp; repeat split; assumption);
      repeat match goal with
             | H : exists _, _ |- _ => destruct H
             | H : _ /\ _ |- _ => destruct H
             | E : Some _ = Some _ |- _ => injection E as E; subst
             end; try contradiction; try congruence. }
  assert (shares_of (Scenario.id src, sender, User.id rcp) d = []) as Hsh
      by (now apply Hkey).
  assert (exists r,
            fst (react_share_scenario_body (Some sender) now sid input d) = r
            /\ (r = Err (foreign_key_violation "shared_by_user_id")
                \/ exists row, r = Ok row)) as (r & -> & Hshape).
  { destruct (has_user sender d) eqn:Hu.
    - rewrite (body_ok _ _ _ _ _ src rcp) by assumption. cbn [fst].
      eexists. split; [reflexivity |]. right. eexists. reflexivity.
    - rewrite (body_sender_unregistered _ _ _ _ _ src rcp) by assumption.
      eexists. split; [reflexivity |]. now left. }
  repeat split; intros H;
    try (destruct Hshape as [-> | (row & ->)]; discriminate H);
    repeat match goal with
           | H : exists _, _ |- _ => destruct H
           | H : _ /\ _ |- _ => destruct H
           | E : Some _ = Some _ |- _ => injection E as E; subst
           end; try contradiction; try congruence.
Qed.

Lemma share_failure_modes_witness :
  fst (react_share_scenario None 100 (Some 10) (Some "b@example.com") db0)
  = Err AuthenticationRequired.
Proof.
  apply (proj2 (proj1 (share_failure_modes None 100 (Some 10)
                         (Some "b@example.com") db0))).
  reflexivity.
Defined.

Lemma find_all_false {A : Type} (f : A -> bool) (l : list A) :
  (forall a, f a = false) -> find f l = None.
Proof.
  intros H. induction l as [|a l IH]; cbn; [reflexivity |].
  now rewrite H.
Qed.

(** X7. [NULL] never matches: a call with a [NULL] scenario id raises
    NotFoundOrNotOwned, a call with a [NULL] recipient input on an owned
    scenario raises RecipientNotFound, both without a change of state;
    and an identity whose email is [NULL] is never the resolved
    recipient, whatever the input. *)
Theorem share_null_never_matches :
  (forall sender now input d,
      react_share_scenario (Some sender) now None input d
      = (Err NotFoundOrNotOwned, d))
  /\ (forall sender now sid d,
        owns sender sid d ->
        react_share_scenario (Some sender) now sid None d
        = (Err RecipientNotFound, d))
  /\ (forall input d rcp,
        resolve_recipient input d = Some rcp -> User.email rcp <> None).
Proof.
  split; [| split].
  - intros sender now input d. rewrite call_body. apply body_no_source.
    apply find_source_none. intros s _ H. discriminate H.
  - intros sender now sid d Ho. apply find_source_owns in Ho.
    destruct (find_source sid sender d) as [src|] eqn:Hs; [| contradiction].
    rewrite call_body. apply (body_no_recipient _ _ _ _ _ src Hs).
    unfold resolve_recipient. apply find_all_false. intros u.
    unfold recipient_where, Pg.sql_eq. cbn [option_map].
    now destruct (option_map Pg.lower (User.email u)).
  - intros input d rcp H.
    destruct (resolve_recipient_some _ _ _ H) as (_ & e & i & He & _).
    congruence.
Qed.

Lemma share_null_never_matches_witness :
  react_share_scenario (Some 1) 100 (Some 10) None db0
  = (Err RecipientNotFound, db0).
Proof.
  apply (proj1 (proj2 share_null_never_matches)).
  exists base_case. cbn. auto.
Defined.

Lemma resolve_recipient_users (input : option Pg.text) (d d' : db) :
  auth_users d' = auth_users d ->
  resolve_recipient input d' = resolve_recipient input d.
Proof. intros H. unfold resolve_recipient. now rewrite H. Qed.

Lemma has_user_users (i : uuid) (d d' : db) :
  auth_users d' = auth_users d -> has_user i d' = has_user i d.
Proof. intros H. unfold has_user. now rewrite H. Qed.

(** X8. One scenario can be shared with several recipients: after a
    share of S by its owner A with B, a share of S with a different
    identity C (neither A nor B, no audit row yet) succeeds as well; the
    two copies have different ids and the audit table has grown by the
    two rows of (S, A, B) and (S, A, C). *)
Theorem share_with_second_recipient (A S : uuid) (now1 now2 : timestamptz)
  (input1 input2 : option Pg.text) (d : db) (src : Scenario.row)
  (rcp1 rcp2 : User.row) :
  In src (react_scenarios d) ->
  Scenario.id src = S ->
  Scenario.user_id src = A ->
  has_user A d = true ->
  resolve_recipient input1 d = Some rcp1 ->
  resolve_recipient input2 d = Some rcp2 ->
  User.id rcp1 <> A ->
  User.id rcp2 <> A ->
  User.id rcp1 <> User.id rcp2 ->
  shares_of (S, A, User.id rcp1) d = [] ->
  shares_of (S, A, User.id rcp2) d = [] ->
  exists row1 d1 row2 d2 a1 a2,
    react_share_scenario (Some A) now1 (Some S) input1 d = (Ok row1, d1)
    /\ react_share_scenario (Some A) now2 (Some S) input2 d1 = (Ok row2, d2)
    /\ Shared.shared_scenario_id row1 <> Shared.shared_scenario_id row2
    /\ Shared.recipient_user_id row1 = User.id rcp1
    /\ Shared.recipient_user_id row2 = User.id rcp2
    /\ react_scenario_shares d2 = react_scenario_shares d ++ [a1; a2]
    /\ share_key a1 = (S, A, User.id rcp1)
    /\ share_key a2 = (S, A, User.id rcp2).
Proof.
  intros Hin Hid Hown Hreg Hr1 Hr2 Hn1 Hn2 Hne Hs1 Hs2.
  destruct (find_source_exists S A d src Hin Hid Hown) as (src' & Hsrc & Hid').
  assert (has_share_key (Scenario.id src', A, User.id rcp1) d = false) as Hk1
      by (apply has_share_key_shares_of; now rewrite Hid').
  pose proof (body_ok A now1 (Some S) input1 d src' rcp1 Hsrc Hr1 Hn1 Hk1 Hreg)
    as Hrun1.
  rewrite <- call_body in Hrun1.
  match type of Hrun1 with _ = (_, ?x) => set (d1 := x) in * end.
  assert (find_source (Some S) A d1 = Some src') as Hsrc1
      by (unfold find_source, d1; cbn [react_scenarios];
          now apply find_app_some).
  assert (resolve_recipient input2 d1 = Some rcp2) as Hr2'
      by (rewrite (resolve_recipient_users input2 d d1); auto).
  assert (has_user A d1 = true) as Hreg1
      by (rewrite (has_user_users A d d1); auto).
  assert (has_share_key (Scenario.id src', A, User.id rcp2) d1 = false) as Hk2.
  { apply has_share_key_shares_of. unfold shares_of, d1.
    cbn [react_scenario_shares]. rewrite filter_app.
    rewrite Hid'. unfold shares_of in Hs2. rewrite Hs2.
    cbn [filter app]. unfold share_key.
    cbn [Share.source_scenario_id Share.shared_by_user_id
           Share.recipient_user_id].
    destruct (key_eqb (S, A, User.id rcp1) (S, A, User.id rcp2)) eqn:E;
      [| reflexivity].
    apply key_eqb_eq in E. congruence. }
  pose proof (body_ok A now2 (Some S) input2 d1 src' rcp2 Hsrc1 Hr2' Hn2 Hk2
                Hreg1) as Hrun2.
  rewrite <- call_body in Hrun2.
  do 6 eexists. split; [exact Hrun1 |]. split; [exact Hrun2 |].
  cbn [Shared.shared_scenario_id Shared.recipient_user_id
         react_scenario_shares react_scenarios d1].
  split.
  { apply gen_random_uuid_fresh. rewrite map_app. apply in_or_app. right.
    now left. }
  split; [reflexivity |]. split; [reflexivity |].
  split; [rewrite <- app_assoc; reflexivity |].
  unfold share_key. cbn. rewrite Hid'. auto.
Qed.

Lemma share_with_second_recipient_witness :
  exists row1 d1 row2 d2 a1 a2,
    react_share_scenario (Some 1) 100 (Some 10) (Some "b@example.com") db_three
    = (Ok row1, d1)
    /\ react_share_scenario (Some 1) 101 (Some 10) (Some "Carol@Example.com") d1
       = (Ok row2, d2)
    /\ Shared.shared_scenario_id row1 <> Shared.shared_scenario_id row2
    /\ Shared.recipient_user_id row1 = User.id user_b
    /\ Shared.recipient_user_id row2 = User.id user_carol
    /\ react_scenario_shares d2 = react_scenario_shares db_three ++ [a1; a2]
    /\ share_key a1 = (10, 1, User.id user_b)
    /\ share_key a2 = (10, 1, User.id user_carol).
Proof.
  apply (share_with_second_recipient 1 10 100 101 (Some "b@example.com")
           (Some "Carol@Example.com") db_three base_case user_b user_carol);
    try reflexivity; try (cbn; lia).
  cbn. auto.
Defined.

(** X9. The recipient owns the copy and can share it on: after A has
    shared S with B, B's share of the copy with any identity other than
    B (A included) succeeds, provided the audit rows of the starting
    state refer to existing scenarios; the second copy is owned by the new recipient, names the
    first copy as its source and B as its sender, and carries the name,
    description, override payload and base currency of the original. *)
Theorem recipient_can_share_copy_on (auth_uid : option uuid)
  (now1 now2 : timestamptz) (sid : option uuid) (input1 input2 : option Pg.text)
  (d d1 : db) (row1 : Shared.row) (rcp2 : User.row) :
  react_share_scenario auth_uid now1 sid input1 d = (Ok row1, d1) ->
  shares_reference_scenarios d ->
  resolve_recipient input2 d = Some rcp2 ->
  User.id rcp2 <> Shared.recipient_user_id row1 ->
  exists row2 d2 src copy2,
    react_share_scenario (Some (Shared.recipient_user_id row1)) now2
      (Some (Shared.shared_scenario_id row1)) input2 d1 = (Ok row2, d2)
    /\ In src (react_scenarios d)
    /\ sid = Some (Scenario.id src)
    /\ scenario_by_id (Shared.shared_scenario_id row2) d2 = Some copy2
    /\ Scenario.user_id copy2 = User.id rcp2
    /\ Scenario.is_shared_copy copy2 = true
    /\ Scenario.shared_from_scenario_id copy2
       = Some (Shared.shared_scenario_id row1)
    /\ Scenario.shared_by_user_id copy2 = Some (Shared.recipient_user_id row1)
    /\ Scenario.name copy2 = Scenario.name src
    /\ Scenario.description copy2 = Scenario.description src
    /\ Scenario.overrides copy2 = Scenario.overrides src
    /\ Scenario.base_currency copy2 = Scenario.base_currency src.
Proof.
  intros Hcall Hfk Hr2 Hne.
  pose proof (share_scenario_run auth_uid now1 sid input1 d) as H.
  rewrite Hcall in H. cbn [fst snd] in H. inversion H; subst. clear H.
  cbn [Shared.recipient_user_id Shared.shared_scenario_id] in *.
  match goal with Hs : find_source _ _ _ = Some _ |- _ =>
    destruct (find_source_some _ _ _ _ Hs) as (Hin & Hsid & Hown) end.
  match goal with Hr : resolve_recipient input1 _ = Some _ |- _ =>
    destruct (resolve_recipient_some _ _ _ Hr) as (Hrin & _) end.
  set (g := gen_random_uuid (map Scenario.id (react_scenarios d))) in *.
  set (copy1 := Scenario.mk g (User.id rcp) (Scenario.name src)
                  (Scenario.description src) (Scenario.overrides src)
                  (Scenario.base_currency src) true (Some (Scenario.id src))
                  (Some sender) (email_of sender d)) in *.
  match goal with |- context [react_share_scenario _ _ _ _ ?x] =>
    set (d1 := x) in * end.
  assert (forall s, In s (react_scenarios d) -> Nat.eqb (Scenario.id s) g = false)
    as Hfresh.
  { intros s Hs. apply Nat.eqb_neq. apply gen_random_uuid_fresh.
    now apply in_map. }
  assert (find_source (Some g) (User.id rcp) d1 = Some copy1) as Hsrc1.
  { unfold find_source, d1. cbn [react_scenarios]. apply find_app_last.
    - intros s Hs. unfold source_where, Pg.sql_eq, Pg.sql_and, Pg.is_true.
      rewrite (Hfresh s Hs).
      now destruct (Nat.eqb (Scenario.user_id s) (User.id rcp)).
    - apply source_where_true. split; reflexivity. }
  assert (resolve_recipient input2 d1 = Some rcp2) as Hr2'
      by (rewrite (resolve_recipient_users input2 d d1); auto).
  assert (has_user (User.id rcp) d1 = true) as Hreg
      by (rewrite (has_user_users _ d d1); [now apply has_user_In | reflexivity]).
  assert (has_share_key (g, User.id rcp, User.id rcp2) d1 = false) as Hk.
  { unfold has_share_key, d1. cbn [react_scenario_shares].
    rewrite existsb_app. apply orb_false_iff. split.
    - apply not_true_is_false. intros Hex. apply existsb_exists in Hex.
      destruct Hex as (a & Ha & Hkey). apply key_eqb_eq in Hkey.
      unfold share_key in Hkey. injection Hkey as Hs' _ _.
      specialize (Hfk a Ha). rewrite Hs' in Hfk.
      unfold has_scenario in Hfk. apply existsb_exists in Hfk.
      destruct Hfk as (s & Hs & He). rewrite (Hfresh s Hs) in He.
      discriminate He.
    - cbn [existsb]. rewrite orb_false_r. unfold share_key, key_eqb.
      cbn [Share.source_scenario_id Share.shared_by_user_id
             Share.recipient_user_id].
      rewrite (Hfresh src Hin). reflexivity. }
  pose proof (body_ok (User.id rcp) now2 (Some g) input2 d1 copy1 rcp2 Hsrc1
                Hr2' Hne Hk Hreg) as Hrun2.
  rewrite <- call_body in Hrun2.
  eexists; eexists; exists src; eexists.
  split; [exact Hrun2 |]. split; [exact Hin |]. split; [exact Hsid |].
  cbn [Shared.shared_scenario_id].
  split; [apply (scenario_by_id_fresh _ _ _ (Scenario.mk _ _ _ _ _ _ _ _ _ _));
          reflexivity |].
  cbn. repeat split.
Qed.

Lemma recipient_can_share_copy_on_witness :
  exists row2 d2 src copy2,
    react_share_scenario (Some 2) 101 (Some 12) (Some "a@example.com") db_shared
    = (Ok row2, d2)
    /\ In src (react_scenarios db0)
    /\ Some 10 = Some (Scenario.id src)
    /\ scenario_by_id (Shared.shared_scenario_id row2) d2 = Some copy2
    /\ Scenario.user_id copy2 = User.id user_a
    /\ Scenario.is_shared_copy copy2 = true
    /\ Scenario.shared_from_scenario_id copy2 = Some 12
    /\ Scenario.shared_by_user_id copy2 = Some 2
    /\ Scenario.name copy2 = Scenario.name src
    /\ Scenario.description copy2 = Scenario.description src
    /\ Scenario.overrides copy2 = Scenario.overrides src
    /\ Scenario.base_currency copy2 = Scenario.base_currency src.
Proof.
  apply (recipient_can_share_copy_on (Some 1) 100 101 (Some 10)
           (Some "b@example.com") (Some "a@example.com") db0 db_shared
           (Shared.mk 12 "Base Case 2025" 2 (Some "B@Example.com")) user_a).
  - reflexivity.
  - intros a [].
  - reflexivity.
  - cbn. lia.
Defined.

(** X10. The copy is out of the sender's hands: after a successful
    share, a call on the copy's id by anyone but the recipient, the sender
    included, raises NotFoundOrNotOwned and changes nothing. *)
Theorem only_recipient_can_share_copy (auth_uid : option uuid)
  (now : timestamptz) (sid : option uuid) (input : option Pg.text)
  (d d1 : db) (row : Shared.row) (other : uuid) (now' : timestamptz)
  (input' : option Pg.text) :
  react_share_scenario auth_uid now sid input d = (Ok row, d1) ->
  other <> Shared.recipient_user_id row ->
  react_share_scenario (Some other) now'
    (Some (Shared.shared_scenario_id row)) input' d1
  = (Err NotFoundOrNotOwned, d1).
Proof.
  intros Hcall Hne.
  pose proof (share_scenario_run auth_uid now sid input d) as H.
  rewrite Hcall in H. cbn [fst snd] in H. inversion H; subst. clear H.
  cbn [Shared.recipient_user_id Shared.shared_scenario_id] in *.
  rewrite call_body. apply body_no_source. apply find_source_none.
  cbn [react_scenarios]. intros s Hs Hid. injection Hid as Hid.
  apply in_app_or in Hs. destruct Hs as [Hs | [<- | []]].
  - exfalso. symmetry in Hid. revert Hid. apply gen_random_uuid_fresh.
    now apply in_map.
  - cbn. congruence.
Qed.

Lemma only_recipient_can_share_copy_witness :
  react_share_scenario (Some 1) 101 (Some 12) (Some "b@example.com") db_shared
  = (Err NotFoundOrNotOwned, db_shared).
Proof.
  apply (only_recipient_can_share_copy (Some 1) 100 (Some 10)
           (Some "b@example.com") db0 db_shared
           (Shared.mk 12 "Base Case 2025" 2 (Some "B@Example.com")) 1 101
           (Some "b@example.com")).
  - reflexivity.
  - cbn. lia.
Defined.

(* ================================================================== *)
(** ** Reading the audit table *)
(* ================================================================== *)

Lemma policy_select_using_true (uid : option uuid) (r : Share.row) :
  Pg.is_true (policy_select_using uid r) = true <->
  uid = Some (Share.shared_by_user_id r)
  \/ uid = Some (Share.recipient_user_id r).
Proof.
  unfold policy_select_using, Pg.sql_or, Pg.sql_eq, Pg.is_true.
  destruct uid as [u|].
  - destruct (Nat.eqb_spec u (Share.shared_by_user_id r)) as [E1|N1];
      destruct (Nat.eqb_spec u (Share.recipient_user_id r)) as [E2|N2];
      split; intros H; try reflexivity; try discriminate H;
      try (left; congruence); try (right; congruence).
    destruct H as [H|H]; congruence.
  - split; [discriminate | intros [H|H]; discriminate H].
Qed.

(** X11. A session reads from the audit table exactly the rows it sent
    or received: a row is returned if and only if it is in the table and
    the session's user is its sender or its recipient; a session without
    a user reads nothing; the read changes nothing. *)
Theorem audit_rows_visible_to_sender_and_recipient (uid : option uuid)
  (d : db) :
  client_select uid d = (Ok (visible_shares uid d), d)
  /\ (forall r, In r (visible_shares uid d) <->
                In r (react_scenario_shares d)
                /\ (uid = Some (Share.shared_by_user_id r)
                    \/ uid = Some (Share.recipient_user_id r)))
  /\ (uid = None -> visible_shares uid d = []).
Proof.
  unfold visible_shares, client_select. cbn [fst].
  split; [reflexivity |]. split.
  - intros r. rewrite filter_In, policy_select_using_true. tauto.
  - intros ->. induction (react_scenario_shares d) as [|r l IH];
      [reflexivity | exact IH].
Qed.

Lemma audit_rows_visible_to_sender_and_recipient_witness :
  visible_shares None db_shared = [].
Proof.
  apply (proj2 (proj2 (audit_rows_visible_to_sender_and_recipient None
                         db_shared))).
  reflexivity.
Defined.

(** X12. After a successful share the new audit row can be read by the
    sender and by the recipient and by no other session: the row added
    to the table is in a session's view if and only if the session's user
    is the caller of the share or the returned recipient. *)
Theorem new_audit_row_visibility (auth_uid : option uuid) (now : timestamptz)
  (sid : option uuid) (input : option Pg.text) (d d' : db) (row : Shared.row) :
  react_share_scenario auth_uid now sid input d = (Ok row, d') ->
  exists a,
    react_scenario_shares d' = react_scenario_shares d ++ [a]
    /\ Share.created_at a = now
    /\ forall uid,
         In a (visible_shares uid d') <->
         uid = auth_uid \/ uid = Some (Shared.recipient_user_id row).
Proof.
  intros Hcall.
  pose proof (share_scenario_run auth_uid now sid input d) as H.
  rewrite Hcall in H. cbn [fst snd] in H. inversion H; subst. clear H.
  eexists. split; [reflexivity |]. split; [reflexivity |].
  intros uid. unfold visible_shares, client_select. cbn [fst].
  rewrite filter_In, policy_select_using_true.
  cbn [react_scenario_shares Share.shared_by_user_id Share.recipient_user_id
         Shared.recipient_user_id].
  split.
  - intros [_ Hu]. exact Hu.
  - intros Hu. split; [apply in_or_app; right; now left | exact Hu].
Qed.

Lemma new_audit_row_visibility_witness :
  exists a,
    react_scenario_shares db_shared = react_scenario_shares db0 ++ [a]
    /\ Share.created_at a = 100
    /\ forall uid,
         In a (visible_shares uid db_shared) <->
         uid = Some 1 \/ uid = Some 2.
Proof.
  apply (new_audit_row_visibility (Some 1) 100 (Some 10) (Some "b@example.com")
           db0 db_shared
           (Shared.mk 12 "Base Case 2025" 2 (Some "B@Example.com"))).
  reflexivity.
Defined.

(* ================================================================== *)
(** ** The tables of the quarterly refresh *)
(* ================================================================== *)

Lemma distinct_ids_app_one (l : list Z) (i : Z) :
  Defaults.distinct_ids l = true ->
  existsb (Z.eqb i) l = false ->
  Defaults.distinct_ids (l ++ [i]) = true.
Proof.
  induction l as [|a l IH]; intros Hd Hi; [reflexivity |].
  cbn [Defaults.distinct_ids app existsb] in *.
  apply andb_true_iff in Hd. destruct Hd as [Ha Hl].
  apply orb_false_iff in Hi. destruct Hi as [Hia Hil].
  rewrite existsb_app, IH by assumption. cbn [existsb].
  apply negb_true_iff in Ha. rewrite Ha, Z.eqb_sym, Hia. reflexivity.
Qed.

Lemma distinct_ids_filter (f : Defaults.assumptions_row -> bool)
  (l : list Defaults.assumptions_row) :
  Defaults.distinct_ids (map Defaults.id l) = true ->
  Defaults.distinct_ids (map Defaults.id (filter f l)) = true.
Proof.
  induction l as [|a l IH]; intros Hd; [reflexivity |].
  cbn [map Defaults.distinct_ids filter] in *.
  apply andb_true_iff in Hd. destruct Hd as [Ha Hl].
  destruct (f a); [| now apply IH].
  cbn [map Defaults.distinct_ids]. rewrite IH by assumption.
  rewrite andb_true_r. apply negb_true_iff. apply negb_true_iff in Ha.
  apply not_true_is_false. intros Hex. apply existsb_exists in Hex.
  destruct Hex as (i & Hin & He). apply in_map_iff in Hin.
  destruct Hin as (x & <- & Hx). apply filter_In in Hx.
  assert (existsb (Z.eqb (Defaults.id a)) (map Defaults.id l) = true) as Hc.
  { apply existsb_exists. exists (Defaults.id x).
    split; [apply in_map; tauto | exact He]. }
  congruence.
Qed.

Lemma distinct_ids_all_one (l : list Defaults.assumptions_row) :
  (forall x, In x l -> Defaults.id x = 1%Z) ->
  Defaults.distinct_ids (map Defaults.id l) = true ->
  List.length l <= 1.
Proof.
  intros Hone Hd. destruct l as [|a [|b l]]; cbn; try lia.
  exfalso. cbn in Hd.
  rewrite (Hone a), (Hone b) in Hd by (cbn; auto). cbn in Hd. discriminate Hd.
Qed.

Lemma execute_keeps_constraints (st : Defaults.statement) (s : Defaults.store) :
  Defaults.constraints_hold s ->
  Defaults.constraints_hold (Defaults.execute st s).
Proof.
  intros (Hone & Hd & Hst). unfold Defaults.constraints_hold.
  destruct st; cbn [Defaults.execute].
  - unfold Defaults.insert_default_assumptions.
    destruct (negb (Defaults.permitted _ _ r)); [now repeat split |].
    destruct defaults_json_ as [j|]; [| now repeat split].
    destruct updated_by_ as [b|]; [| now repeat split].
    destruct (Z.eqb_spec (Pg.coalesce id_ 1%Z) 1) as [E|N]; cbn [negb];
      [| now repeat split].
    destruct (existsb _ (Defaults.default_assumptions s)) eqn:Hex;
      [now repeat split |].
    cbn [snd Defaults.default_assumptions Defaults.assumption_refresh_log].
    split; [| split; [| exact Hst]].
    + intros x Hx. apply in_app_or in Hx. destruct Hx as [Hx | [<- | []]];
        [now apply Hone | exact E].
    + rewrite map_app. cbn [map Defaults.id]. apply distinct_ids_app_one;
        [exact Hd |].
      rewrite <- Hex. clear. induction (Defaults.default_assumptions s)
        as [|a l IH]; [reflexivity |].
      cbn [map existsb]. rewrite IH. now rewrite Z.eqb_sym.
  - unfold Defaults.update_default_assumptions.
    destruct (negb (existsb _ _)); [now repeat split |].
    destruct (forallb _ _) eqn:Hall; cbn [negb]; [| now repeat split].
    match goal with
    | |- context [if negb (Defaults.distinct_ids ?l) then _ else _] =>
        destruct (Defaults.distinct_ids l) eqn:Hd'
    end; cbn [negb]; [| now repeat split].
    cbn [snd Defaults.default_assumptions Defaults.assumption_refresh_log].
    split; [| split; [exact Hd' | exact Hst]].
    intros x Hx. apply in_map_iff in Hx. destruct Hx as (y & <- & Hy).
    rewrite forallb_forall in Hall. specialize (Hall y Hy).
    match goal with |- context [if ?b then _ else _] => destruct b end;
      [| now apply Hone].
    cbn in Hall. now apply Z.eqb_eq.
  - cbn [Defaults.delete_default_assumptions snd Defaults.default_assumptions
           Defaults.assumption_refresh_log].
    unfold Defaults.delete_default_assumptions. cbn [snd
      Defaults.default_assumptions Defaults.assumption_refresh_log].
    split; [| split; [now apply distinct_ids_filter | exact Hst]].
    intros x Hx. apply filter_In in Hx. now apply Hone.
  - unfold Defaults.insert_assumption_refresh_log.
    destruct (negb (Defaults.permitted _ _ r)); [now repeat split |].
    destruct initiated_by_ as [b|]; [| now repeat split].
    destruct status_ as [t|]; [| now repeat split].
    destruct (Defaults.status_check t) eqn:Hc; cbn [negb];
      [| now repeat split].
    cbn [snd Defaults.default_assumptions Defaults.assumption_refresh_log].
    split; [exact Hone | split; [exact Hd |]].
    intros x Hx. apply in_app_or in Hx. destruct Hx as [Hx | [<- | []]];
      [now apply Hst | exact Hc].
  - unfold Defaults.update_assumption_refresh_log.
    destruct (negb (existsb _ _)); [now repeat split |].
    destruct (forallb _ _) eqn:Hall; cbn [negb]; [| now repeat split].
    destruct (Defaults.distinct_uuids _); cbn [negb]; [| now repeat split].
    cbn [snd Defaults.default_assumptions Defaults.assumption_refresh_log].
    split; [exact Hone | split; [exact Hd |]].
    intros x Hx. apply in_map_iff in Hx. destruct Hx as (y & <- & Hy).
    rewrite forallb_forall in Hall. specialize (Hall y Hy).
    match goal with |- context [if ?b then _ else _] => destruct b end;
      [| now apply Hst].
    exact Hall.
  - unfold Defaults.delete_assumption_refresh_log.
    cbn [snd Defaults.default_assumptions Defaults.assumption_refresh_log].
    split; [exact Hone | split; [exact Hd |]].
    intros x Hx. apply filter_In in Hx. now apply Hst.
Qed.

Lemma execute_all_keeps_constraints (sts : list Defaults.statement)
  (s : Defaults.store) :
  Defaults.constraints_hold s ->
  Defaults.constraints_hold (Defaults.execute_all sts s).
Proof.
  revert s. induction sts as [|st sts IH]; intros s Hs; [exact Hs |].
  cbn. apply IH. now apply execute_keeps_constraints.
Qed.

(** X13. [default_assumptions] is a singleton: through any history of
    inserts, updates and deletes, by sessions of any role, starting from
    a state where its constraints hold (as right after the migration),
    the table has at most one row and the id of that row is 1: a second
    row would need another id, which the [CHECK] refuses, or the id 1
    again, which the primary key refuses. *)
Theorem default_assumptions_singleton (sts : list Defaults.statement)
  (s : Defaults.store) :
  Defaults.constraints_hold s ->
  List.length (Defaults.default_assumptions (Defaults.execute_all sts s)) <= 1
  /\ forall x,
       In x (Defaults.default_assumptions (Defaults.execute_all sts s)) ->
       Defaults.id x = 1%Z.
Proof.
  intros Hs.
  destruct (execute_all_keeps_constraints sts s Hs) as (Hone & Hd & _).
  split; [now apply distinct_ids_all_one | exact Hone].
Qed.

Lemma empty_constraints_hold : Defaults.constraints_hold Defaults.empty.
Proof. split; [intros x [] | split; [reflexivity | intros x []]]. Qed.

Lemma default_assumptions_singleton_witness :
  List.length (Defaults.default_assumptions refreshed) <= 1
  /\ forall x, In x (Defaults.default_assumptions refreshed) ->
               Defaults.id x = 1%Z.
Proof.
  apply (default_assumptions_singleton refresh_history Defaults.empty).
  split; [intros x [] | split; [reflexivity | intros x []]].
Defined.

Example refreshed_state :
  Defaults.default_assumptions refreshed
  = [Defaults.mkassumptions 1 JNull 5 "admin@example.com"]
  /\ map Defaults.status (Defaults.assumption_refresh_log refreshed)
     = ["pending"; "applied"].
Proof. split; reflexivity. Qed.

Lemma filter_false {A : Type} (f : A -> bool) (l : list A) :
  (forall a, f a = false) -> filter f l = [].
Proof.
  intros H. induction l as [|a l IH]; cbn; [reflexivity |].
  now rewrite H.
Qed.

Lemma filter_true {A : Type} (f : A -> bool) (l : list A) :
  (forall a, f a = true) -> filter f l = l.
Proof.
  intros H. induction l as [|a l IH]; cbn; [reflexivity |].
  now rewrite H, IH.
Qed.

Lemma existsb_false {A : Type} (f : A -> bool) (l : list A) :
  (forall a, f a = false) -> existsb f l = false.
Proof.
  intros H. induction l as [|a l IH]; cbn; [reflexivity |].
  now rewrite H.
Qed.

Lemma store_eta (s : Defaults.store) :
  Defaults.mkstore (Defaults.default_assumptions s)
    (Defaults.assumption_refresh_log s) = s.
Proof. now destruct s. Qed.

(** X14. For the client roles the current defaults are read-only: an
    [anon] or [authenticated] session reads every row; its insert is
    refused by row-level security whatever the row; its update and its
    delete touch no row, whatever the [WHERE] and [SET]; none of the three
    changes the state. *)
Theorem default_assumptions_read_only_for_clients (r : Defaults.role)
  (s : Defaults.store) :
  r <> Defaults.service_role ->
  Defaults.select_default_assumptions r s = Defaults.default_assumptions s
  /\ (forall now id_ json_ at_ by_,
        Defaults.insert_default_assumptions r now id_ json_ at_ by_ s
        = (Defaults.Failed (Defaults.row_security "default_assumptions"), s))
  /\ (forall where_ set,
        Defaults.update_default_assumptions r where_ set s
        = (Defaults.Done 0, s))
  /\ (forall where_,
        Defaults.delete_default_assumptions r where_ s = (Defaults.Done 0, s)).
Proof.
  intros Hr. destruct r; [| | contradiction].
  all: split; [reflexivity |]; split; [reflexivity |]; split.
  all: try (intros where_ set; unfold Defaults.update_default_assumptions;
            cbn; rewrite existsb_false by reflexivity; reflexivity).
  all: intros where_; unfold Defaults.delete_default_assumptions; cbn;
    rewrite filter_false by reflexivity;
    rewrite filter_true by reflexivity; cbn; now rewrite store_eta.
Qed.

Lemma default_assumptions_read_only_for_clients_witness :
  Defaults.select_default_assumptions Defaults.authenticated refreshed
  = Defaults.default_assumptions refreshed
  /\ (forall now id_ json_ at_ by_,
        Defaults.insert_default_assumptions Defaults.authenticated now id_
          json_ at_ by_ refreshed
        = (Defaults.Failed (Defaults.row_security "default_assumptions"),
           refreshed))
  /\ (forall where_ set,
        Defaults.update_default_assumptions Defaults.authenticated where_ set
          refreshed
        = (Defaults.Done 0, refreshed))
  /\ (forall where_,
        Defaults.delete_default_assumptions Defaults.authenticated where_
          refreshed
        = (Defaults.Done 0, refreshed)).
Proof.
  apply (default_assumptions_read_only_for_clients Defaults.authenticated
           refreshed).
  discriminate.
Defined.

(** X15. An anonymous session has no access to the refresh log: it reads
    no row, its insert is refused by row-level security, and its update
    and delete touch no row; the state is unchanged. *)
Theorem refresh_log_closed_to_anon (s : Defaults.store) :
  Defaults.select_assumption_refresh_log Defaults.anon s = []
  /\ (forall now by_ sj aj st,
        Defaults.insert_assumption_refresh_log Defaults.anon now by_ sj aj st s
        = (Defaults.Failed (Defaults.row_security "assumption_refresh_log"),
           s))
  /\ (forall where_ set,
        Defaults.update_assumption_refresh_log Defaults.anon where_ set s
        = (Defaults.Done 0, s))
  /\ (forall where_,
        Defaults.delete_assumption_refresh_log Defaults.anon where_ s
        = (Defaults.Done 0, s)).
Proof.
  split; [reflexivity |]. split; [reflexivity |]. split.
  - intros where_ set. unfold Defaults.update_assumption_refresh_log. cbn.
    rewrite existsb_false by reflexivity. reflexivity.
  - intros where_. unfold Defaults.delete_assumption_refresh_log. cbn.
    rewrite filter_false by reflexivity. rewrite filter_true by reflexivity.
    cbn. now rewrite store_eta.
Qed.

(** X16. No session under row-level security deletes from the refresh
    log: for [anon] and [authenticated] alike a delete touches no row,
    and through any history of statements by these two roles the log
    never gets shorter. *)
Theorem refresh_log_never_shrinks_for_clients (sts : list Defaults.statement)
  (s : Defaults.store) :
  (forall st, In st sts ->
              Defaults.statement_role st <> Defaults.service_role) ->
  List.length (Defaults.assumption_refresh_log s)
  <= List.length (Defaults.assumption_refresh_log (Defaults.execute_all sts s)).
Proof.
  revert s. induction sts as [|st sts IH]; intros s Hr; [apply Nat.le_refl |].
  cbn [Defaults.execute_all fold_left].
  etransitivity; [| apply IH; intros st' Hst'; apply Hr; now right].
  assert (Defaults.statement_role st <> Defaults.service_role) as Hst
      by (apply Hr; now left).
  clear IH Hr. destruct st; cbn [Defaults.execute Defaults.statement_role] in *.
  - unfold Defaults.insert_default_assumptions.
    repeat match goal with
           | |- context [if ?b then _ else _] => destruct b
           | |- context [match ?x with Some _ => _ | None => _ end] =>
               destruct x
           end; cbn; apply Nat.le_refl.
  - unfold Defaults.update_default_assumptions.
    repeat match goal with
           | |- context [if ?b then _ else _] => destruct b
           end; cbn; apply Nat.le_refl.
  - cbn. apply Nat.le_refl.
  - unfold Defaults.insert_assumption_refresh_log.
    repeat match goal with
           | |- context [if ?b then _ else _] => destruct b
           | |- context [match ?x with Some _ => _ | None => _ end] =>
               destruct x
           end; cbn; try apply Nat.le_refl.
    rewrite length_app. lia.
  - unfold Defaults.update_assumption_refresh_log.
    repeat match goal with
           | |- context [if negb ?b then _ else _] => destruct b; cbn [negb]
           end; cbn [snd Defaults.assumption_refresh_log];
      try apply Nat.le_refl.
    rewrite length_map. apply Nat.le_refl.
  - unfold Defaults.delete_assumption_refresh_log.
    cbn [snd Defaults.assumption_refresh_log].
    destruct r; [| | contradiction]; cbn;
      rewrite filter_true by reflexivity; apply Nat.le_refl.
Qed.

Lemma refresh_log_never_shrinks_for_clients_witness :
  List.length (Defaults.assumption_refresh_log refreshed)
  <= List.length
       (Defaults.assumption_refresh_log
          (Defaults.execute_all
             [Defaults.DeleteLog Defaults.authenticated (fun _ => true);
              Defaults.DeleteLog Defaults.anon (fun _ => true);
              Defaults.InsertLog Defaults.authenticated 10
                (Some "a@example.com") None None (Some "test")]
             refreshed)).
Proof.
  apply (refresh_log_never_shrinks_for_clients _ refreshed).
  intros st [<- | [<- | [<- | []]]]; discriminate.
Defined.

Lemma status_check_true (st : Pg.text) :
  Defaults.status_check st = true <->
  st = "pending" \/ st = "applied" \/ st = "dismissed" \/ st = "test".
Proof.
  unfold Defaults.status_check. rewrite !orb_true_iff, !String.eqb_eq. tauto.
Qed.

(** X17. The status of a log row is always one of pending, applied,
    dismissed and test: an insert with any other status is refused with
    the check violation, for the roles that may insert, and changes
    nothing; and through any history of statements by any roles, from a
    state where the constraints hold, every row of the log has one of the
    four. *)
Theorem refresh_log_status_always_valid :
  (forall r now by_ sj aj st s,
      r <> Defaults.anon ->
      Defaults.status_check st = false ->
      Defaults.insert_assumption_refresh_log r now (Some by_) sj aj (Some st) s
      = (Defaults.Failed
           (Defaults.check_violation "assumption_refresh_log_status_check"),
         s))
  /\ (forall sts s x,
        Defaults.constraints_hold s ->
        In x (Defaults.assumption_refresh_log (Defaults.execute_all sts s)) ->
        Defaults.status x = "pending" \/ Defaults.status x = "applied"
        \/ Defaults.status x = "dismissed" \/ Defaults.status x = "test").
Proof.
  split.
  - intros r now by_ sj aj st s Hr Hc.
    unfold Defaults.insert_assumption_refresh_log.
    destruct r; [contradiction | |]; cbn; now rewrite Hc.
  - intros sts s x Hs Hx.
    destruct (execute_all_keeps_constraints sts s Hs) as (_ & _ & Hst).
    apply status_check_true. now apply Hst.
Qed.

Lemma refresh_log_status_always_valid_witness :
  Defaults.insert_assumption_refresh_log Defaults.authenticated 10
    (Some "a@example.com") None None (Some "Pending") refreshed
  = (Defaults.Failed
       (Defaults.check_violation "assumption_refresh_log_status_check"),
     refreshed)
  /\ forall x,
       In x (Defaults.assumption_refresh_log refreshed) ->
       Defaults.status x = "pending" \/ Defaults.status x = "applied"
       \/ Defaults.status x = "dismissed" \/ Defaults.status x = "test".
Proof.
  split.
  - apply (proj1 refresh_log_status_always_valid); [discriminate | reflexivity].
  - intros x.
    apply (proj2 refresh_log_status_always_valid refresh_history
             Defaults.empty x).
    split; [intros y [] | split; [reflexivity | intros y []]].
Defined.

Lemma filter_false_in {A : Type} (f : A -> bool) (l : list A) :
  (forall a, In a l -> f a = false) -> filter f l = [].
Proof.
  intros H. induction l as [|a l IH]; cbn; [reflexivity |].
  rewrite (H a) by now left. apply IH. intros b Hb. apply H. now right.
Qed.

Lemma distinct_uuids_filter_one (l : list Defaults.log_row)
  (x : Defaults.log_row) :
  Defaults.distinct_uuids (map Defaults.log_id l) = true ->
  In x l ->
  List.length (filter (log_id_is (Defaults.log_id x)) l) = 1.
Proof.
  induction l as [|a l IH]; intros Hd Hin; [contradiction |].
  cbn [map Defaults.distinct_uuids] in Hd. apply andb_true_iff in Hd.
  destruct Hd as [Ha Hl]. apply negb_true_iff in Ha.
  assert (forall y, In y l -> Nat.eqb (Defaults.log_id a) (Defaults.log_id y)
                              = false) as Hfresh.
  { intros y Hy. apply not_true_is_false. intros E.
    assert (existsb (Nat.eqb (Defaults.log_id a)) (map Defaults.log_id l)
            = true) as Hc
        by (apply existsb_exists; exists (Defaults.log_id y);
            split; [now apply in_map | exact E]).
    congruence. }
  cbn [filter]. unfold log_id_is at 1. destruct Hin as [<- | Hin].
  - rewrite Nat.eqb_refl. cbn [List.length]. f_equal.
    rewrite filter_false_in; [reflexivity |].
    intros y Hy. unfold log_id_is. rewrite Nat.eqb_sym. now apply Hfresh.
  - rewrite (Hfresh x Hin). now apply IH.
Qed.

(** X18. The log is open to amendment by every authenticated user: for
    any row of the log, whoever initiated it, an authenticated session's
    [UPDATE ... SET status = st WHERE id = i] with an allowed status
    succeeds on exactly that row, which then carries the new status, and
    leaves the other rows as they were. *)
Theorem authenticated_can_amend_any_log_row (s : Defaults.store)
  (x : Defaults.log_row) (st : Pg.text) :
  In x (Defaults.assumption_refresh_log s) ->
  Defaults.distinct_uuids (map Defaults.log_id (Defaults.assumption_refresh_log s))
  = true ->
  Defaults.status_check st = true ->
  exists s',
    Defaults.update_assumption_refresh_log Defaults.authenticated
      (log_id_is (Defaults.log_id x)) (set_status st) s
    = (Defaults.Done 1, s')
    /\ In (set_status st x) (Defaults.assumption_refresh_log s')
    /\ Defaults.default_assumptions s' = Defaults.default_assumptions s
    /\ forall y,
         In y (Defaults.assumption_refresh_log s) ->
         Defaults.log_id y <> Defaults.log_id x ->
         In y (Defaults.assumption_refresh_log s').
Proof.
  intros Hin Hd Hst. unfold Defaults.update_assumption_refresh_log.
  cbn [Defaults.permitted Defaults.assumption_refresh_log_policies existsb
         Defaults.command_eqb Defaults.role_eqb Defaults.policy_for
         Defaults.policy_to Defaults.policy_expr andb orb].
  set (rows := Defaults.assumption_refresh_log s) in *.
  change (fun x0 : Defaults.log_row => log_id_is (Defaults.log_id x) x0)
    with (log_id_is (Defaults.log_id x)).
  assert (existsb (log_id_is (Defaults.log_id x)) rows = true) as Hex.
  { apply existsb_exists. exists x. split; [exact Hin |].
    unfold log_id_is. apply Nat.eqb_refl. }
  rewrite Hex. cbn [negb].
  assert (forallb (fun y => negb (log_id_is (Defaults.log_id x) y)
                            || Defaults.status_check
                                 (Defaults.status (set_status st y))) rows
          = true) as Hall.
  { apply forallb_forall. intros y _. cbn [set_status Defaults.status].
    rewrite Hst. apply orb_true_r. }
  rewrite Hall. cbn [negb].
  assert (map Defaults.log_id
            (map (fun y => if log_id_is (Defaults.log_id x) y
                           then set_status st y else y) rows)
          = map Defaults.log_id rows) as Hids.
  { rewrite map_map. apply map_ext. intros y.
    now destruct (log_id_is (Defaults.log_id x) y). }
  rewrite Hids, Hd. cbn [negb].
  rewrite (distinct_uuids_filter_one rows x Hd Hin).
  eexists. split; [reflexivity |].
  cbn [Defaults.assumption_refresh_log Defaults.default_assumptions].
  split; [| split; [reflexivity |]].
  - apply in_map_iff. exists x. split; [| exact Hin].
    unfold log_id_is. now rewrite Nat.eqb_refl.
  - intros y Hy Hne. apply in_map_iff. exists y. split; [| exact Hy].
    unfold log_id_is. apply Nat.eqb_neq in Hne. now rewrite Hne.
Qed.

Lemma authenticated_can_amend_any_log_row_witness :
  exists s',
    Defaults.update_assumption_refresh_log Defaults.authenticated
      (log_id_is 1) (set_status "dismissed") refreshed
    = (Defaults.Done 1, s')
    /\ In (set_status "dismissed"
             (Defaults.mklog 1 8 "a@example.com" None None "pending"))
          (Defaults.assumption_refresh_log s')
    /\ Defaults.default_assumptions s' = Defaults.default_assumptions refreshed
    /\ forall y,
         In y (Defaults.assumption_refresh_log refreshed) ->
         Defaults.log_id y <> 1 ->
         In y (Defaults.assumption_refresh_log s').
Proof.
  apply (authenticated_can_amend_any_log_row refreshed
           (Defaults.mklog 1 8 "a@example.com" None None "pending")
           "dismissed").
  - cbn. auto.
  - reflexivity.
  - reflexivity.
Defined.

(* ================================================================== *)
(** ** The authentication store *)
(* ================================================================== *)

(** X20. The flag follows the user: in every state the store reaches
    from its initial state by its [set] calls, in any order and with any
    answers of the client, [isSuperUser] is [checkIsSuperUser] of the
    stored user. *)
Theorem super_user_flag_follows_user (super : string)
  (ps : list Auth.patch) :
  Auth.isSuperUser (Auth.sets super ps Auth.initial)
  = Auth.checkIsSuperUser super (Auth.user (Auth.sets super ps Auth.initial)).
Proof.
  unfold Auth.sets.
  assert (Auth.isSuperUser Auth.initial
          = Auth.checkIsSuperUser super (Auth.user Auth.initial)) as H0
      by reflexivity.
  revert H0. generalize Auth.initial as st.
  induction ps as [|p ps IH]; intros st Hst; [exact Hst |].
  cbn [fold_left]. apply IH.
  destruct p; cbn [Auth.set Auth.isSuperUser Auth.user];
    first [exact Hst | reflexivity].
Qed.

(** X21. A sign-in or sign-up that fails does not touch the session: when
    the client answers with an error or throws, the stored user, session
    and super-user flag are those from before, the loading flag is off,
    and the store's error is the message returned to the caller (the
    fallback text when the exception carries none); without a client the
    state is not changed at all and the caller is told
    "Supabase not configured". *)
Theorem failed_sign_keeps_session (fallback super : string)
  (st : Auth.AuthState) :
  (forall r, Auth.sign fallback super false r st
             = (st, Auth.mkresult false (Some "Supabase not configured")))
  /\ (forall r st' res,
        (forall d, r <> Auth.with_data d) ->
        Auth.sign fallback super true r st = (st', res) ->
        Auth.user st' = Auth.user st
        /\ Auth.session st' = Auth.session st
        /\ Auth.isSuperUser st' = Auth.isSuperUser st
        /\ Auth.isLoading st' = false
        /\ Auth.success res = false
        /\ Auth.error st' = Auth.result_error res
        /\ Auth.result_error res
           = Some match r with
                  | Auth.with_error m => m
                  | Auth.thrown (Some m) => if String.eqb m "" then fallback else m
                  | _ => fallback
                  end).
Proof.
  split; [reflexivity |].
  intros r st' res Hr H. unfold Auth.sign in H. cbn [negb] in H.
  destruct r as [m | d | [m|]]; [| exfalso; now apply (Hr d) | |];
    injection H as <- <-; cbn; repeat split.
Qed.

Lemma failed_sign_keeps_session_witness :
  Auth.user (fst (Auth.signIn "admin@example.com" true (Auth.thrown None)
                    Auth.initial)) = Auth.user Auth.initial
  /\ Auth.session (fst (Auth.signIn "admin@example.com" true (Auth.thrown None)
                          Auth.initial)) = Auth.session Auth.initial
  /\ Auth.isSuperUser (fst (Auth.signIn "admin@example.com" true
                              (Auth.thrown None) Auth.initial))
     = Auth.isSuperUser Auth.initial
  /\ Auth.isLoading (fst (Auth.signIn "admin@example.com" true
                            (Auth.thrown None) Auth.initial)) = false
  /\ Auth.success (snd (Auth.signIn "admin@example.com" true
                          (Auth.thrown None) Auth.initial)) = false
  /\ Auth.error (fst (Auth.signIn "admin@example.com" true (Auth.thrown None)
                        Auth.initial))
     = Auth.result_error (snd (Auth.signIn "admin@example.com" true
                                 (Auth.thrown None) Auth.initial))
  /\ Auth.result_error (snd (Auth.signIn "admin@example.com" true
                               (Auth.thrown None) Auth.initial))
     = Some "Sign in failed".
Proof.
  apply (proj2 (failed_sign_keeps_session "Sign in failed" "admin@example.com"
                  Auth.initial) (Auth.thrown None)).
  - intros d. discriminate.
  - reflexivity.
Defined.

(* ================================================================== *)
(** ** The summary of active input changes *)
(* ================================================================== *)

Section SummaryFacts.

Context {number : Type}.
Variable displayName_ : string -> string.
Variable formatValue_ : string -> number -> string.

Lemma entriesOf_length (g : Summary.group number) :
  List.length (Summary.entriesOf displayName_ formatValue_ g)
  = List.length (Summary.numbers (Some g)).
Proof.
  unfold Summary.entriesOf, Summary.numbers.
  induction g as [|[k v] g IH]; [reflexivity |].
  cbn [flat_map]. rewrite !length_app, IH. now destruct v.
Qed.

Lemma sectionOf_cases (k : string) (l : option string)
  (g : option (Summary.group number)) :
  (Summary.numbers g = []
   /\ Summary.sectionOf displayName_ formatValue_ k l g = [])
  \/ (Summary.numbers g <> []
      /\ exists es,
           es <> []
           /\ List.length es = List.length (Summary.numbers g)
           /\ Summary.sectionOf displayName_ formatValue_ k l g
              = [Summary.mksection k l es]).
Proof.
  destruct g as [g|]; [| left; split; reflexivity].
  pose proof (entriesOf_length g) as Hlen.
  unfold Summary.sectionOf, Summary.pushSection.
  destruct (Summary.entriesOf displayName_ formatValue_ g) as [|e es] eqn:He.
  - left. split; [| reflexivity].
    destruct (Summary.numbers (Some g)); [reflexivity | discriminate Hlen].
  - right. split.
    + intros Hn. rewrite Hn in Hlen. discriminate Hlen.
    + exists (e :: es). split; [discriminate | split; [exact Hlen | reflexivity]].
Qed.

Lemma sectionOf_keys (k : string) (l : option string)
  (g : option (Summary.group number)) :
  map Summary.sectionKey (Summary.sectionOf displayName_ formatValue_ k l g)
  = key_if_numbers (k, g).
Proof.
  unfold key_if_numbers. cbn [fst snd].
  destruct (sectionOf_cases k l g) as [(Hn & ->) | (Hn & es & _ & _ & ->)].
  - now rewrite Hn.
  - destruct (Summary.numbers g); [contradiction | reflexivity].
Qed.

Lemma sectionOf_count (k : string) (l : option string)
  (g : option (Summary.group number)) :
  Summary.totalCount (Summary.sectionOf displayName_ formatValue_ k l g)
  = List.length (Summary.numbers g).
Proof.
  destruct (sectionOf_cases k l g) as [(Hn & ->) | (Hn & es & _ & Hl & ->)].
  - now rewrite Hn.
  - cbn. exact Hl.
Qed.

Lemma sectionOf_In (k : string) (l : option string)
  (g : option (Summary.group number)) (s : Summary.Section) :
  In s (Summary.sectionOf displayName_ formatValue_ k l g) ->
  Summary.sectionKey s = k /\ Summary.label s = l /\ Summary.entries s <> [].
Proof.
  destruct (sectionOf_cases k l g) as [(Hn & ->) | (Hn & es & He & _ & ->)].
  - intros [].
  - intros [<- | []]. cbn. auto.
Qed.

Lemma totalCount_app (a b : list Summary.Section) :
  Summary.totalCount (a ++ b) = Summary.totalCount a + Summary.totalCount b.
Proof.
  unfold Summary.totalCount. rewrite fold_left_app.
  generalize (fold_left (fun sum s => sum + List.length (Summary.entries s)) a 0)
    as n.
  induction b as [|s b IH]; intros n; cbn [fold_left]; [lia |].
  rewrite IH, (IH (0 + _)). lia.
Qed.

Lemma buildSections_unfolded (o : Summary.Overrides number) :
  Summary.buildSections displayName_ formatValue_ o
  = flat_map (fun kg =>
                Summary.sectionOf displayName_ formatValue_ (fst kg)
                  (Summary.lookup Summary.SECTION_NAMES (fst kg)) (snd kg))
      (Summary.groups o).
Proof.
  unfold Summary.buildSections, Summary.groups, Summary.member.
  destruct o as [m bg bh be il eu ee ej em ar]. cbn [Summary.macro
    Summary.bonds_global Summary.bonds_hy Summary.bonds_em
    Summary.inflation_linked Summary.equity_us Summary.equity_europe
    Summary.equity_japan Summary.equity_em Summary.absolute_return].
  destruct m as [[mu me mj mm]|], il as [[iu ie]|];
    cbn [flat_map fst snd Summary.us Summary.eurozone Summary.japan Summary.em
           Summary.usd Summary.eur Summary.sectionOf app];
    rewrite ?app_nil_r, <- ?app_assoc; reflexivity.
Qed.

End SummaryFacts.

Lemma groups_keys {number : Type} (o : Summary.Overrides number) :
  map fst (Summary.groups o) = map fst Summary.SECTION_NAMES.
Proof. reflexivity. Qed.

Lemma built_section_origin {number : Type} (displayName_ : string -> string)
  (formatValue_ : string -> number -> string) (o : Summary.Overrides number)
  (s : Summary.Section) :
  In s (Summary.buildSections displayName_ formatValue_ o) ->
  In (Summary.sectionKey s) (map fst Summary.SECTION_NAMES)
  /\ Summary.label s = Summary.lookup Summary.SECTION_NAMES (Summary.sectionKey s)
  /\ Summary.entries s <> [].
Proof.
  rewrite buildSections_unfolded. intros Hs. apply in_flat_map in Hs.
  destruct Hs as (kg & Hkg & Hs). apply sectionOf_In in Hs.
  destruct Hs as (Hk & Hl & He). rewrite Hk. split; [| split; assumption].
  rewrite <- (groups_keys o). now apply in_map.
Qed.

(** X22. The sections come in the order of [SECTION_NAMES], one for
    each of the fourteen override objects that holds a number and none
    for the others; every section has at least one entry, and its label
    is the name [SECTION_NAMES] gives its key (the fallback label of the
    macro sections and a missing label do not occur). *)
Theorem sections_follow_section_names {number : Type}
  (displayName_ : string -> string)
  (formatValue_ : string -> number -> string) (o : Summary.Overrides number) :
  map fst (Summary.groups o) = map fst Summary.SECTION_NAMES
  /\ map Summary.sectionKey (Summary.buildSections displayName_ formatValue_ o)
     = flat_map key_if_numbers (Summary.groups o)
  /\ forall s,
       In s (Summary.buildSections displayName_ formatValue_ o) ->
       Summary.entries s <> []
       /\ exists name,
            In (Summary.sectionKey s, name) Summary.SECTION_NAMES
            /\ Summary.label s = Some name.
Proof.
  split; [reflexivity |]. split.
  - rewrite buildSections_unfolded.
    induction (Summary.groups o) as [|[k g] l IH]; [reflexivity |].
    cbn [flat_map]. rewrite map_app, IH. cbn [fst snd].
    now rewrite sectionOf_keys.
  - intros s Hs. apply built_section_origin in Hs.
    destruct Hs as (Hk & Hl & He). split; [exact He |].
    rewrite Hl. clear Hl He. cbn in Hk.
    repeat (destruct Hk as [<- | Hk];
            [eexists; split; [| reflexivity]; cbn; tauto |]).
    contradiction.
Qed.

Lemma sections_follow_section_names_witness :
  map Summary.sectionKey
    (Summary.buildSections (fun k => k) (fun _ (n : Z) => "n") sample_overrides)
  = ["macro.eurozone"; "equity_us"].
Proof.
  rewrite (proj1 (proj2 (sections_follow_section_names (fun k => k)
                           (fun _ (n : Z) => "n") sample_overrides))).
  reflexivity.
Defined.

(** X23. The count shown in the badge is the number of numeric values
    in the fourteen override objects, and the component renders nothing
    exactly when none of them holds a number. *)
Theorem total_count_counts_numbers {number : Type}
  (displayName_ : string -> string)
  (formatValue_ : string -> number -> string) (o : Summary.Overrides number) :
  Summary.totalCount (Summary.buildSections displayName_ formatValue_ o)
  = List.length (flat_map (fun kg => Summary.numbers (snd kg))
                   (Summary.groups o))
  /\ (Summary.renders displayName_ formatValue_ o = false
      <-> forall kg, In kg (Summary.groups o) -> Summary.numbers (snd kg) = []).
Proof.
  assert (Summary.totalCount
            (Summary.buildSections displayName_ formatValue_ o)
          = List.length (flat_map (fun kg => Summary.numbers (snd kg))
                           (Summary.groups o))) as Hcount.
  { rewrite buildSections_unfolded.
    induction (Summary.groups o) as [|[k g] l IH]; [reflexivity |].
    cbn [flat_map fst snd]. rewrite totalCount_app, length_app, IH.
    now rewrite sectionOf_count. }
  split; [exact Hcount |].
  unfold Summary.renders. rewrite Hcount, negb_false_iff, Nat.eqb_eq.
  rewrite length_zero_iff_nil. clear Hcount.
  induction (Summary.groups o) as [|kg l IH]; cbn [flat_map].
  - split; [intros _ kg [] | reflexivity].
  - split.
    + intros H. apply app_eq_nil in H. destruct H as [H1 H2].
      intros kg' [<- | Hin]; [exact H1 | exact (proj1 IH H2 kg' Hin)].
    + intros H. rewrite (H kg) by now left. cbn [app]. apply (proj2 IH).
      intros kg' Hin. apply H. now right.
Qed.

Lemma total_count_counts_numbers_witness :
  Summary.totalCount
    (Summary.buildSections (fun k => k) (fun _ (n : Z) => "n") sample_overrides)
  = 3.
Proof.
  rewrite (proj1 (total_count_counts_numbers (fun k => k)
                    (fun _ (n : Z) => "n") sample_overrides)).
  reflexivity.
Defined.

(** X24. Every section that is built gets the colour of its family:
    its key starts with macro, bonds, inflation, equity or absolute and
    [sectionColor] gives that family's colour, never the slate default. *)
Theorem built_sections_have_family_color {number : Type}
  (displayName_ : string -> string)
  (formatValue_ : string -> number -> string) (o : Summary.Overrides number)
  (s : Summary.Section) :
  In s (Summary.buildSections displayName_ formatValue_ o) ->
  exists family color,
    In (family, color) family_colors
    /\ Summary.startsWith (Summary.sectionKey s) family = true
    /\ Summary.sectionColor (Summary.sectionKey s) = color
    /\ color <> Summary.default_color.
Proof.
  intros Hs. apply built_section_origin in Hs. destruct Hs as (Hk & _ & _).
  cbn in Hk.
  repeat (destruct Hk as [<- | Hk];
          [first
             [ exists "macro", Summary.SECTION_COLORS_macro;
               split; [cbn; tauto |]; split; [reflexivity |];
               split; [reflexivity | discriminate]
             | exists "bonds", Summary.SECTION_COLORS_bonds;
               split; [cbn; tauto |]; split; [reflexivity |];
               split; [reflexivity | discriminate]
             | exists "inflation", Summary.SECTION_COLORS_inflation;
               split; [cbn; tauto |]; split; [reflexivity |];
               split; [reflexivity | discriminate]
             | exists "equity", Summary.SECTION_COLORS_equity;
               split; [cbn; tauto |]; split; [reflexivity |];
               split; [reflexivity | discriminate]
             | exists "absolute", Summary.SECTION_COLORS_absolute;
               split; [cbn; tauto |]; split; [reflexivity |];
               split; [reflexivity | discriminate] ] |]).
  contradiction.
Qed.

Lemma built_sections_have_family_color_witness :
  exists family color,
    In (family, color) family_colors
    /\ Summary.startsWith "equity_us" family = true
    /\ Summary.sectionColor "equity_us" = color
    /\ color <> Summary.default_color.
Proof.
  apply (built_sections_have_family_color (fun k => k) (fun _ (n : Z) => "n")
           sample_overrides
           (Summary.mksection "equity_us" (Some "Equity US")
              [Summary.mkentry "target_pe" "target_pe" "n";
               Summary.mkentry "current_pe" "current_pe" "n"])).
  cbn. auto.
Defined.

(* ================================================================== *)
(** ** Deleting a scenario *)
(* ================================================================== *)

Lemma set_null_shared_from_fields (i : uuid) (s : Scenario.row) :
  Scenario.id (set_null_shared_from i s) = Scenario.id s
  /\ Scenario.user_id (set_null_shared_from i s) = Scenario.user_id s
  /\ Scenario.name (set_null_shared_from i s) = Scenario.name s
  /\ Scenario.description (set_null_shared_from i s) = Scenario.description s
  /\ Scenario.overrides (set_null_shared_from i s) = Scenario.overrides s
  /\ Scenario.base_currency (set_null_shared_from i s)
     = Scenario.base_currency s
  /\ Scenario.is_shared_copy (set_null_shared_from i s)
     = Scenario.is_shared_copy s
  /\ Scenario.shared_by_user_id (set_null_shared_from i s)
     = Scenario.shared_by_user_id s
  /\ Scenario.shared_by_email (set_null_shared_from i s)
     = Scenario.shared_by_email s
  /\ Scenario.shared_from_scenario_id (set_null_shared_from i s)
     = (if Pg.is_true (Pg.sql_eq Nat.eqb (Scenario.shared_from_scenario_id s)
                         (Some i))
        then None else Scenario.shared_from_scenario_id s).
Proof.
  unfold set_null_shared_from.
  destruct (Pg.is_true _); cbn; repeat split.
Qed.

Lemma find_map_same {A : Type} (w : A -> bool) (f : A -> A) (l : list A) :
  (forall a, w (f a) = w a) ->
  find w (map f l) = option_map f (find w l).
Proof.
  intros H. induction l as [|a l IH]; [reflexivity |].
  cbn [map find]. rewrite H. destruct (w a); [reflexivity | exact IH].
Qed.

Lemma find_filter_out (i : uuid) (l : list Scenario.row) :
  find (fun s => Nat.eqb (Scenario.id s) i)
    (filter (fun s => negb (Nat.eqb (Scenario.id s) i)) l) = None.
Proof.
  induction l as [|s l IH]; [reflexivity |].
  cbn [filter]. destruct (Nat.eqb (Scenario.id s) i) eqn:E; cbn [negb];
    [exact IH |].
  cbn [find]. now rewrite E.
Qed.

(** X25. Deleting a source scenario leaves its copies in place: after a
    successful share, the deletion of the source removes the source and
    the audit rows that name it, and the copy found under the returned id
    is the inserted row with its back-reference set to [NULL], every
    other field (owner, name, description, override payload, base
    currency, sender, sender's email) kept. *)
Theorem copy_survives_deletion_of_source (auth_uid : option uuid)
  (now : timestamptz) (source_id : uuid) (input : option Pg.text)
  (d d1 : db) (row : Shared.row) :
  react_share_scenario auth_uid now (Some source_id) input d = (Ok row, d1) ->
  exists copy copy',
    scenario_by_id (Shared.shared_scenario_id row) d1 = Some copy
    /\ scenario_by_id (Shared.shared_scenario_id row)
         (snd (delete_react_scenario source_id d1)) = Some copy'
    /\ Scenario.shared_from_scenario_id copy = Some source_id
    /\ Scenario.shared_from_scenario_id copy' = None
    /\ Scenario.user_id copy' = Scenario.user_id copy
    /\ Scenario.name copy' = Scenario.name copy
    /\ Scenario.description copy' = Scenario.description copy
    /\ Scenario.overrides copy' = Scenario.overrides copy
    /\ Scenario.base_currency copy' = Scenario.base_currency copy
    /\ Scenario.is_shared_copy copy' = true
    /\ Scenario.shared_by_user_id copy' = Scenario.shared_by_user_id copy
    /\ Scenario.shared_by_email copy' = Scenario.shared_by_email copy
    /\ scenario_by_id source_id (snd (delete_react_scenario source_id d1))
       = None
    /\ forall a,
         In a (react_scenario_shares (snd (delete_react_scenario source_id d1)))
         -> Share.source_scenario_id a <> source_id.
Proof.
  intros Hcall.
  pose proof (share_scenario_run auth_uid now (Some source_id) input d) as H.
  rewrite Hcall in H. cbn [fst snd] in H. inversion H; subst. clear H.
  match goal with Hs : find_source _ _ _ = Some _ |- _ =>
    destruct (find_source_some _ _ _ _ Hs) as (Hin & Hsid & _) end.
  injection Hsid as Hsid. cbn [Shared.shared_scenario_id].
  set (g := gen_random_uuid (map Scenario.id (react_scenarios d))) in *.
  assert (forall s, In s (react_scenarios d) -> Nat.eqb (Scenario.id s) g = false)
    as Hfresh.
  { intros s Hs. apply Nat.eqb_neq. apply gen_random_uuid_fresh.
    now apply in_map. }
  assert (Nat.eqb g source_id = false) as Hne.
  { rewrite Nat.eqb_sym, Hsid. now apply Hfresh. }
  eexists. eexists.
  split; [apply (scenario_by_id_fresh _ _ _ (Scenario.mk g _ _ _ _ _ _ _ _ _));
          reflexivity |].
  split.
  { unfold scenario_by_id, delete_react_scenario. cbn [snd react_scenarios].
    rewrite find_map_same
      by (intros a; now rewrite (proj1 (set_null_shared_from_fields _ a))).
    rewrite filter_app. cbn [filter Scenario.id]. rewrite Hne. cbn [negb].
    rewrite (find_app_last _ _ (Scenario.mk g _ _ _ _ _ _ _ _ _)).
    - reflexivity.
    - intros s Hs. apply filter_In in Hs. apply Hfresh. tauto.
    - apply Nat.eqb_refl. }
  unfold set_null_shared_from.
  cbn [Scenario.shared_from_scenario_id Pg.sql_eq Pg.is_true].
  rewrite <- Hsid, Nat.eqb_refl. cbn.
  repeat (split; [reflexivity |]).
  split.
  { unfold scenario_by_id, delete_react_scenario. cbn [snd react_scenarios].
    rewrite find_map_same
      by (intros a; now rewrite (proj1 (set_null_shared_from_fields _ a))).
    now rewrite find_filter_out. }
  intros a Ha. apply filter_In in Ha.
  destruct Ha as [_ Ha]. apply negb_true_iff in Ha. now apply Nat.eqb_neq.
Qed.

Lemma copy_survives_deletion_of_source_witness :
  exists copy copy',
    scenario_by_id 12 db_shared = Some copy
    /\ scenario_by_id 12 (snd (delete_react_scenario 10 db_shared))
       = Some copy'
    /\ Scenario.shared_from_scenario_id copy = Some 10
    /\ Scenario.shared_from_scenario_id copy' = None
    /\ Scenario.user_id copy' = Scenario.user_id copy
    /\ Scenario.name copy' = Scenario.name copy
    /\ Scenario.description copy' = Scenario.description copy
    /\ Scenario.overrides copy' = Scenario.overrides copy
    /\ Scenario.base_currency copy' = Scenario.base_currency copy
    /\ Scenario.is_shared_copy copy' = true
    /\ Scenario.shared_by_user_id copy' = Scenario.shared_by_user_id copy
    /\ Scenario.shared_by_email copy' = Scenario.shared_by_email copy
    /\ scenario_by_id 10 (snd (delete_react_scenario 10 db_shared)) = None
    /\ forall a,
         In a (react_scenario_shares (snd (delete_react_scenario 10 db_shared)))
         -> Share.source_scenario_id a <> 10.
Proof.
  apply (copy_survives_deletion_of_source (Some 1) 100 10
           (Some "b@example.com") db0 db_shared
           (Shared.mk 12 "Base Case 2025" 2 (Some "B@Example.com"))).
  reflexivity.
Defined.

(** X26. Deleting the copy does not reopen the share: the audit row
    names the source, not the copy, so after a successful share and the
    deletion of the copy the same call is still refused with
    DuplicateShare, and changes nothing. *)
Theorem deleting_copy_does_not_reopen_share (auth_uid : option uuid)
  (now now' : timestamptz) (sid : option uuid) (input : option Pg.text)
  (d d1 : db) (row : Shared.row) :
  react_share_scenario auth_uid now sid input d = (Ok row, d1) ->
  react_share_scenario auth_uid now' sid input
    (snd (delete_react_scenario (Shared.shared_scenario_id row) d1))
  = (Err DuplicateShare,
     snd (delete_react_scenario (Shared.shared_scenario_id row) d1)).
Proof.
  intros Hcall.
  pose proof (share_scenario_run auth_uid now sid input d) as H.
  rewrite Hcall in H. cbn [fst snd] in H. inversion H; subst. clear H.
  match goal with Hs : find_source _ _ _ = Some _ |- _ =>
    destruct (find_source_some _ _ _ _ Hs) as (Hin & Hsid & Hown);
    rename Hs into Hsrc end.
  cbn [Shared.shared_scenario_id].
  set (g := gen_random_uuid (map Scenario.id (react_scenarios d))) in *.
  assert (Nat.eqb (Scenario.id src) g = false) as Hne.
  { apply Nat.eqb_neq. apply gen_random_uuid_fresh. now apply in_map. }
  match goal with |- react_share_scenario _ _ _ _ ?x = _ => set (d2 := x) end.
  assert (exists src', find_source sid sender d2 = Some src'
                       /\ Scenario.id src' = Scenario.id src)
    as (src' & Hsrc' & Hid').
  { assert (In (set_null_shared_from g src) (react_scenarios d2)) as Hin2.
    { unfold d2, delete_react_scenario. cbn [snd react_scenarios].
      apply in_map. apply filter_In. split; [apply in_or_app; now left |].
      now rewrite Hne. }
    destruct (set_null_shared_from_fields g src) as (Fid & Fu & _).
    rewrite Hsid.
    destruct (find_source_exists (Scenario.id src) sender d2
                (set_null_shared_from g src) Hin2 Fid)
      as (src' & E & Hi); [congruence |].
    exists src'. auto. }
  assert (resolve_recipient input d2 = Some rcp) as Hr2
      by (rewrite (resolve_recipient_users input d d2); auto).
  rewrite call_body.
  apply (body_duplicate sender now' sid input d2 src' rcp Hsrc' Hr2);
    [assumption |].
  rewrite Hid'. unfold has_share_key, d2, delete_react_scenario.
  cbn [snd react_scenario_shares]. apply existsb_exists.
  eexists. split.
  - apply filter_In. split; [apply in_or_app; right; left; reflexivity |].
    cbn [Share.source_scenario_id]. now rewrite Hne.
  - apply key_eqb_eq. reflexivity.
Qed.

Lemma deleting_copy_does_not_reopen_share_witness :
  react_share_scenario (Some 1) 101 (Some 10) (Some "b@example.com")
    (snd (delete_react_scenario 12 db_shared))
  = (Err DuplicateShare, snd (delete_react_scenario 12 db_shared)).
Proof.
  apply (deleting_copy_does_not_reopen_share (Some 1) 100 101 (Some 10)
           (Some "b@example.com") db0 db_shared
           (Shared.mk 12 "Base Case 2025" 2 (Some "B@Example.com"))).
  reflexivity.
Defined.
